(** * Tiddlyflare: the chunked blob store of the wiki actor and the tenant index

    A shallow embedding of [src/shared.ts] ([chunkify], [mergeArrayBuffers])
    and of [src/durable-objects.ts] ([TenantDO], [WikiDO]) with the
    properties of the storage and coordination engine proved about it.

    Conventions of the embedding:
    - a JavaScript number that holds a length, an index, a timestamp or an
      SQL INTEGER is a [Z];
    - a [Uint8Array] / [ArrayBuffer] is a [list byte];
    - a table of the actor's private SQLite store is the list of its rows in
      insertion order, [None] while the table does not exist;
    - a method of an actor is a function from the actor's state to an
      [outcome] and the state it leaves, so that what a throwing call has
      already written stays visible. *)

From Stdlib Require Import String Ascii Strings.Byte List ZArith Lia Bool.
From Stdlib Require Import Sorting.Sorted Sorting.Permutation.
Import ListNotations.
Local Open Scope Z_scope.

Set Implicit Arguments.

(** ** Results of fallible code *)

Inductive outcome (A : Type) : Type :=
| Ok (a : A)
| Throw (msg : string).
Arguments Ok {A} a.
Arguments Throw {A} msg.

(** State and exception monad: a thrown error keeps the state reached. *)
Definition M (St A : Type) : Type := St -> outcome A * St.

Definition ret {St A} (a : A) : M St A := fun s => (Ok a, s).

Definition bind {St A B} (m : M St A) (k : A -> M St B) : M St B :=
  fun s =>
    match m s with
    | (Ok a, s') => k a s'
    | (Throw e, s') => (Throw e, s')
    end.

Definition throw {St A} (msg : string) : M St A := fun s => (Throw msg, s).
Definition get {St} : M St St := fun s => (Ok s, s).
Definition put {St} (s : St) : M St unit := fun _ => (Ok tt, s).
Definition modify {St} (f : St -> St) : M St unit := fun s => (Ok tt, f s).

Declare Scope exec_scope.
Delimit Scope exec_scope with exec.
Notation "x <- m ;; k" := (bind m (fun x => k))
  (at level 61, m at next level, right associativity) : exec_scope.
Notation "m ;;; k" := (bind m (fun _ => k))
  (at level 61, right associativity) : exec_scope.

(** ** Byte buffers *)

Definition bytes := list byte.

Definition byteLength (b : bytes) : Z := Z.of_nat (length b).

(** [bb.subarray(begin, end)] for [0 <= begin <= end <= bb.length]. *)
Definition subarray (bb : bytes) (begin_ end_ : Z) : bytes :=
  firstn (Z.to_nat (end_ - begin_)) (skipn (Z.to_nat begin_) bb).

(** [arr.set(src, writeidx)]: overwrite [arr] from [writeidx] with [src]. *)
Definition set_at (arr src : bytes) (writeidx : Z) : bytes :=
  firstn (Z.to_nat writeidx) arr ++ src
    ++ skipn (Z.to_nat writeidx + length src) arr.

(** ** Stable insertion sort, the model of SQL's ORDER BY *)

Section Isort.
Variable A : Type.
(** [before a b]: [a] may stay in front of [b]. *)
Variable before : A -> A -> bool.

Fixpoint insert_sorted (a : A) (l : list A) : list A :=
  match l with
  | [] => [a]
  | b :: l' => if before a b then a :: b :: l' else b :: insert_sorted a l'
  end.

Fixpoint isort (l : list A) : list A :=
  match l with
  | [] => []
  | a :: l' => insert_sorted a (isort l')
  end.
End Isort.

(** ** src/shared.ts *)

Module Shared.

(** [Math.ceil(a / b)] for a length [a] and a positive chunk size [b]
    (the quotient of two integers below 2^53 is rounded to a float that
    has the same ceiling). *)
Definition ceil_div (a b : Z) : Z := (a + b - 1) / b.

(** The [for] loop of [chunkify]: [n] iterations are left, [readidx] is
    where the next slice starts. *)
Fixpoint chunkify_loop (bb : bytes) (chunkSz : Z) (n : nat) (readidx : Z)
  : list bytes :=
  match n with
  | O => []
  | S n' =>
      let end_ := Z.min (readidx + chunkSz) (byteLength bb) in
      subarray bb readidx end_ :: chunkify_loop bb chunkSz n' end_
  end.

Definition chunkify (bb : bytes) (chunkSz : Z) : list bytes :=
  chunkify_loop bb chunkSz (Z.to_nat (ceil_div (byteLength bb) chunkSz)) 0.

(** The [for] loop of [mergeArrayBuffers]. *)
Fixpoint merge_loop (chunks : list bytes) (arr : bytes) (writeidx : Z)
  : bytes :=
  match chunks with
  | [] => arr
  | c :: rest => merge_loop rest (set_at arr c writeidx) (writeidx + byteLength c)
  end.

Definition mergeArrayBuffers (chunks : list bytes) : bytes :=
  let total := fold_left (fun acc b => acc + byteLength b) chunks 0 in
  merge_loop chunks (repeat x00 (Z.to_nat total)) 0.

End Shared.

(** ** src/sql-migrations.ts

    The file is imported by [src/durable-objects.ts] but is not part of the
    sources at hand; the runner below follows the specification. *)

Module Migrations.

(** What [sql.exec] reports back. *)
Record RowsData := { rowsRead : Z; rowsWritten : Z }.

Definition no_rows : RowsData := {| rowsRead := 0; rowsWritten := 0 |}.

Definition add_rows (a b : RowsData) : RowsData :=
  {| rowsRead := rowsRead a + rowsRead b;
     rowsWritten := rowsWritten a + rowsWritten b |}.

(** The statements that occur in the [sql] texts of the two migration
    lists of [src/durable-objects.ts]. *)
Inductive Ddl : Type :=
| CREATE_TABLE_IF_NOT_EXISTS (table : string)
| ALTER_TABLE_ADD (table column : string).

(** One entry of a migration list: [{ idMonotonicInc, description, sql }],
    the [sql] text being held as its statements. *)
Record SchemaMigration := {
  idMonotonicInc : Z;
  description : string;
  sql : list Ddl
}.

Section Runner.
(** The SQL side of the actor's private store and the effect of one
    statement on it: [None] when the statement fails. *)
Variable DB : Type.
Variable exec : Ddl -> DB -> option (DB * RowsData).

(** Modelled from the spec: the "persistent per-actor state of the highest
    applied id", next to the SQL tables of the actor's store. The mark is
    [None] on a store no migration has run on; [applied] is a history
    variable, the ids of the migrations applied so far, oldest first. *)
Record Store := {
  db : DB;
  lastMigrationId : option Z;
  applied : list Z
}.

Definition set_db (st : Store) (d : DB) : Store :=
  {| db := d; lastMigrationId := lastMigrationId st; applied := applied st |}.

(** Modelled from the spec: a migration is due when its id is "greater
    than the stored high-water mark"; all are on a store without a mark. *)
Definition is_pending (mark : option Z) (m : SchemaMigration) : bool :=
  match mark with
  | None => true
  | Some h => h <? idMonotonicInc m
  end.

Definition id_before (a b : SchemaMigration) : bool :=
  idMonotonicInc a <=? idMonotonicInc b.

(** Modelled from the spec: "all migrations with id greater than the
    stored high-water mark, strictly in ascending order". *)
Definition pending (ms : list SchemaMigration) (mark : option Z)
  : list SchemaMigration :=
  isort id_before (filter (is_pending mark) ms).

(** Modelled from the spec: the statements of one migration run "inside
    one atomic unit": the store the last statement leaves, or [None] and no
    effect at all. *)
Fixpoint exec_all (stmts : list Ddl) (d : DB) (acc : RowsData)
  : option (DB * RowsData) :=
  match stmts with
  | [] => Some (d, acc)
  | stmt :: rest =>
      match exec stmt d with
      | Some (d', r) => exec_all rest d' (add_rows acc r)
      | None => None
      end
  end.

(** Modelled from the spec: "each inside one atomic unit; the high-water
    mark advances only after a migration's statements succeed", "a
    failure mid-migration must leave the high-water mark unadvanced". *)
Fixpoint run_pending (ms : list SchemaMigration) (acc : RowsData)
  : M Store RowsData :=
  match ms with
  | [] => ret acc
  | m :: rest =>
      fun st =>
        match exec_all (sql m) (db st) acc with
        | Some (d', acc') =>
            run_pending rest acc'
              {| db := d';
                 lastMigrationId := Some (idMonotonicInc m);
                 applied := applied st ++ [idMonotonicInc m] |}
        | None => (Throw "migration failed", st)
        end
  end.

(** Modelled from the spec: [runAll()] of the schema-migration runner,
    whose implementation file is missing. *)
Definition runAll (ms : list SchemaMigration) : M Store RowsData :=
  fun st => run_pending (pending ms (lastMigrationId st)) no_rows st.

End Runner.

End Migrations.

(** ** HTTP responses *)

Inductive Body : Type :=
| Text (s : string)
| Chunks (enqueued : list bytes).

Record Response := {
  status : Z;
  contentType : option string;
  body : Body
}.

(** An inbound [ReadableStream]: the values its successive reads deliver
    before the read that reports [done]. *)
Definition ReadableStream := list bytes.

(** ** src/durable-objects.ts: WikiDO *)

Module WikiDO.
Import Shared Migrations.

Definition RETAINED_VERSIONS_NUM : Z := 10.
Definition CHUNK_SIZE_MAX : Z := 1500000.
Definition BYTE_SIZE_ATONCE_THRESHOLD : Z := 5000000.

(** Rows of [wiki_info]. *)
Record InfoRow := {
  i_wikiId : string;
  i_tenantId : string;
  i_name : string;
  i_wikiType : string
}.

(** Rows of [wiki_versions]; [v_chunksTotal] is [None] for SQL NULL.
    PRIMARY KEY (wikiId, tsMs, chunkIdx). *)
Record VersionRow := {
  v_wikiId : string;
  v_tsMs : Z;
  v_src : bytes;
  v_chunkIdx : Z;
  v_chunksTotal : option Z
}.

Record DB := {
  wiki_info : option (list InfoRow);
  wiki_versions : option (list VersionRow)
}.

Definition empty_db : DB := {| wiki_info := None; wiki_versions := None |}.

Definition set_wiki_info (d : DB) (t : list InfoRow) : DB :=
  {| wiki_info := Some t; wiki_versions := wiki_versions d |}.

Definition set_wiki_versions (d : DB) (t : list VersionRow) : DB :=
  {| wiki_info := wiki_info d; wiki_versions := Some t |}.

(** The statements of [WikiMigrations] on this store; a created table
    counts as one written row. *)
Definition exec (stmt : Ddl) (d : DB) : option (DB * RowsData) :=
  match stmt with
  | CREATE_TABLE_IF_NOT_EXISTS t =>
      if (t =? "wiki_info")%string then
        match wiki_info d with
        | Some _ => Some (d, no_rows)
        | None => Some (set_wiki_info d [], {| rowsRead := 0; rowsWritten := 1 |})
        end
      else if (t =? "wiki_versions")%string then
        match wiki_versions d with
        | Some _ => Some (d, no_rows)
        | None => Some (set_wiki_versions d [], {| rowsRead := 0; rowsWritten := 1 |})
        end
      else None
  | ALTER_TABLE_ADD _ _ => None
  end.

Definition WikiMigrations : list SchemaMigration :=
  [ {| idMonotonicInc := 1;
       description := "initial version";
       sql := [ CREATE_TABLE_IF_NOT_EXISTS "wiki_info";
                CREATE_TABLE_IF_NOT_EXISTS "wiki_versions" ] |} ].

(** The actor: its durable storage, and the fields of the object.
    [sqlFaultIn] is the environment's part: the number of row-writing
    statements the storage still accepts before it starts to fail
    ([None]: it never fails). *)
Record State := {
  storage : Store DB;
  sqlFaultIn : option nat;
  fileSrc : option bytes;
  wikiId : string;
  tenantId : string
}.

Definition fresh_store : Store DB :=
  {| db := empty_db; lastMigrationId := None; applied := [] |}.

Definition set_storage (s : State) (st : Store DB) : State :=
  {| storage := st; sqlFaultIn := sqlFaultIn s; fileSrc := fileSrc s;
     wikiId := wikiId s; tenantId := tenantId s |}.

Definition set_sqlFaultIn (s : State) (b : option nat) : State :=
  {| storage := storage s; sqlFaultIn := b; fileSrc := fileSrc s;
     wikiId := wikiId s; tenantId := tenantId s |}.

Definition set_fileSrc (f : option bytes) (s : State) : State :=
  {| storage := storage s; sqlFaultIn := sqlFaultIn s; fileSrc := f;
     wikiId := wikiId s; tenantId := tenantId s |}.

Definition set_identity (tenantId_ wikiId_ : string) (s : State) : State :=
  {| storage := storage s; sqlFaultIn := sqlFaultIn s; fileSrc := fileSrc s;
     wikiId := wikiId_; tenantId := tenantId_ |}.

(** The constructor: the identity is read back from [wiki_info] when the
    table exists; [.one()] throws unless there is exactly one row. *)
Definition constructor (st : Store DB) (faults : option nat) : outcome State :=
  match wiki_info (db st) with
  | None =>
      Ok {| storage := st; sqlFaultIn := faults; fileSrc := None;
            wikiId := ""; tenantId := "" |}
  | Some [] => Throw "Expected exactly one result from SQL query, but got no results."
  | Some (r :: _) =>
      Ok {| storage := st; sqlFaultIn := faults; fileSrc := None;
            wikiId := i_wikiId r; tenantId := i_tenantId r |}
  end.

(** [await this._migrations.runAll()] *)
Definition migrate : M State RowsData :=
  fun s =>
    let (r, st') := runAll exec WikiMigrations (storage s) in
    (r, set_storage s st').

(** A row-writing [sql.exec]: it fails once the storage has stopped
    accepting writes, and when the statement itself fails. *)
Definition sql_write (f : DB -> outcome DB) : M State unit :=
  fun s =>
    match sqlFaultIn s with
    | Some O => (Throw "storage fault", s)
    | budget =>
        match f (db (storage s)) with
        | Ok d' =>
            (Ok tt, set_sqlFaultIn (set_storage s (set_db (storage s) d'))
                      (option_map pred budget))
        | Throw e => (Throw e, s)
        end
    end.

(** [this.storage.transactionSync(body)]: what [body] wrote is rolled
    back when it throws. *)
Definition transactionSync {A} (body : M State A) : M State A :=
  fun s =>
    match body s with
    | (Ok a, s') => (Ok a, s')
    | (Throw e, s') => (Throw e, set_storage s' (storage s))
    end.

Definition same_key (a b : VersionRow) : bool :=
  (v_wikiId a =? v_wikiId b)%string && (v_tsMs a =? v_tsMs b)
    && (v_chunkIdx a =? v_chunkIdx b).

Definition insert_or_replace (r : VersionRow) (rows : list VersionRow)
  : list VersionRow :=
  filter (fun x => negb (same_key r x)) rows ++ [r].

(** [INSERT OR REPLACE INTO wiki_versions ...] *)
Definition insert_version (r : VersionRow) : M State unit :=
  sql_write (fun d =>
    match wiki_versions d with
    | None => Throw "no such table: wiki_versions"
    | Some rows => Ok (set_wiki_versions d (insert_or_replace r rows))
    end).

(** [INSERT OR REPLACE INTO wiki_info ...], PRIMARY KEY wikiId. *)
Definition insert_info (r : InfoRow) : M State unit :=
  sql_write (fun d =>
    match wiki_info d with
    | None => Throw "no such table: wiki_info"
    | Some rows =>
        Ok (set_wiki_info d
              (filter (fun x => negb (i_wikiId x =? i_wikiId r)%string) rows ++ [r]))
    end).

(** A SELECT on [wiki_versions] sees the rows of the table. *)
Definition select_versions : M State (list VersionRow) :=
  fun s =>
    match wiki_versions (db (storage s)) with
    | None => (Throw "no such table: wiki_versions", s)
    | Some rows => (Ok rows, s)
    end.

(** The loop [for (let i = 0; i < chunks.length; i++)] over the chunks of
    a buffer, in [create] and in the buffered branch of [upsert]: row
    [i + 1] carries [chunks[i]] and [chunks.length]. *)
Fixpoint write_chunks (wikiId_ : string) (tsMs total : Z)
    (chunks : list bytes) (i : Z) : M State unit :=
  match chunks with
  | [] => ret tt
  | c :: rest =>
      (insert_version {| v_wikiId := wikiId_; v_tsMs := tsMs; v_src := c;
                         v_chunkIdx := i + 1; v_chunksTotal := Some total |} ;;;
       write_chunks wikiId_ tsMs total rest (i + 1))%exec
  end.

Record CreateResult := {
  c_ok : bool;
  c_redirectUrl : string;
  c_createdAtMs : Z
}.

(** [create]; [assets] is what fetching the template yields ([None] when
    the fetch throws) and [now] what [Date.now()] returns. *)
Definition create (assets : option bytes) (now : Z)
    (tenantId_ wikiId_ name wikiType : string) : M State CreateResult :=
  (src <- (if (wikiType =? "tw5")%string then
             match assets with
             | Some b => (modify (set_fileSrc (Some b)) ;;; ret b)
             | None => throw "fetch failed"
             end
           else throw ("invalid wikiType specified: " ++ wikiType)%string) ;;
   let chunks := chunkify src CHUNK_SIZE_MAX in
   let tsMs := now in
   migrate ;;;
   transactionSync
     (insert_info {| i_wikiId := wikiId_; i_tenantId := tenantId_;
                     i_name := name; i_wikiType := wikiType |} ;;;
      write_chunks wikiId_ tsMs (Z.of_nat (length chunks)) chunks 0) ;;;
   modify (set_identity tenantId_ wikiId_) ;;;
   ret {| c_ok := true;
          c_redirectUrl := ("/w/" ++ wikiId_ ++ "/" ++ name)%string;
          c_createdAtMs := tsMs |})%exec.

(** The test of [upsert]'s first branch:
    [contentLength && contentLength < BYTE_SIZE_ATONCE_THRESHOLD];
    an absent hint and the number 0 are both falsy. *)
Definition buffered (contentLength : option Z) : bool :=
  match contentLength with
  | Some n => negb (n =? 0) && (n <? BYTE_SIZE_ATONCE_THRESHOLD)
  | None => false
  end.

(** The [while (true)] loop of the streaming branch. Each iteration takes
    the next read from [reads]; the empty list is the read that reports
    [done]. The result is [chunkIdx] as the loop leaves it. *)
Fixpoint stream_loop (wikiId_ : string) (tsMs : Z) (reads : ReadableStream)
    (bufferArrays : list bytes) (bufferArraysTotal chunkIdx : Z)
  : M State Z :=
  match reads with
  | value :: rest =>
      let bufferArrays := bufferArrays ++ [value] in
      let bufferArraysTotal := bufferArraysTotal + byteLength value in
      if bufferArraysTotal <? CHUNK_SIZE_MAX then
        stream_loop wikiId_ tsMs rest bufferArrays bufferArraysTotal chunkIdx
      else
        let chunk := mergeArrayBuffers bufferArrays in
        let chunkIdx := chunkIdx + 1 in
        (insert_version {| v_wikiId := wikiId_; v_tsMs := tsMs; v_src := chunk;
                           v_chunkIdx := chunkIdx; v_chunksTotal := None |} ;;;
         stream_loop wikiId_ tsMs rest [] 0 chunkIdx)%exec
  | [] =>
      let chunk := mergeArrayBuffers bufferArrays in
      let chunkIdx := chunkIdx + 1 in
      (insert_version {| v_wikiId := wikiId_; v_tsMs := tsMs; v_src := chunk;
                         v_chunkIdx := chunkIdx; v_chunksTotal := None |} ;;;
       ret chunkIdx)%exec
  end.

(** [WHERE wikiId = ? AND chunkIdx = chunksTotal]; a NULL [chunksTotal]
    never compares equal. *)
Definition is_complete (wikiId_ : string) (r : VersionRow) : bool :=
  (v_wikiId r =? wikiId_)%string
    && match v_chunksTotal r with
       | Some t => v_chunkIdx r =? t
       | None => false
       end.

Definition ts_desc (a b : Z) : bool := b <=? a.

(** [SELECT DISTINCT tsMs FROM wiki_versions WHERE wikiId = ? AND
    chunkIdx = chunksTotal ORDER BY tsMs DESC LIMIT ?] *)
Definition select_complete_tss (wikiId_ : string) (limit : Z)
    (rows : list VersionRow) : list Z :=
  firstn (Z.to_nat limit)
    (isort ts_desc
       (nodup Z.eq_dec (map v_tsMs (filter (is_complete wikiId_) rows)))).

(** [DELETE FROM wiki_versions WHERE wikiId = ? AND tsMs < ?] *)
Definition delete_older (wikiId_ : string) (cutoff : Z)
    (rows : list VersionRow) : list VersionRow :=
  filter (fun r => negb ((v_wikiId r =? wikiId_)%string && (v_tsMs r <? cutoff)))
    rows.

(** The body of the retention transaction of [upsert]. *)
Definition retain (wikiId_ : string) : M State unit :=
  (rows <- select_versions ;;
   let tss := select_complete_tss wikiId_ RETAINED_VERSIONS_NUM rows in
   if Z.of_nat (length tss) <? RETAINED_VERSIONS_NUM then ret tt
   else
     sql_write (fun d =>
       match wiki_versions d with
       | None => Throw "no such table: wiki_versions"
       | Some rows' =>
           Ok (set_wiki_versions d (delete_older wikiId_ (last tss 0) rows'))
       end))%exec.

Record UpsertResult := { u_ok : bool }.

(** [upsert]; [now] is what [Date.now()] returns. The [catch] clause logs
    and throws the error again. *)
Definition upsert (now : Z) (wikiId_ : string) (bytesStream : ReadableStream)
    (contentLength : option Z) : M State UpsertResult :=
  (migrate ;;;
   let tsMs := now in
   modify (set_fileSrc None) ;;;
   (if buffered contentLength then
      (* [await new Response(bytesStream).bytes()] *)
      let bytes_ := concat bytesStream in
      let chunks := chunkify bytes_ CHUNK_SIZE_MAX in
      transactionSync
        (write_chunks wikiId_ tsMs (Z.of_nat (length chunks)) chunks 0) ;;;
      modify (set_fileSrc (Some bytes_))
    else
      chunkIdx <- stream_loop wikiId_ tsMs bytesStream [] 0 0 ;;
      let chunkIdx := chunkIdx + 1 in
      insert_version {| v_wikiId := wikiId_; v_tsMs := tsMs; v_src := [];
                        v_chunkIdx := chunkIdx;
                        v_chunksTotal := Some chunkIdx |}) ;;;
   transactionSync (retain wikiId_) ;;;
   ret {| u_ok := true |})%exec.

(** The [start] callback of the stream of [_makeStreamResponse] on a
    cursor: it enqueues the chunks until [cancelled] is seen. *)
Fixpoint start_loop (cancelled : bool) (chunksCursor : list bytes)
  : list bytes :=
  match chunksCursor with
  | [] => []
  | chunk :: rest =>
      if cancelled then [] else chunk :: start_loop cancelled rest
  end.

(** [_makeStreamResponse]: [inl] for a [Uint8Array], [inr] for a cursor.
    [cancelled] is false when [start] runs, and [start] runs to its end
    before [cancel] can be called. *)
Definition makeStreamResponse (chunksCursor : bytes + list bytes) : Response :=
  let cancelled := false in
  {| status := 200;
     contentType := Some "text/html"%string;
     body := Chunks match chunksCursor with
                    | inl arr => [arr]
                    | inr cursor => start_loop cancelled cursor
                    end |}.

Definition tsMs_desc (a b : VersionRow) : bool := ts_desc (v_tsMs a) (v_tsMs b).
Definition chunkIdx_asc (a b : VersionRow) : bool := v_chunkIdx a <=? v_chunkIdx b.

(** [SELECT tsMs, chunksTotal FROM wiki_versions WHERE wikiId = ? AND
    chunkIdx = chunksTotal ORDER BY tsMs DESC LIMIT 1] *)
Definition select_chunksInfo (wikiId_ : string) (rows : list VersionRow)
  : list VersionRow :=
  firstn 1 (isort tsMs_desc (filter (is_complete wikiId_) rows)).

(** [SELECT src FROM wiki_versions WHERE wikiId = ? AND tsMs = ?
    ORDER BY chunkIdx ASC] *)
Definition select_chunks (wikiId_ : string) (tsMs : Z)
    (rows : list VersionRow) : list bytes :=
  map v_src
    (isort chunkIdx_asc
       (filter (fun r => (v_wikiId r =? wikiId_)%string && (v_tsMs r =? tsMs))
          rows)).

(** [chunksInfo.chunksTotal] as a number in a product. *)
Definition chunksTotal_of (r : VersionRow) : Z :=
  match v_chunksTotal r with
  | Some t => t
  | None => 0
  end.

Definition bad_request : Response :=
  {| status := 400;
     contentType := Some "text/plain;charset=UTF-8"%string;
     body := Text "_|_" |}.

Definition getFileSrc (wikiId_ : string) : M State Response :=
  fun s =>
    if (wikiId s =? "")%string || negb (wikiId s =? wikiId_)%string then
      (Ok bad_request, s)
    else
      match fileSrc s with
      | Some cached => (Ok (makeStreamResponse (inl cached)), s)
      | None =>
          (migrate ;;;
           rows <- select_versions ;;
           match select_chunksInfo wikiId_ rows with
           | [] => throw "Expected exactly one result from SQL query, but got no results."
           | chunksInfo :: _ =>
               let chunksCursor := select_chunks wikiId_ (v_tsMs chunksInfo) rows in
               if chunksTotal_of chunksInfo * CHUNK_SIZE_MAX
                    <? BYTE_SIZE_ATONCE_THRESHOLD then
                 let merged := mergeArrayBuffers chunksCursor in
                 modify (set_fileSrc (Some merged)) ;;;
                 ret (makeStreamResponse (inl merged))
               else
                 ret (makeStreamResponse (inr chunksCursor))
           end)%exec s
      end.

(** [deleteAll]: the object's fields are reset and the storage is wiped,
    the migration state with it. *)
Definition deleteAll : M State unit :=
  fun s =>
    (Ok tt,
     {| storage := fresh_store; sqlFaultIn := sqlFaultIn s; fileSrc := None;
        wikiId := ""; tenantId := "" |}).

End WikiDO.

(** ** src/durable-objects.ts: TenantDO *)

Module TenantDO.
Import Migrations.

(** Rows of [tenant_info], PRIMARY KEY tenantId. *)
Record TenantInfoRow := {
  ti_tenantId : string;
  ti_dataJson : string
}.

(** Rows of [wikis], PRIMARY KEY wikiId; [w_createdAtMs] is [None] for
    SQL NULL. *)
Record WikiRow := {
  w_wikiId : string;
  w_tenantId : string;
  w_name : string;
  w_wikiType : string;
  w_createdAtMs : option Z
}.

(** [wikis_createdAtMs] tells whether [wikis] has its fifth column. *)
Record DB := {
  tenant_info : option (list TenantInfoRow);
  wikis : option (list WikiRow);
  wikis_createdAtMs : bool
}.

Definition empty_db : DB :=
  {| tenant_info := None; wikis := None; wikis_createdAtMs := false |}.

Definition set_tenant_info (d : DB) (t : list TenantInfoRow) : DB :=
  {| tenant_info := Some t; wikis := wikis d;
     wikis_createdAtMs := wikis_createdAtMs d |}.

Definition set_wikis (d : DB) (t : list WikiRow) : DB :=
  {| tenant_info := tenant_info d; wikis := Some t;
     wikis_createdAtMs := wikis_createdAtMs d |}.

(** The statements of [TenantMigrations] on this store. Adding a column
    fails when the table is missing or already has the column. *)
Definition exec (stmt : Ddl) (d : DB) : option (DB * RowsData) :=
  match stmt with
  | CREATE_TABLE_IF_NOT_EXISTS t =>
      if (t =? "tenant_info")%string then
        match tenant_info d with
        | Some _ => Some (d, no_rows)
        | None => Some (set_tenant_info d [], {| rowsRead := 0; rowsWritten := 1 |})
        end
      else if (t =? "wikis")%string then
        match wikis d with
        | Some _ => Some (d, no_rows)
        | None => Some (set_wikis d [], {| rowsRead := 0; rowsWritten := 1 |})
        end
      else None
  | ALTER_TABLE_ADD t c =>
      if (t =? "wikis")%string && (c =? "createdAtMs")%string then
        match wikis d with
        | None => None
        | Some _ =>
            if wikis_createdAtMs d then None
            else Some ({| tenant_info := tenant_info d; wikis := wikis d;
                          wikis_createdAtMs := true |},
                       {| rowsRead := 0; rowsWritten := 1 |})
        end
      else None
  end.

Definition TenantMigrations : list SchemaMigration :=
  [ {| idMonotonicInc := 1;
       description := "initial version";
       sql := [ CREATE_TABLE_IF_NOT_EXISTS "tenant_info";
                CREATE_TABLE_IF_NOT_EXISTS "wikis" ] |};
    {| idMonotonicInc := 2;
       description := "add timestamp column to wikis";
       sql := [ ALTER_TABLE_ADD "wikis" "createdAtMs" ] |} ].

Record State := {
  storage : Store DB;
  tenantId : string
}.

Definition fresh_store : Store DB :=
  {| db := empty_db; lastMigrationId := None; applied := [] |}.

Definition set_storage (s : State) (st : Store DB) : State :=
  {| storage := st; tenantId := tenantId s |}.

Definition set_tenantId (t : string) (s : State) : State :=
  {| storage := storage s; tenantId := t |}.

(** The constructor: the claimed tenant id is read back from
    [tenant_info] when the table exists. *)
Definition constructor (st : Store DB) : outcome State :=
  match tenant_info (db st) with
  | None => Ok {| storage := st; tenantId := "" |}
  | Some [] => Throw "Expected exactly one result from SQL query, but got no results."
  | Some (r :: _) => Ok {| storage := st; tenantId := ti_tenantId r |}
  end.

Definition migrate : M State RowsData :=
  fun s =>
    let (r, st') := runAll exec TenantMigrations (storage s) in
    (r, set_storage s st').

Definition sql_write (f : DB -> outcome DB) : M State unit :=
  fun s =>
    match f (db (storage s)) with
    | Ok d' => (Ok tt, set_storage s (set_db (storage s) d'))
    | Throw e => (Throw e, s)
    end.

(** [INSERT INTO tenant_info VALUES (?, ?) ON CONFLICT DO NOTHING] *)
Definition insert_tenant_info (r : TenantInfoRow) : M State unit :=
  sql_write (fun d =>
    match tenant_info d with
    | None => Throw "no such table: tenant_info"
    | Some rows =>
        if existsb (fun x => (ti_tenantId x =? ti_tenantId r)%string) rows
        then Ok d
        else Ok (set_tenant_info d (rows ++ [r]))
    end).

(** [INSERT OR REPLACE INTO wikis VALUES (?, ?, ?, ?, ?)] *)
Definition insert_wiki (r : WikiRow) : M State unit :=
  sql_write (fun d =>
    match wikis d with
    | None => Throw "no such table: wikis"
    | Some rows =>
        if wikis_createdAtMs d then
          Ok (set_wikis d
                (filter (fun x => negb (w_wikiId x =? w_wikiId r)%string) rows
                   ++ [r]))
        else Throw "table wikis has 4 columns but 5 values were supplied"
    end).

(** [DELETE FROM wikis WHERE wikiId = ? AND tenantId = ?] *)
Definition delete_wiki_row (wikiId_ tenantId_ : string) : M State unit :=
  sql_write (fun d =>
    match wikis d with
    | None => Throw "no such table: wikis"
    | Some rows =>
        Ok (set_wikis d
              (filter (fun x => negb ((w_wikiId x =? wikiId_)%string
                                        && (w_tenantId x =? tenantId_)%string))
                 rows))
    end).

(** [_initTables] *)
Definition initTables (tenantId_ : string) : M State string :=
  (migrate ;;;
   s <- get ;;
   if negb (tenantId s =? "")%string then
     if negb (tenantId s =? tenantId_)%string then
       throw ("wrong tenant ID [" ++ tenantId_ ++ "] on the wrong Tenant ["
                ++ tenantId s ++ "]")%string
     else ret (tenantId s)
   else
     insert_tenant_info {| ti_tenantId := tenantId_; ti_dataJson := "{}" |} ;;;
     modify (set_tenantId tenantId_) ;;;
     ret tenantId_)%exec.

Record ApiWiki := {
  a_tenantId : string;
  a_wikiId : string;
  a_name : string;
  a_wikiUrl : string;
  a_wikiType : string;
  a_createdAtMs : Z
}.

(** [list]; [Number(null)] is 0. *)
Definition list_ (encodeURIComponent : string -> string)
  : M State (list ApiWiki) :=
  fun s =>
    if (tenantId s =? "")%string then (Ok [], s)
    else
      match wikis (db (storage s)) with
      | None => (Throw "no such table: wikis", s)
      | Some rows =>
          (Ok (map (fun row =>
                      {| a_tenantId := w_tenantId row;
                         a_wikiId := w_wikiId row;
                         a_name := w_name row;
                         a_wikiUrl := ("/w/" ++ encodeURIComponent (w_wikiId row)
                                         ++ "/" ++ encodeURIComponent (w_name row))%string;
                         a_wikiType := w_wikiType row;
                         a_createdAtMs := match w_createdAtMs row with
                                          | Some t => t
                                          | None => 0
                                          end |})
                   rows), s)
      end.

(** The tenant actor together with the wiki actor that
    [env.WIKI.get(doId)] resolves to. *)
Definition World : Type := State * WikiDO.State.

Definition on_tenant {A} (m : M State A) : M World A :=
  fun w => let (r, t') := m (fst w) in (r, (t', snd w)).

Definition on_wiki {A} (m : M WikiDO.State A) : M World A :=
  fun w => let (r, k') := m (snd w) in (r, (fst w, k')).

Record CreateWikiResult := {
  cw_ok : bool;
  cw_redirectUrl : string
}.

(** [createWiki]; [doId] is what [env.WIKI.newUniqueId().toString()]
    yields, [assets] and [now] are handed to the wiki actor's [create]. *)
Definition createWiki (doId : string) (assets : option bytes) (now : Z)
    (tenantId_ name wikiType : string) : M World CreateWikiResult :=
  (on_tenant (initTables tenantId_) ;;;
   let wikiId_ := doId in
   r <- on_wiki (WikiDO.create assets now tenantId_ wikiId_ name wikiType) ;;
   on_tenant (insert_wiki {| w_wikiId := wikiId_; w_tenantId := tenantId_;
                             w_name := name; w_wikiType := wikiType;
                             w_createdAtMs := Some (WikiDO.c_createdAtMs r) |}) ;;;
   ret {| cw_ok := true; cw_redirectUrl := WikiDO.c_redirectUrl r |})%exec.

(** [deleteWiki], for a well-formed [wikiId]. *)
Definition deleteWiki (encodeURIComponent : string -> string)
    (tenantId_ wikiId_ : string) : M World (list ApiWiki) :=
  (on_tenant (initTables tenantId_) ;;;
   on_wiki WikiDO.deleteAll ;;;
   on_tenant (delete_wiki_row wikiId_ tenantId_) ;;;
   on_tenant (list_ encodeURIComponent))%exec.

End TenantDO.

(** ** Notions used to state the properties of the wiki actor *)

Module WikiView.
Import Shared Migrations WikiDO.

(** The rows of [wiki_versions]; none while the table is missing. *)
Definition versions (s : State) : list VersionRow :=
  match wiki_versions (db (storage s)) with
  | Some rows => rows
  | None => []
  end.

Definition has_versions (s : State) (rows : list VersionRow) : Prop :=
  wiki_versions (db (storage s)) = Some rows.

(** The actor's state with [rows] as its [wiki_versions] table and a
    storage that does not fail. *)
Definition with_versions (s : State) (rows : list VersionRow) : State :=
  {| storage := {| db := {| wiki_info := wiki_info (db (storage s));
                            wiki_versions := Some rows |};
                   lastMigrationId := lastMigrationId (storage s);
                   applied := applied (storage s) |};
     sqlFaultIn := None;
     fileSrc := fileSrc s;
     wikiId := wikiId s;
     tenantId := tenantId s |}.

(** Rows for [chunks], numbered from [i + 1], all with the same
    [chunksTotal] column. *)
Fixpoint numbered (wikiId_ : string) (tsMs : Z) (total : option Z)
    (chunks : list bytes) (i : Z) : list VersionRow :=
  match chunks with
  | [] => []
  | c :: rest =>
      {| v_wikiId := wikiId_; v_tsMs := tsMs; v_src := c;
         v_chunkIdx := i + 1; v_chunksTotal := total |}
        :: numbered wikiId_ tsMs total rest (i + 1)
  end.

(** The payloads that [stream_loop] flushes, the one at [done] included. *)
Fixpoint flushed (reads : ReadableStream) (bufferArrays : list bytes)
    (bufferArraysTotal : Z) : list bytes :=
  match reads with
  | value :: rest =>
      if bufferArraysTotal + byteLength value <? CHUNK_SIZE_MAX then
        flushed rest (bufferArrays ++ [value]) (bufferArraysTotal + byteLength value)
      else
        mergeArrayBuffers (bufferArrays ++ [value]) :: flushed rest [] 0
  | [] => [mergeArrayBuffers bufferArrays]
  end.

Definition terminal (wikiId_ : string) (tsMs chunkIdx : Z) : VersionRow :=
  {| v_wikiId := wikiId_; v_tsMs := tsMs; v_src := [];
     v_chunkIdx := chunkIdx; v_chunksTotal := Some chunkIdx |}.

(** The rows of the streaming branch of [upsert], in the order written. *)
Definition streamed (wikiId_ : string) (tsMs : Z) (reads : ReadableStream)
  : list VersionRow :=
  let data := flushed reads [] 0 in
  numbered wikiId_ tsMs None data 0
    ++ [terminal wikiId_ tsMs (Z.of_nat (length data) + 1)].

(** The rows of the buffered branch of [upsert], in the order written. *)
Definition batched (wikiId_ : string) (tsMs : Z) (bytes_ : bytes)
  : list VersionRow :=
  let chunks := chunkify bytes_ CHUNK_SIZE_MAX in
  numbered wikiId_ tsMs (Some (Z.of_nat (length chunks))) chunks 0.

Definition ingested (now : Z) (wikiId_ : string) (bytesStream : ReadableStream)
    (contentLength : option Z) : list VersionRow :=
  if buffered contentLength then batched wikiId_ now (concat bytesStream)
  else streamed wikiId_ now bytesStream.

Definition insert_all (new rows : list VersionRow) : list VersionRow :=
  fold_left (fun acc r => insert_or_replace r acc) new rows.

(** The distinct timestamps of the complete versions of a document,
    most recent first. *)
Definition complete_tss (wikiId_ : string) (rows : list VersionRow) : list Z :=
  isort ts_desc (nodup Z.eq_dec (map v_tsMs (filter (is_complete wikiId_) rows))).

(** What the retention transaction leaves of the table. *)
Definition retained (wikiId_ : string) (rows : list VersionRow)
  : list VersionRow :=
  let tss := select_complete_tss wikiId_ RETAINED_VERSIONS_NUM rows in
  if Z.of_nat (length tss) <? RETAINED_VERSIONS_NUM then rows
  else delete_older wikiId_ (last tss 0) rows.

(** The read path of [getFileSrc] on a table: the response and the cache
    it leaves. *)
Definition read_path (wikiId_ : string) (rows : list VersionRow)
  : outcome (Response * option bytes) :=
  match select_chunksInfo wikiId_ rows with
  | [] => Throw "Expected exactly one result from SQL query, but got no results."
  | chunksInfo :: _ =>
      let chunksCursor := select_chunks wikiId_ (v_tsMs chunksInfo) rows in
      if chunksTotal_of chunksInfo * CHUNK_SIZE_MAX <? BYTE_SIZE_ATONCE_THRESHOLD
      then Ok (makeStreamResponse (inl (mergeArrayBuffers chunksCursor)),
               Some (mergeArrayBuffers chunksCursor))
      else Ok (makeStreamResponse (inr chunksCursor), None)
  end.

(** The rows that the read path serves for the version [tsMs]. *)
Definition served (wikiId_ : string) (tsMs : Z) (rows : list VersionRow)
  : list VersionRow :=
  isort chunkIdx_asc
    (filter (fun r => (v_wikiId r =? wikiId_)%string && (v_tsMs r =? tsMs)) rows).

(** The bytes of a response's stream, put together. *)
Definition body_bytes (r : Response) : option bytes :=
  match body r with
  | Chunks l => Some (concat l)
  | Text _ => None
  end.

(** [now] is later than every version of the document in the table. *)
Definition later_than_all (wikiId_ : string) (now : Z)
    (rows : list VersionRow) : Prop :=
  forall r, In r rows -> v_wikiId r = wikiId_ -> v_tsMs r < now.

(** What [reader.readAtLeast(sz, new Uint8Array(sz))] delivers: [sz]
    bytes at every read but the last, which delivers what is left. *)
Fixpoint readAtLeast_reads (sz : Z) (reads : ReadableStream) : bool :=
  match reads with
  | [] => true
  | [value] => (0 <? byteLength value) && (byteLength value <=? sz)
  | value :: rest => (byteLength value =? sz) && readAtLeast_reads sz rest
  end.

(** One [upsert] call of a sequence: its clock, body and hint. *)
Record Ingest := {
  at_ms : Z;
  payload : ReadableStream;
  hint : option Z
}.

Fixpoint upsert_all (wikiId_ : string) (l : list Ingest) : M State unit :=
  match l with
  | [] => ret tt
  | i :: rest =>
      (upsert (at_ms i) wikiId_ (payload i) (hint i) ;;;
       upsert_all wikiId_ rest)%exec
  end.

(** The body takes the buffered branch only when it has bytes. *)
Definition writes_a_version (i : Ingest) : Prop :=
  buffered (hint i) = true -> concat (payload i) <> [].

(** A wiki actor nothing has been called on, and the document that
    [create] makes of it. *)
Definition new_actor : State :=
  {| storage := fresh_store; sqlFaultIn := None; fileSrc := None;
     wikiId := ""; tenantId := "" |}.

Definition notes : State :=
  snd (create (Some [x3c; x68; x31; x3e]) 1000 "T1" "W1" "Notes" "tw5" new_actor).

(** Fifteen saves of [notes], one a millisecond, on both branches. *)
Definition fifteen : list Ingest :=
  map (fun k => {| at_ms := 2000 + Z.of_nat k;
                   payload := [[x61]; [x62]];
                   hint := if Nat.even k then None else Some 2 |})
      (seq 1 15).

(** A buffer of [CHUNK_SIZE_MAX] zero bytes. *)
Definition full_chunk : bytes := repeat x00 (Z.to_nat CHUNK_SIZE_MAX).

(** Strictly descending lists of timestamps. *)
Definition descending (l : list Z) : Prop :=
  StronglySorted (fun a b => b < a) l.

(** A sequence of ingests at increasing timestamps. *)
Definition increasing (l : list Ingest) : Prop :=
  StronglySorted (fun a b => at_ms a < at_ms b) l.

(** [m] keeps [J]: whatever the outcome, the state it leaves satisfies
    [J] when the state it starts from does. *)
Definition keeps (J : State -> Prop) {A} (m : M State A) : Prop :=
  forall s, J s -> J (snd (m s)).

(** The table is [rows], the one an ingest at [now] found, followed by rows
    of the ingest; the actor's [wikiId] is [bound], as it was. *)
Definition appended (wikiId_ : string) (now : Z) (rows : list VersionRow)
    (bound : string) (s : State) : Prop :=
  wikiId s = bound
  /\ exists extra,
       has_versions s (rows ++ extra)
       /\ forall r, In r extra -> v_wikiId r = wikiId_ /\ v_tsMs r = now.

(** Every row of the table was in [rows0] or satisfies [ok]. *)
Definition old_or_ok (ok : VersionRow -> Prop) (rows0 : list VersionRow)
    (s : State) : Prop :=
  forall r, In r (versions s) -> In r rows0 \/ ok r.

(** At the head of the streaming loop: the running total is the size of
    what is buffered; either nothing is buffered and the reads to come
    are those of [readAtLeast], or the stream is at its end and less
    than a chunk is buffered. *)
Definition loop_head (reads : ReadableStream) (bufs : list bytes) (total : Z)
  : Prop :=
  total = byteLength (concat bufs)
  /\ ((bufs = [] /\ readAtLeast_reads CHUNK_SIZE_MAX reads = true)
      \/ (reads = [] /\ total < CHUNK_SIZE_MAX)).

Definition small (r : VersionRow) : Prop := byteLength (v_src r) <= CHUNK_SIZE_MAX.

(** A row of the streaming branch: no [chunksTotal], or the terminal row
    with no bytes. *)
Definition streamed_row (r : VersionRow) : Prop :=
  small r
  /\ (v_chunksTotal r = None
      \/ (v_src r = [] /\ v_chunksTotal r = Some (v_chunkIdx r))).

(** [later_than_all] as a test. *)
Definition later_than_allb (wikiId_ : string) (now : Z)
    (rows : list VersionRow) : bool :=
  forallb (fun r => negb (v_wikiId r =? wikiId_)%string || (v_tsMs r <? now)) rows.

End WikiView.

(** ** Notions used to state the properties of the tenant actor *)

Module TenantView.
Import Migrations TenantDO.

(** The rows of [tenant_info] and of [wikis]; none while the table is
    missing. *)
Definition tenant_rows (s : State) : list TenantInfoRow :=
  match tenant_info (db (storage s)) with
  | Some rows => rows
  | None => []
  end.

Definition wiki_rows (s : State) : list WikiRow :=
  match wikis (db (storage s)) with
  | Some rows => rows
  | None => []
  end.

(** The actor holds [tid], in its field and in the first row of
    [tenant_info]. *)
Definition claimed (tid : string) (s : State) : Prop :=
  tenantId s = tid
  /\ exists data rest,
       tenant_info (db (storage s))
       = Some ({| ti_tenantId := tid; ti_dataJson := data |} :: rest).

(** The object is made anew over its storage. *)
Definition wake (s : State) : State :=
  match constructor (storage s) with
  | Ok s' => s'
  | Throw _ => s
  end.

(** The calls a tenant actor receives; a call that reaches a wiki actor
    comes with the state of that actor. *)
Inductive Call : Type :=
| CreateWiki (wiki : WikiDO.State) (doId : string) (assets : option bytes)
    (now : Z) (tenantId_ name wikiType : string)
| DeleteWiki (wiki : WikiDO.State) (tenantId_ wikiId_ : string)
| List
| Wake.

Definition run_call (encodeURIComponent : string -> string) (c : Call)
    (s : State) : State :=
  match c with
  | CreateWiki wiki doId assets now tenantId_ name wikiType =>
      fst (snd (createWiki doId assets now tenantId_ name wikiType (s, wiki)))
  | DeleteWiki wiki tenantId_ wikiId_ =>
      fst (snd (deleteWiki encodeURIComponent tenantId_ wikiId_ (s, wiki)))
  | List => snd (list_ encodeURIComponent s)
  | Wake => wake s
  end.

Definition run_calls (encodeURIComponent : string -> string)
    (calls : list Call) (s : State) : State :=
  fold_left (fun s c => run_call encodeURIComponent c s) calls s.

(** A tenant actor nothing has been called on. *)
Definition new_tenant : State := {| storage := fresh_store; tenantId := "" |}.

End TenantView.

(** ** Notions used to state the properties of the migration runner *)

Module MigrationView.
Import Migrations.

(** Strictly ascending ids. *)
Definition ascending (l : list SchemaMigration) : Prop :=
  StronglySorted (fun a b => idMonotonicInc a < idMonotonicInc b) l.

(** The high-water mark after the migrations [done]. *)
Definition mark_after (done : list SchemaMigration) (mark : option Z)
  : option Z :=
  last (map (fun m => Some (idMonotonicInc m)) done) mark.

End MigrationView.

(** ** src/shared.ts: apiKeyAuth *)

Module Auth.

(** A JavaScript string is held as a [string], one character a code unit;
    the value of a request header has no code unit above 255. The white
    space and line terminators that [trim] removes are, below 256, the
    code units 9 to 13, 32 and 160. *)
Definition is_space (c : ascii) : bool :=
  let n := N_of_ascii c in
  ((9 <=? n) && (n <=? 13) || (n =? 32) || (n =? 160))%N.

Fixpoint trimStart (s : string) : string :=
  match s with
  | EmptyString => EmptyString
  | String c r => if is_space c then trimStart r else s
  end.

Fixpoint trimEnd (s : string) : string :=
  match s with
  | EmptyString => EmptyString
  | String c r =>
      match trimEnd r with
      | EmptyString => if is_space c then EmptyString else String c EmptyString
      | r' => String c r'
      end
  end.

(** [s.trim()] *)
Definition trim (s : string) : string := trimEnd (trimStart s).

(** [s.split(sep)] for a separator of one character: the empty string
    splits into one empty piece. *)
Fixpoint split (sep : ascii) (s : string) : list string :=
  match s with
  | EmptyString => [EmptyString]
  | String c r =>
      if Ascii.eqb c sep then EmptyString :: split sep r
      else
        match split sep r with
        | piece :: pieces => String c piece :: pieces
        | [] => [String c EmptyString]
        end
  end.

(** [Boolean(s)] for a string. *)
Definition truthy (s : string) : bool :=
  match s with
  | EmptyString => false
  | String _ _ => true
  end.

(** [arr.indexOf(x)] on an array of strings; -1 when [x] is not in it. *)
Fixpoint indexOf_from (x : string) (arr : list string) (i : Z) : Z :=
  match arr with
  | [] => -1
  | y :: rest => if (y =? x)%string then i else indexOf_from x rest (i + 1)
  end.

Definition indexOf (arr : list string) (x : string) : Z := indexOf_from x arr 0.

(** [s.lastIndexOf(c)] for one character; [found] is the last index seen
    before index [i]. *)
Fixpoint lastIndexOf_from (c : ascii) (s : string) (i found : Z) : Z :=
  match s with
  | EmptyString => found
  | String x r => lastIndexOf_from c r (i + 1) (if Ascii.eqb x c then i else found)
  end.

Definition lastIndexOf (s : string) (c : ascii) : Z := lastIndexOf_from c s 0 (-1).

Fixpoint drop (n : nat) (s : string) : string :=
  match n, s with
  | O, _ => s
  | S n', String _ r => drop n' r
  | S _, EmptyString => EmptyString
  end.

Fixpoint take (n : nat) (s : string) : string :=
  match n, s with
  | O, _ => EmptyString
  | S n', String c r => String c (take n' r)
  | S _, EmptyString => EmptyString
  end.

(** [s.slice(start, end)]: an index below zero counts from the end, and
    both are clamped to the string. *)
Definition slice (s : string) (start end_ : Z) : string :=
  let len := Z.of_nat (String.length s) in
  let rel := fun i => if i <? 0 then Z.max (len + i) 0 else Z.min i len in
  let from := rel start in
  let to := rel end_ in
  take (Z.to_nat (to - from)) (drop (Z.to_nat from) s).

(** The two variables of the environment that [apiKeyAuth] reads; the
    list of keys is [None] when the variable is not set. *)
Record CfEnv := {
  VAR_API_AUTH_ENABLED : bool;
  VAR_API_AUTH_ADMIN_KEYS_CSV : option string
}.

(** What [apiKeyAuth] throws: an [HTTPException], or the [TypeError] of
    a method call on [undefined]. *)
Inductive Thrown : Type :=
| HTTPException (status : Z) (message : string)
| TypeError (message : string).

Inductive result (A : Type) : Type :=
| Returns (a : A)
| Raises (e : Thrown).
Arguments Returns {A} a.
Arguments Raises {A} e.

(** ['tf_key_'.length] *)
Definition prefix_length : Z := Z.of_nat (String.length "tf_key_").

(** [env.VAR_API_AUTH_ADMIN_KEYS_CSV?.split(',').map((k) => k?.trim())
    .filter(Boolean)] *)
Definition csvKeys (env : CfEnv) : option (list string) :=
  option_map (fun csv => filter truthy (map trim (split "," csv)))
    (VAR_API_AUTH_ADMIN_KEYS_CSV env).

(** [apiKeyAuth]; [header] is what
    [request.headers.get('Tiddlyflare-Api-Key')] yields, [None] for
    [null]. *)
Definition apiKeyAuth (env : CfEnv) (header : option string) : result string :=
  if negb (VAR_API_AUTH_ENABLED env) then Returns "tiddlyflare-public"%string
  else
    match option_map trim header with
    | None | Some EmptyString =>
        Raises (HTTPException 403 "Tiddlyflare-Api-Key header missing")
    | Some authKey =>
        match csvKeys env with
        | None =>
            Raises (TypeError "Cannot read properties of undefined (reading 'indexOf')")
        | Some keys =>
            if indexOf keys authKey <? 0 then
              Raises (HTTPException 403 "Tiddlyflare-Api-Key is invalid")
            else
              let lastSepIdx := lastIndexOf authKey "_" in
              if lastSepIdx <? 0 then
                Raises (HTTPException 403 "Tiddlyflare-Api-Key is malformed")
              else
                let tenantId := trim (slice authKey prefix_length lastSepIdx) in
                if negb (truthy tenantId) then
                  Raises (HTTPException 403 "Tiddlyflare-Api-Key is malformed")
                else Returns tenantId
        end
    end.

End Auth.

(** ** src/durable-objects.ts: the other methods of WikiDO *)

Module WikiActor.
Import Migrations WikiDO.

(** [findTenantId]: [.one()] throws unless the query has one row. *)
Definition findTenantId : M State string :=
  fun s =>
    match wiki_info (db (storage s)) with
    | None => (Throw "no such table: wiki_info", s)
    | Some [] =>
        (Throw "Expected exactly one result from SQL query, but got no results.", s)
    | Some (r :: _) => (Ok (i_tenantId r), s)
    end.

(** The platform drops the object and makes it anew over its storage:
    the constructor runs again, and the fields start from what it reads. *)
Definition wake (s : State) : outcome State :=
  constructor (storage s) (sqlFaultIn s).

End WikiActor.

(** ** src/durable-objects.ts: the route functions *)

Module Routes.

(** The two actor namespaces of [CfEnv]: [TENANT name] is the tenant
    actor that [env.TENANT.idFromName(name)] addresses, [WIKI id] the wiki
    actor of the id [id]. *)
Record CfEnv := {
  TENANT : string -> TenantDO.State;
  WIKI : string -> WikiDO.State
}.

Definition update {A} (f : string -> A) (k : string) (v : A) : string -> A :=
  fun x => if (x =? k)%string then v else f x.

(** A call on the stub of one tenant actor, of one wiki actor, and a call
    on a tenant actor that reaches the wiki actor [wikiId_]. *)
Definition on_tenant_stub {A} (name : string) (m : M TenantDO.State A)
  : M CfEnv A :=
  fun env =>
    let (r, t) := m (TENANT env name) in
    (r, {| TENANT := update (TENANT env) name t; WIKI := WIKI env |}).

Definition on_wiki_stub {A} (wikiId_ : string) (m : M WikiDO.State A)
  : M CfEnv A :=
  fun env =>
    let (r, k) := m (WIKI env wikiId_) in
    (r, {| TENANT := TENANT env; WIKI := update (WIKI env) wikiId_ k |}).

Definition on_stubs {A} (name wikiId_ : string) (m : M TenantDO.World A)
  : M CfEnv A :=
  fun env =>
    let (r, w) := m (TENANT env name, WIKI env wikiId_) in
    (r, {| TENANT := update (TENANT env) name (fst w);
           WIKI := update (WIKI env) wikiId_ (snd w) |}).

(** [routeWikiRequest], for a well-formed [wikiId]. *)
Definition routeWikiRequest (wikiId_ _name : string) : M CfEnv Response :=
  on_wiki_stub wikiId_ (WikiDO.getFileSrc wikiId_).

(** [routeCreateWiki]; [doId], [assets] and [now] are those of
    [TenantDO.createWiki]. *)
Definition routeCreateWiki (doId : string) (assets : option bytes) (now : Z)
    (tenantId_ name wikiType : string) : M CfEnv string :=
  (resp <- on_stubs tenantId_ doId
             (TenantDO.createWiki doId assets now tenantId_ name wikiType) ;;
   ret (TenantDO.cw_redirectUrl resp))%exec.

Definition routeListWikis (encodeURIComponent : string -> string)
    (tenantId_ : string) : M CfEnv (list TenantDO.ApiWiki) :=
  on_tenant_stub tenantId_ (TenantDO.list_ encodeURIComponent).


Definition routeDeleteWiki (encodeURIComponent : string -> string)
    (tenantId_ wikiId_ : string) : M CfEnv (list TenantDO.ApiWiki) :=
  on_stubs tenantId_ wikiId_
    (TenantDO.deleteWiki encodeURIComponent tenantId_ wikiId_).

End Routes.

(** ** src/index.ts: the handler of [POST /-_-/v1/wikis.Create] *)

Module Api.
Import Auth.

(** The JSON body of the request; a field is [None] when it is absent. *)
Record Params := {
  name : option string;
  wikiType : option string
}.

(** What a response carries: [{ error: new Error(..) }], which
    serialises to an object with an empty [error] field; the
    [redirectUrl] of a created wiki; or a text. *)
Inductive Payload : Type :=
| ErrorObject
| RedirectUrl (url : string)
| Message (text : string).

Record Reply := {
  code : Z;
  payload : Payload
}.

(** [app.onError] for what the middleware threw, and for an [Error]. *)
Definition onError (e : Thrown) : Reply :=
  match e with
  | HTTPException st msg => {| code := st; payload := Message msg |}
  | TypeError msg =>
      {| code := 500;
         payload := Message ("failed to handle the request: " ++ msg) |}
  end.

Definition onError_Error (msg : string) : Reply :=
  {| code := 500; payload := Message ("failed to handle the request: " ++ msg) |}.

(** [Response.json({ error: new Error(..) }, { status: 400 })] *)
Definition invalid : Reply := {| code := 400; payload := ErrorObject |}.

(** The middleware of [/-_-/v1/*] followed by the handler of
    [wikis.Create], under [app.onError]; [header] is the value of the
    [Tiddlyflare-Api-Key] header, [params] the parsed body. An absent
    [wikiType] differs from ['tw5'], and [!params.name?.trim()] holds of an
    absent name. *)
Definition wikisCreate (auth : Auth.CfEnv) (header : option string)
    (params : Params) (doId : string) (assets : option bytes) (now : Z)
    (env : Routes.CfEnv) : Reply * Routes.CfEnv :=
  match apiKeyAuth auth header with
  | Raises e => (onError e, env)
  | Returns tenantId =>
      match wikiType params with
      | None => (invalid, env)
      | Some wikiType_ =>
          if negb (wikiType_ =? "tw5")%string then (invalid, env)
          else
            match name params with
            | None => (invalid, env)
            | Some name_ =>
                if negb (truthy (trim name_)) then (invalid, env)
                else
                  match Routes.routeCreateWiki doId assets now tenantId
                          name_ wikiType_ env with
                  | (Ok url, env') =>
                      ({| code := 201; payload := RedirectUrl url |}, env')
                  | (Throw msg, env') => (onError_Error msg, env')
                  end
            end
      end
  end.

End Api.

(** ** Notions used to state the properties of [apiKeyAuth] *)

Module AuthView.
Import Auth.

(** The character [c] occurs in [s]. *)
Fixpoint occurs (c : ascii) (s : string) : bool :=
  match s with
  | EmptyString => false
  | String x r => Ascii.eqb x c || occurs c r
  end.

(** The keys that [env] configures: the pieces of the list between
    commas, trimmed, the empty ones left out. *)
Definition configured (env : CfEnv) (key : string) : Prop :=
  exists csv,
    VAR_API_AUTH_ADMIN_KEYS_CSV env = Some csv
    /\ In key (map trim (split "," csv)) /\ key <> EmptyString.

(** An environment with authentication on and the list [csv]. *)
Definition keys_env (csv : string) : CfEnv :=
  {| VAR_API_AUTH_ENABLED := true; VAR_API_AUTH_ADMIN_KEYS_CSV := Some csv |}.

End AuthView.

(** ** Notions used to state further properties of the wiki actor *)

Module WikiActorView.
Import Shared Migrations WikiDO WikiView.

(** The rows of [wiki_info]; none while the table is missing. *)
Definition info_rows (s : State) : list InfoRow :=
  match wiki_info (db (storage s)) with
  | Some rows => rows
  | None => []
  end.

(** The store after [WikiMigrations] with [info] and [rows] in its two
    tables. *)
Definition store_of (info : list InfoRow) (rows : list VersionRow) : Store DB :=
  {| db := {| wiki_info := Some info; wiki_versions := Some rows |};
     lastMigrationId := Some 1;
     applied := [1] |}.

(** The wiki actor after [create] on an empty storage. *)
Definition created (b : bytes) (now : Z) (tid wid name : string) : State :=
  {| storage := store_of [ {| i_wikiId := wid; i_tenantId := tid;
                              i_name := name; i_wikiType := "tw5" |} ]
                         (batched wid now b);
     sqlFaultIn := None; fileSrc := Some b;
     wikiId := wid; tenantId := tid |}.

(** The rows of the version [tsMs] of a document. *)
Definition version_rows (wikiId_ : string) (tsMs : Z) (rows : list VersionRow)
  : list VersionRow :=
  filter (fun r => (v_wikiId r =? wikiId_)%string && (v_tsMs r =? tsMs)) rows.

(** The actor is bound to the wiki [wid] of the tenant [tid], with [info]
    as the rows of [wiki_info]. *)
Definition bound_to (info : list InfoRow) (wid tid : string) (s : State) : Prop :=
  wiki_info (db (storage s)) = Some info /\ wikiId s = wid /\ tenantId s = tid.

End WikiActorView.

(** ** Notions used to state further properties of the tenant actor and
    of the route functions *)

Module RouteView.
Import Migrations TenantDO TenantView.

(** The tenant actor holds [tid] and its two migrations are done. *)
Definition ready (tid : string) (s : State) : Prop :=
  tenantId s = tid
  /\ lastMigrationId (storage s) = Some 2
  /\ wikis_createdAtMs (db (storage s)) = true
  /\ (exists data rest,
        tenant_info (db (storage s))
        = Some ({| ti_tenantId := tid; ti_dataJson := data |} :: rest))
  /\ exists rows, wikis (db (storage s)) = Some rows.

(** A tenant actor as the route functions find it under the name [tid]:
    never called, or holding [tid]. *)
Definition usable (tid : string) (s : State) : Prop :=
  (storage s = fresh_store /\ tenantId s = ""%string) \/ ready tid s.


(** The row that [createWiki] files. *)
Definition filed (doId tid name wikiType : string) (now : Z) : WikiRow :=
  {| w_wikiId := doId; w_tenantId := tid; w_name := name;
     w_wikiType := wikiType; w_createdAtMs := Some now |}.

(** The entry of [list] for a row of [wikis] with a timestamp. *)
Definition listed (encodeURIComponent : string -> string) (row : WikiRow)
  : ApiWiki :=
  {| a_tenantId := w_tenantId row;
     a_wikiId := w_wikiId row;
     a_name := w_name row;
     a_wikiUrl := ("/w/" ++ encodeURIComponent (w_wikiId row)
                     ++ "/" ++ encodeURIComponent (w_name row))%string;
     a_wikiType := w_wikiType row;
     a_createdAtMs := match w_createdAtMs row with
                      | Some t => t
                      | None => 0
                      end |}.

(** The rows of [wikis] but the one of [wikiId_] under [tenantId_]. *)
Definition without (wikiId_ tenantId_ : string) (rows : list WikiRow)
  : list WikiRow :=
  filter (fun x => negb ((w_wikiId x =? wikiId_)%string
                           && (w_tenantId x =? tenantId_)%string)) rows.

(** A namespace in which no actor has been called. *)
Definition new_env : Routes.CfEnv :=
  {| Routes.TENANT := fun _ => new_tenant;
     Routes.WIKI := fun _ => WikiView.new_actor |}.

(** The namespace after tenant [T1] has created the wiki [W1]. *)
Definition one_wiki : Routes.CfEnv :=
  snd (Routes.routeCreateWiki "W1" (Some [x3c; x68; x31; x3e]) 1000
         "T1" "Notes" "tw5" new_env).

End RouteView.

(** * Properties *)

(** ** Sequencing *)

Lemma bind_ok {St A B} (m : M St A) (k : A -> M St B) s a s' :
  m s = (Ok a, s') -> bind m k s = k a s'.
Proof. unfold bind; now intros ->. Qed.

Lemma bind_throw {St A B} (m : M St A) (k : A -> M St B) s e s' :
  m s = (Throw e, s') -> bind m k s = (Throw e, s').
Proof. unfold bind; now intros ->. Qed.

(** ** Lists and sorting *)

Lemma firstn_add_skipn {A} (a b : nat) (l : list A) :
  firstn (a + b) l = firstn a l ++ firstn b (skipn a l).
Proof.
  revert l; induction a as [|a IH]; intros l; simpl; [reflexivity|].
  destruct l as [|x l]; simpl.
  - now rewrite firstn_nil.
  - now rewrite IH.
Qed.

Lemma firstn_in {A} (n : nat) (l : list A) (x : A) :
  In x (firstn n l) -> In x l.
Proof.
  intros H. rewrite <- (firstn_skipn n l). apply in_or_app. now left.
Qed.

Lemma last_in {A} (l : list A) (d : A) : l <> [] -> In (last l d) l.
Proof.
  induction l as [|a l IH]; intros H; [congruence|].
  destruct l as [|b l]; [now left|].
  right. apply IH. discriminate.
Qed.

Lemma last_default {A} (l : list A) (d d' : A) : l <> [] -> last l d = last l d'.
Proof.
  induction l as [|a l IH]; intros H; [congruence|].
  destruct l as [|b l]; [reflexivity|].
  apply IH. discriminate.
Qed.

Lemma last_cons {A} (x : A) (l : list A) (d : A) : last (x :: l) d = last l x.
Proof.
  destruct l as [|b l]; [reflexivity|].
  change (last (x :: b :: l) d) with (last (b :: l) d).
  apply last_default. discriminate.
Qed.

Lemma last_map_default {A B} (f : A -> B) (l : list A) (d : A) :
  last (map f l) (f d) = f (last l d).
Proof.
  induction l as [|a l IH]; [reflexivity|].
  destruct l as [|b l]; [reflexivity|]. exact IH.
Qed.

Section IsortFacts.
Variable A : Type.
Variable before : A -> A -> bool.

Lemma insert_sorted_in (a x : A) (l : list A) :
  In x (insert_sorted before a l) <-> x = a \/ In x l.
Proof.
  induction l as [|b l IH]; simpl.
  - intuition.
  - destruct (before a b); simpl; [intuition|].
    rewrite IH; intuition.
Qed.

Lemma isort_in (x : A) (l : list A) : In x (isort before l) <-> In x l.
Proof.
  induction l as [|a l IH]; simpl; [tauto|].
  rewrite insert_sorted_in, IH; intuition.
Qed.

Lemma insert_sorted_length (a : A) (l : list A) :
  length (insert_sorted before a l) = S (length l).
Proof.
  induction l as [|b l IH]; simpl; [reflexivity|].
  destruct (before a b); simpl; congruence.
Qed.

Lemma isort_length (l : list A) : length (isort before l) = length l.
Proof.
  induction l as [|a l IH]; simpl; [reflexivity|].
  now rewrite insert_sorted_length, IH.
Qed.

(** A list that is already in order is left as it is. *)
Lemma isort_sorted_id (l : list A) :
  StronglySorted (fun a b => before a b = true) l -> isort before l = l.
Proof.
  induction 1 as [|a l Hs IH Hall]; simpl; [reflexivity|].
  rewrite IH. destruct l as [|b l]; simpl; [reflexivity|].
  inversion Hall as [|? ? Hab _]; subst. now rewrite Hab.
Qed.

(** An element that nothing may stay in front of ends up first. *)
Lemma insert_sorted_under (a x : A) (l : list A) :
  before a x = false ->
  insert_sorted before a (x :: l) = x :: insert_sorted before a l.
Proof. intros H; simpl; now rewrite H. Qed.

Lemma isort_app_top (l : list A) (x : A) :
  (forall a, In a l -> before a x = false) ->
  isort before (l ++ [x]) = x :: isort before l.
Proof.
  induction l as [|a l IH]; intros H; simpl; [reflexivity|].
  rewrite IH by (intros; apply H; now right).
  apply insert_sorted_under, H; now left.
Qed.

Lemma insert_sorted_perm (a : A) (l : list A) :
  Permutation (insert_sorted before a l) (a :: l).
Proof.
  induction l as [|b l IH]; simpl; [reflexivity|].
  destruct (before a b); [reflexivity|].
  rewrite IH. apply perm_swap.
Qed.

Lemma isort_perm (l : list A) : Permutation (isort before l) l.
Proof.
  induction l as [|a l IH]; simpl; [reflexivity|].
  rewrite insert_sorted_perm. now constructor.
Qed.

(** With a total and transitive order the result is in order. *)
Hypothesis before_total : forall a b, before a b = false -> before b a = true.
Hypothesis before_trans :
  forall a b c, before a b = true -> before b c = true -> before a c = true.

Lemma insert_sorted_sorted (a : A) (l : list A) :
  StronglySorted (fun x y => before x y = true) l ->
  StronglySorted (fun x y => before x y = true) (insert_sorted before a l).
Proof.
  induction 1 as [|b l Hs IH Hall]; simpl.
  - repeat constructor.
  - destruct (before a b) eqn:Hab.
    + constructor; [now constructor|].
      constructor; [assumption|].
      eapply Forall_impl; [|exact Hall]. intros c Hbc. eauto.
    + constructor; [assumption|].
      apply Forall_forall. intros x Hx.
      apply insert_sorted_in in Hx as [->|Hx]; [auto|].
      rewrite Forall_forall in Hall. auto.
Qed.

Lemma isort_sorted (l : list A) :
  StronglySorted (fun x y => before x y = true) (isort before l).
Proof.
  induction l as [|a l IH]; simpl; [constructor|].
  now apply insert_sorted_sorted.
Qed.

(** The first row of the result may stay in front of every row. *)
Lemma isort_head (l : list A) (t : A) (rest : list A) :
  isort before l = t :: rest ->
  In t l /\ forall x, In x l -> x = t \/ before t x = true.
Proof.
  intros H. pose proof (isort_sorted l) as Hs. rewrite H in Hs.
  split.
  - apply isort_in. rewrite H. now left.
  - intros x Hx. apply isort_in in Hx. rewrite H in Hx.
    destruct Hx as [->|Hx]; [now left|right].
    inversion Hs as [|? ? _ Hall]; subst.
    rewrite Forall_forall in Hall. auto.
Qed.
End IsortFacts.

(** A list in strict order is determined by its elements. *)
Lemma sorted_unique {A} (R : A -> A -> Prop) (l1 l2 : list A) :
  (forall a b, R a b -> R b a -> False) ->
  StronglySorted R l1 -> StronglySorted R l2 ->
  (forall x, In x l1 <-> In x l2) -> l1 = l2.
Proof.
  intros Hasym. revert l2. induction l1 as [|a l1 IH]; intros l2 H1 H2 Heq.
  - destruct l2 as [|b l2]; [reflexivity|].
    exfalso. apply (Heq b). now left.
  - destruct l2 as [|b l2].
    { exfalso. apply (Heq a). now left. }
    inversion H1 as [|? ? Hs1 Hall1]; subst.
    inversion H2 as [|? ? Hs2 Hall2]; subst.
    rewrite Forall_forall in Hall1, Hall2.
    assert (a = b).
    { destruct (proj1 (Heq a) (or_introl eq_refl)) as [Hb|Hb]; [auto|].
      destruct (proj2 (Heq b) (or_introl eq_refl)) as [Ha|Ha]; [auto|].
      exfalso. exact (Hasym a b (Hall1 b Ha) (Hall2 a Hb)). }
    subst b. f_equal. apply IH; auto.
    intros x. split; intros Hx.
    + destruct (proj1 (Heq x) (or_intror Hx)) as [<-|]; [|assumption].
      exfalso. exact (Hasym a a (Hall1 a Hx) (Hall1 a Hx)).
    + destruct (proj2 (Heq x) (or_intror Hx)) as [<-|]; [|assumption].
      exfalso. exact (Hasym a a (Hall2 a Hx) (Hall2 a Hx)).
Qed.

(** ** [src/shared.ts] *)

Module SharedFacts.
Import Shared.

Lemma byteLength_app (a b : bytes) :
  byteLength (a ++ b) = byteLength a + byteLength b.
Proof. unfold byteLength; rewrite length_app; lia. Qed.

Lemma byteLength_nonneg (a : bytes) : 0 <= byteLength a.
Proof. unfold byteLength; lia. Qed.

Lemma fold_total (chunks : list bytes) (acc : Z) :
  fold_left (fun acc b => acc + byteLength b) chunks acc
  = acc + byteLength (concat chunks).
Proof.
  revert acc; induction chunks as [|c rest IH]; intros acc; simpl.
  - unfold byteLength; simpl; lia.
  - rewrite IH, byteLength_app; lia.
Qed.

Lemma set_at_end (pre tail c : bytes) :
  (length c <= length tail)%nat ->
  set_at (pre ++ tail) c (byteLength pre) = (pre ++ c) ++ skipn (length c) tail.
Proof.
  intros Hlen. unfold set_at, byteLength.
  rewrite Nat2Z.id, firstn_app, firstn_all, Nat.sub_diag, firstn_O, app_nil_r.
  rewrite skipn_app, (skipn_all2 pre) by lia.
  replace (length pre + length c - length pre)%nat with (length c) by lia.
  now rewrite <- app_assoc.
Qed.

Lemma merge_loop_fills (chunks : list bytes) :
  forall pre tail,
    length tail = length (concat chunks) ->
    merge_loop chunks (pre ++ tail) (byteLength pre) = pre ++ concat chunks.
Proof.
  induction chunks as [|c rest IH]; intros pre tail Hlen; simpl in *.
  - destruct tail; [reflexivity | discriminate].
  - rewrite length_app in Hlen.
    rewrite set_at_end by lia.
    rewrite <- byteLength_app, IH.
    + now rewrite <- app_assoc.
    + rewrite length_skipn; lia.
Qed.

(** [mergeArrayBuffers] is concatenation. *)
Lemma mergeArrayBuffers_concat (chunks : list bytes) :
  mergeArrayBuffers chunks = concat chunks.
Proof.
  unfold mergeArrayBuffers.
  rewrite fold_total. simpl.
  apply (merge_loop_fills chunks [] (repeat x00 (Z.to_nat (byteLength (concat chunks))))).
  rewrite repeat_length. unfold byteLength. now rewrite Nat2Z.id.
Qed.

Lemma subarray_app (bb : bytes) (r e f : Z) :
  0 <= r <= e -> e <= f ->
  subarray bb r e ++ subarray bb e f = subarray bb r f.
Proof.
  intros Hre Hef. unfold subarray.
  replace (Z.to_nat (f - r)) with (Z.to_nat (e - r) + Z.to_nat (f - e))%nat by lia.
  rewrite firstn_add_skipn, skipn_skipn.
  now replace (Z.to_nat (e - r) + Z.to_nat r)%nat with (Z.to_nat e) by lia.
Qed.

Lemma subarray_all (bb : bytes) : subarray bb 0 (byteLength bb) = bb.
Proof.
  unfold subarray, byteLength. simpl.
  rewrite Z.sub_0_r, Nat2Z.id. apply firstn_all.
Qed.

Lemma subarray_length (bb : bytes) (r e : Z) :
  byteLength (subarray bb r e) <= Z.max 0 (e - r).
Proof.
  unfold subarray, byteLength. rewrite length_firstn. lia.
Qed.

Lemma chunkify_loop_concat (bb : bytes) (chunkSz : Z) (n : nat) :
  0 < chunkSz ->
  forall r, 0 <= r <= byteLength bb ->
    concat (chunkify_loop bb chunkSz n r)
    = subarray bb r (Z.min (r + Z.of_nat n * chunkSz) (byteLength bb)).
Proof.
  intros Hsz. induction n as [|n IH]; intros r Hr.
  - simpl. unfold subarray.
    replace (Z.min (r + 0) (byteLength bb) - r) with 0 by lia. reflexivity.
  - cbn [chunkify_loop concat].
    rewrite IH by lia.
    rewrite subarray_app by lia.
    f_equal. nia.
Qed.

Lemma ceil_div_covers (a b : Z) : 0 < b -> a <= ceil_div a b * b.
Proof.
  intros Hb. unfold ceil_div.
  pose proof (Z.div_mod (a + b - 1) b ltac:(lia)).
  pose proof (Z.mod_pos_bound (a + b - 1) b Hb). nia.
Qed.

Lemma ceil_div_nonneg (a b : Z) : 0 < b -> 0 <= a -> 0 <= ceil_div a b.
Proof. intros; unfold ceil_div; apply Z.div_pos; lia. Qed.

(** The chunks of a buffer put together again are the buffer. *)
Lemma chunkify_concat (bb : bytes) (chunkSz : Z) :
  0 < chunkSz -> concat (chunkify bb chunkSz) = bb.
Proof.
  intros Hsz. unfold chunkify.
  rewrite chunkify_loop_concat by (pose proof (byteLength_nonneg bb); lia).
  pose proof (byteLength_nonneg bb) as Hn.
  pose proof (ceil_div_covers (byteLength bb) Hsz).
  pose proof (ceil_div_nonneg Hsz Hn).
  rewrite Z2Nat.id by assumption.
  rewrite Z.min_r by lia. apply subarray_all.
Qed.

Lemma chunkify_loop_length (bb : bytes) (chunkSz : Z) (n : nat) (r : Z) :
  length (chunkify_loop bb chunkSz n r) = n.
Proof. revert r; induction n; intros; simpl; congruence. Qed.

Lemma chunkify_length (bb : bytes) (chunkSz : Z) :
  0 < chunkSz ->
  Z.of_nat (length (chunkify bb chunkSz)) = ceil_div (byteLength bb) chunkSz.
Proof.
  intros Hsz. unfold chunkify. rewrite chunkify_loop_length.
  apply Z2Nat.id, ceil_div_nonneg; [assumption | apply byteLength_nonneg].
Qed.

Lemma chunkify_loop_bounded (bb : bytes) (chunkSz : Z) (n : nat) :
  0 <= chunkSz ->
  forall r, Forall (fun c => byteLength c <= chunkSz) (chunkify_loop bb chunkSz n r).
Proof.
  intros Hsz. induction n as [|n IH]; intros r; simpl; constructor.
  - pose proof (subarray_length bb r (Z.min (r + chunkSz) (byteLength bb))). lia.
  - apply IH.
Qed.

Lemma chunkify_bounded (bb : bytes) (chunkSz : Z) :
  0 <= chunkSz -> Forall (fun c => byteLength c <= chunkSz) (chunkify bb chunkSz).
Proof. intros; now apply chunkify_loop_bounded. Qed.

(** A buffer that is not empty has a chunk. *)
Lemma chunkify_nonempty (bb : bytes) (chunkSz : Z) :
  0 < chunkSz -> bb <> [] -> chunkify bb chunkSz <> [].
Proof.
  intros Hsz Hbb Hnil.
  apply Hbb. rewrite <- (chunkify_concat bb Hsz), Hnil. reflexivity.
Qed.

End SharedFacts.

(** ** The wiki actor on a storage that does not fail *)

Module WikiFacts.
Import Shared Migrations WikiDO WikiView SharedFacts.

Lemma with_versions_eta (s : State) (rows : list VersionRow) :
  has_versions s rows -> sqlFaultIn s = None -> s = with_versions s rows.
Proof.
  destruct s as [[[wi wv] mark log] budget cache wid tid].
  unfold has_versions, with_versions; simpl.
  intros -> ->. reflexivity.
Qed.

(** The migrations of the wiki actor always succeed; they leave the
    rows of an existing table and the fields of the object alone. *)
Lemma migrate_ok (s : State) :
  exists r s1,
    migrate s = (Ok r, s1)
    /\ (forall rows, has_versions s rows -> has_versions s1 rows)
    /\ versions s1 = versions s
    /\ wiki_info (db (storage s1)) =
         match wiki_info (db (storage s)) with
         | Some t => Some t
         | None => wiki_info (db (storage s1))
         end
    /\ sqlFaultIn s1 = sqlFaultIn s /\ fileSrc s1 = fileSrc s
    /\ wikiId s1 = wikiId s /\ tenantId s1 = tenantId s.
Proof.
  destruct s as [[[wi wv] mark log] budget cache wid tid].
  unfold migrate, runAll, pending, has_versions, versions; simpl.
  destruct mark as [h|]; simpl.
  - destruct (h <? 1); simpl.
    + destruct wi, wv; simpl; do 2 eexists; (split; [reflexivity|]);
        simpl; repeat split; intros; try discriminate; auto.
    + do 2 eexists; (split; [reflexivity|]); simpl; repeat split; auto.
      now destruct wi.
  - destruct wi, wv; simpl; do 2 eexists; (split; [reflexivity|]);
      simpl; repeat split; intros; try discriminate; auto.
Qed.

Lemma insert_version_healthy (r : VersionRow) (s : State) rows :
  insert_version r (with_versions s rows)
  = (Ok tt, with_versions s (insert_or_replace r rows)).
Proof. reflexivity. Qed.

Lemma insert_all_app (a b rows : list VersionRow) :
  insert_all (a ++ b) rows = insert_all b (insert_all a rows).
Proof. unfold insert_all. apply fold_left_app. Qed.

Lemma write_chunks_healthy wid ts total chunks :
  forall i s rows,
    write_chunks wid ts total chunks i (with_versions s rows)
    = (Ok tt, with_versions s (insert_all (numbered wid ts (Some total) chunks i) rows)).
Proof.
  induction chunks as [|c rest IH]; intros i s rows.
  - reflexivity.
  - cbn [write_chunks numbered]. unfold bind at 1.
    rewrite insert_version_healthy. apply IH.
Qed.

Lemma stream_loop_healthy wid ts reads :
  forall bufs total idx s rows,
    stream_loop wid ts reads bufs total idx (with_versions s rows)
    = (Ok (idx + Z.of_nat (length (flushed reads bufs total))),
       with_versions s
         (insert_all (numbered wid ts None (flushed reads bufs total) idx) rows)).
Proof.
  induction reads as [|v rest IH]; intros bufs total idx s rows.
  - cbn [stream_loop flushed numbered length]. unfold bind at 1.
    rewrite insert_version_healthy. reflexivity.
  - cbn [stream_loop flushed].
    destruct (total + byteLength v <? CHUNK_SIZE_MAX).
    + apply IH.
    + cbn [numbered length]. unfold bind at 1.
      rewrite insert_version_healthy, IH.
      f_equal. f_equal. lia.
Qed.

Lemma retain_healthy wid (s : State) rows :
  transactionSync (retain wid) (with_versions s rows)
  = (Ok tt, with_versions s (retained wid rows)).
Proof.
  unfold transactionSync, retain, retained, bind, select_versions.
  cbn [with_versions storage db wiki_versions].
  destruct (Z.of_nat (length (select_complete_tss wid RETAINED_VERSIONS_NUM rows))
              <? RETAINED_VERSIONS_NUM); reflexivity.
Qed.

Lemma buffered_branch_healthy wid ts bytes_ (s : State) rows :
  bind (transactionSync
          (write_chunks wid ts
             (Z.of_nat (length (chunkify bytes_ CHUNK_SIZE_MAX)))
             (chunkify bytes_ CHUNK_SIZE_MAX) 0))
       (fun _ => modify (set_fileSrc (Some bytes_)))
       (with_versions s rows)
  = (Ok tt, with_versions (set_fileSrc (Some bytes_) s)
              (insert_all (batched wid ts bytes_) rows)).
Proof.
  erewrite bind_ok.
  2:{ unfold transactionSync. rewrite write_chunks_healthy. reflexivity. }
  reflexivity.
Qed.

Lemma streaming_branch_healthy wid ts reads (s : State) rows :
  bind (stream_loop wid ts reads [] 0 0)
       (fun chunkIdx =>
          insert_version {| v_wikiId := wid; v_tsMs := ts; v_src := [];
                            v_chunkIdx := chunkIdx + 1;
                            v_chunksTotal := Some (chunkIdx + 1) |})
       (with_versions s rows)
  = (Ok tt, with_versions s (insert_all (streamed wid ts reads) rows)).
Proof.
  erewrite bind_ok by apply stream_loop_healthy.
  rewrite insert_version_healthy.
  unfold streamed. rewrite insert_all_app. reflexivity.
Qed.

(** [upsert] on a storage that does not fail: it returns, and leaves the
    table with the new rows inserted and the old versions pruned. *)
Lemma upsert_healthy now wid stream hint (s : State) rows :
  has_versions s rows -> sqlFaultIn s = None ->
  exists s',
    upsert now wid stream hint s = (Ok {| u_ok := true |}, s')
    /\ has_versions s' (retained wid (insert_all (ingested now wid stream hint) rows))
    /\ fileSrc s' = (if buffered hint then Some (concat stream) else None)
    /\ sqlFaultIn s' = None
    /\ wikiId s' = wikiId s /\ tenantId s' = tenantId s.
Proof.
  intros Hrows Hbudget.
  destruct (migrate_ok s) as (r & s1 & Hm & Hkeep & _ & _ & Hb & _ & Hw & Ht).
  specialize (Hkeep rows Hrows). rewrite Hbudget in Hb.
  unfold upsert, ingested.
  erewrite bind_ok by exact Hm.
  erewrite bind_ok by reflexivity.
  assert (Heta : set_fileSrc None s1 = with_versions (set_fileSrc None s1) rows)
    by (apply with_versions_eta; assumption).
  rewrite Heta. clear Heta.
  destruct (buffered hint).
  - erewrite bind_ok by apply buffered_branch_healthy.
    erewrite bind_ok by apply retain_healthy.
    eexists; split; [reflexivity|].
    unfold has_versions; simpl. repeat split; assumption.
  - erewrite bind_ok by apply streaming_branch_healthy.
    erewrite bind_ok by apply retain_healthy.
    eexists; split; [reflexivity|].
    unfold has_versions; simpl. repeat split; assumption.
Qed.

End WikiFacts.

(** ** The table after an ingest at a new timestamp *)

Module TableFacts.
Import Shared Migrations WikiDO WikiView SharedFacts WikiFacts.

Lemma filter_id {A} (f : A -> bool) (l : list A) :
  (forall x, In x l -> f x = true) -> filter f l = l.
Proof.
  induction l as [|a l IH]; intros H; simpl; [reflexivity|].
  rewrite (H a) by now left. f_equal. apply IH. intros; apply H; now right.
Qed.

Lemma filter_none {A} (f : A -> bool) (l : list A) :
  (forall x, In x l -> f x = false) -> filter f l = [].
Proof.
  induction l as [|a l IH]; intros H; simpl; [reflexivity|].
  rewrite (H a) by now left. apply IH. intros; apply H; now right.
Qed.

Lemma filter_filter_weaker {A} (p q : A -> bool) (l : list A) :
  (forall x, In x l -> p x = true -> q x = true) ->
  filter p (filter q l) = filter p l.
Proof.
  induction l as [|a l IH]; intros H; simpl; [reflexivity|].
  destruct (q a) eqn:Hq; simpl.
  - destruct (p a); [f_equal|]; apply IH; intros; apply H; auto; now right.
  - destruct (p a) eqn:Hp.
    + rewrite (H a) in Hq by (auto; now left). discriminate.
    + apply IH; intros; apply H; auto; now right.
Qed.

Lemma same_key_true (a b : VersionRow) :
  same_key a b = true ->
  v_wikiId a = v_wikiId b /\ v_tsMs a = v_tsMs b /\ v_chunkIdx a = v_chunkIdx b.
Proof.
  unfold same_key. rewrite !andb_true_iff, String.eqb_eq, !Z.eqb_eq. tauto.
Qed.

Lemma insert_new_key (r : VersionRow) (rows : list VersionRow) :
  (forall x, In x rows -> v_wikiId x = v_wikiId r -> v_tsMs x = v_tsMs r ->
             v_chunkIdx x <> v_chunkIdx r) ->
  insert_or_replace r rows = rows ++ [r].
Proof.
  intros H. unfold insert_or_replace. f_equal.
  apply filter_id. intros x Hx.
  destruct (same_key r x) eqn:Hk; [|reflexivity].
  apply same_key_true in Hk as (Hw & Ht & Hi).
  exfalso. apply (H x Hx); congruence.
Qed.

Lemma numbered_in wid ts total chunks :
  forall i r, In r (numbered wid ts total chunks i) ->
    v_wikiId r = wid /\ v_tsMs r = ts /\ v_chunksTotal r = total
    /\ i < v_chunkIdx r <= i + Z.of_nat (length chunks)
    /\ In (v_src r) chunks.
Proof.
  induction chunks as [|c rest IH]; intros i r Hin; simpl in Hin; [tauto|].
  destruct Hin as [<-|Hin]; simpl.
  - repeat split; try lia; try (now left).
  - destruct (IH _ _ Hin) as (? & ? & ? & ? & ?).
    repeat split; auto; try lia; try (now right).
Qed.

Lemma numbered_src wid ts total chunks i :
  map v_src (numbered wid ts total chunks i) = chunks.
Proof.
  revert i; induction chunks as [|c rest IH]; intros i; simpl; [reflexivity|].
  now rewrite IH.
Qed.

Lemma numbered_length wid ts total chunks i :
  length (numbered wid ts total chunks i) = length chunks.
Proof.
  revert i; induction chunks as [|c rest IH]; intros i; simpl; [reflexivity|].
  now rewrite IH.
Qed.

Lemma numbered_sorted wid ts total chunks :
  forall i, StronglySorted (fun a b => chunkIdx_asc a b = true)
              (numbered wid ts total chunks i).
Proof.
  induction chunks as [|c rest IH]; intros i; simpl; constructor.
  - apply IH.
  - apply Forall_forall. intros r Hr.
    apply numbered_in in Hr as (_ & _ & _ & Hidx & _).
    unfold chunkIdx_asc; simpl. apply Z.leb_le. lia.
Qed.

(** Rows numbered above every index the table holds for that version are
    appended one after the other. *)
Lemma insert_all_numbered wid ts total chunks :
  forall i rows,
    (forall x, In x rows -> v_wikiId x = wid -> v_tsMs x = ts -> v_chunkIdx x <= i) ->
    insert_all (numbered wid ts total chunks i) rows
    = rows ++ numbered wid ts total chunks i.
Proof.
  induction chunks as [|c rest IH]; intros i rows H; simpl.
  - now rewrite app_nil_r.
  - rewrite insert_new_key.
    2:{ simpl. intros x Hx Hw Ht. specialize (H x Hx Hw Ht). lia. }
    rewrite IH.
    + now rewrite <- app_assoc.
    + intros x Hx Hw Ht. apply in_app_or in Hx as [Hx|[<-|[]]]; simpl.
      * specialize (H x Hx Hw Ht). lia.
      * lia.
Qed.

Lemma later_no_clash wid now rows i :
  later_than_all wid now rows ->
  forall x, In x rows -> v_wikiId x = wid -> v_tsMs x = now -> v_chunkIdx x <= i.
Proof. intros H x Hx Hw Ht. specialize (H x Hx Hw). lia. Qed.

Lemma insert_all_batched wid now bytes_ rows :
  later_than_all wid now rows ->
  insert_all (batched wid now bytes_) rows = rows ++ batched wid now bytes_.
Proof. intros H. apply insert_all_numbered, later_no_clash, H. Qed.

Lemma insert_all_streamed wid now reads rows :
  later_than_all wid now rows ->
  insert_all (streamed wid now reads) rows = rows ++ streamed wid now reads.
Proof.
  intros H. unfold streamed. rewrite insert_all_app.
  rewrite insert_all_numbered by (apply later_no_clash, H).
  cbn [insert_all fold_left]. rewrite insert_new_key.
  - now rewrite <- app_assoc.
  - simpl. intros x Hx Hw Ht. apply in_app_or in Hx as [Hx|Hx].
    + specialize (H x Hx Hw). lia.
    + apply numbered_in in Hx as (_ & _ & _ & Hidx & _). lia.
Qed.

Lemma insert_all_ingested now wid stream hint rows :
  later_than_all wid now rows ->
  insert_all (ingested now wid stream hint) rows
  = rows ++ ingested now wid stream hint.
Proof.
  intros H. unfold ingested. destruct (buffered hint).
  - now apply insert_all_batched.
  - now apply insert_all_streamed.
Qed.

(** *** What the rows of one ingest look like *)

Lemma ingested_in now wid stream hint r :
  In r (ingested now wid stream hint) -> v_wikiId r = wid /\ v_tsMs r = now.
Proof.
  unfold ingested, batched, streamed. destruct (buffered hint); intros Hin.
  - apply numbered_in in Hin. tauto.
  - apply in_app_or in Hin as [Hin|[<-|[]]].
    + apply numbered_in in Hin. tauto.
    + split; reflexivity.
Qed.

Lemma flushed_concat reads :
  forall bufs total,
    concat (flushed reads bufs total) = concat bufs ++ concat reads.
Proof.
  induction reads as [|v rest IH]; intros bufs total; simpl.
  - rewrite mergeArrayBuffers_concat. now rewrite !app_nil_r.
  - destruct (total + byteLength v <? CHUNK_SIZE_MAX).
    + rewrite IH, concat_app. simpl. now rewrite app_nil_r, <- app_assoc.
    + simpl. rewrite IH, mergeArrayBuffers_concat, concat_app. simpl.
      now rewrite app_nil_r, <- app_assoc.
Qed.

(** The payloads of an ingest, in the order written, make up the body. *)
Lemma ingested_src now wid stream hint :
  concat (map v_src (ingested now wid stream hint)) = concat stream.
Proof.
  unfold ingested, batched, streamed. destruct (buffered hint).
  - rewrite numbered_src. apply chunkify_concat. reflexivity.
  - rewrite map_app, numbered_src, concat_app, flushed_concat. simpl.
    now rewrite app_nil_r.
Qed.

Lemma ingested_sorted now wid stream hint :
  StronglySorted (fun a b => chunkIdx_asc a b = true)
    (ingested now wid stream hint).
Proof.
  unfold ingested, batched, streamed. destruct (buffered hint).
  - apply numbered_sorted.
  - set (data := flushed stream [] 0).
    assert (Hgen : forall l t,
               StronglySorted (fun a b => chunkIdx_asc a b = true) l ->
               (forall r, In r l -> v_chunkIdx r <= v_chunkIdx t) ->
               StronglySorted (fun a b => chunkIdx_asc a b = true) (l ++ [t])).
    { induction l as [|a l IH]; intros t Hs Hle; simpl.
      - repeat constructor.
      - inversion Hs as [|? ? Hs' Hall]; subst. constructor.
        + apply IH; auto. intros; apply Hle; now right.
        + apply Forall_app; split; [assumption|].
          constructor; [|constructor].
          unfold chunkIdx_asc. apply Z.leb_le, Hle. now left. }
    apply Hgen; [apply numbered_sorted|].
    intros r Hr. apply numbered_in in Hr as (_ & _ & _ & Hidx & _).
    simpl. lia.
Qed.

End TableFacts.

(** ** The read path *)

Module ReadFacts.
Import Shared Migrations WikiDO WikiView SharedFacts WikiFacts TableFacts.

Lemma tsMs_desc_total (a b : VersionRow) :
  tsMs_desc a b = false -> tsMs_desc b a = true.
Proof. unfold tsMs_desc, ts_desc. rewrite Z.leb_gt, Z.leb_le. lia. Qed.

Lemma tsMs_desc_trans (a b c : VersionRow) :
  tsMs_desc a b = true -> tsMs_desc b c = true -> tsMs_desc a c = true.
Proof. unfold tsMs_desc, ts_desc. rewrite !Z.leb_le. lia. Qed.

Lemma is_complete_true wid r :
  is_complete wid r = true <->
  v_wikiId r = wid /\ v_chunksTotal r = Some (v_chunkIdx r).
Proof.
  unfold is_complete. rewrite andb_true_iff, String.eqb_eq.
  destruct (v_chunksTotal r) as [t|].
  - rewrite Z.eqb_eq. split; intros [? H]; split; auto; congruence.
  - split; intros [? H]; discriminate.
Qed.

Lemma start_loop_all (l : list bytes) : start_loop false l = l.
Proof. induction l; simpl; congruence. Qed.

(** The query for the latest complete version: no row when the document
    has no complete version, otherwise a complete row that no complete
    row is more recent than. *)
Lemma select_chunksInfo_spec wid rows :
  match select_chunksInfo wid rows with
  | [] => forall r, In r rows -> is_complete wid r = false
  | t :: rest =>
      rest = [] /\ In t rows /\ is_complete wid t = true
      /\ forall r, In r rows -> is_complete wid r = true -> v_tsMs r <= v_tsMs t
  end.
Proof.
  unfold select_chunksInfo.
  destruct (isort tsMs_desc (filter (is_complete wid) rows)) as [|t rest] eqn:Hs.
  - simpl. intros r Hr.
    destruct (is_complete wid r) eqn:Hc; [|reflexivity].
    assert (Hin : In r (isort tsMs_desc (filter (is_complete wid) rows)))
      by (apply isort_in, filter_In; auto).
    rewrite Hs in Hin. destruct Hin.
  - simpl.
    destruct (@isort_head _ tsMs_desc tsMs_desc_total tsMs_desc_trans _ _ _ Hs) as [Hin Hmax].
    apply filter_In in Hin as [Hin Hc].
    repeat split; auto.
    intros r Hr Hrc.
    destruct (Hmax r) as [->|Hle]; [apply filter_In; auto|lia|].
    unfold tsMs_desc, ts_desc in Hle. now apply Z.leb_le.
Qed.

Lemma getFileSrc_unbound wid (s : State) :
  wikiId s = ""%string \/ wikiId s <> wid ->
  getFileSrc wid s = (Ok bad_request, s).
Proof.
  intros H. unfold getFileSrc.
  destruct H as [->|H]; [reflexivity|].
  apply String.eqb_neq in H. rewrite H. simpl.
  now rewrite orb_true_r.
Qed.

Lemma getFileSrc_cached wid (s : State) cached :
  wid <> ""%string -> wikiId s = wid -> fileSrc s = Some cached ->
  getFileSrc wid s = (Ok (makeStreamResponse (inl cached)), s).
Proof.
  intros Hne Hw Hc. unfold getFileSrc. rewrite Hw, Hc.
  apply String.eqb_neq in Hne. rewrite Hne, String.eqb_refl. reflexivity.
Qed.

(** Without a cached buffer a bound actor answers from its table. *)
Lemma getFileSrc_read wid (s : State) rows :
  wid <> ""%string -> wikiId s = wid -> fileSrc s = None ->
  has_versions s rows ->
  exists s',
    getFileSrc wid s
    = (match read_path wid rows with
       | Ok (resp, _) => Ok resp
       | Throw e => Throw e
       end, s')
    /\ fileSrc s' = match read_path wid rows with
                    | Ok (_, cache) => cache
                    | Throw _ => None
                    end
    /\ has_versions s' rows /\ wikiId s' = wid.
Proof.
  intros Hne Hw Hc Hrows. unfold getFileSrc. rewrite Hw, Hc.
  apply String.eqb_neq in Hne. rewrite Hne, String.eqb_refl. simpl.
  destruct (migrate_ok s) as (r & s1 & Hm & Hkeep & _ & _ & _ & Hf & Hw1 & _).
  specialize (Hkeep rows Hrows).
  erewrite bind_ok by exact Hm.
  erewrite bind_ok by (unfold select_versions; rewrite Hkeep; reflexivity).
  unfold read_path.
  destruct (select_chunksInfo wid rows) as [|t rest].
  - eexists; split; [reflexivity|]. repeat split; auto; congruence.
  - destruct (chunksTotal_of t * CHUNK_SIZE_MAX <? BYTE_SIZE_ATONCE_THRESHOLD).
    + erewrite bind_ok by reflexivity.
      eexists; split; [reflexivity|].
      unfold has_versions in *; simpl. repeat split; auto; congruence.
    + eexists; split; [reflexivity|]. repeat split; auto; congruence.
Qed.

Lemma read_path_bytes wid rows resp cache :
  read_path wid rows = Ok (resp, cache) ->
  exists t,
    select_chunksInfo wid rows = [t]
    /\ status resp = 200
    /\ body_bytes resp = Some (concat (select_chunks wid (v_tsMs t) rows))
    /\ (cache = None \/ cache = Some (concat (select_chunks wid (v_tsMs t) rows))).
Proof.
  unfold read_path. pose proof (select_chunksInfo_spec wid rows) as Hspec.
  destruct (select_chunksInfo wid rows) as [|t rest]; [discriminate|].
  destruct Hspec as (-> & _).
  destruct (chunksTotal_of t * CHUNK_SIZE_MAX <? BYTE_SIZE_ATONCE_THRESHOLD);
    intros H; inversion H; subst; clear H; exists t; unfold body_bytes; simpl.
  - rewrite mergeArrayBuffers_concat, app_nil_r. auto.
  - rewrite start_loop_all. auto.
Qed.

End ReadFacts.

(** ** Reading back a version written at a new timestamp *)

Module RoundTripFacts.
Import Shared Migrations WikiDO WikiView SharedFacts WikiFacts TableFacts ReadFacts.

Lemma select_complete_tss_in wid limit rows t :
  In t (select_complete_tss wid limit rows) ->
  exists r, In r rows /\ is_complete wid r = true /\ v_tsMs r = t.
Proof.
  unfold select_complete_tss. intros H.
  apply firstn_in, isort_in, nodup_In, in_map_iff in H as (r & Ht & Hr).
  apply filter_In in Hr as [Hr Hc]. eauto.
Qed.

(** The retention step never touches the rows of the ingest that
    precedes it, when that ingest is the most recent one. *)
Lemma retained_fresh wid now rows new :
  later_than_all wid now rows ->
  (forall r, In r new -> v_wikiId r = wid /\ v_tsMs r = now) ->
  exists kept,
    retained wid (rows ++ new) = kept ++ new
    /\ incl kept rows
    /\ (retained wid (rows ++ new) = rows ++ new
        \/ exists cutoff, kept = delete_older wid cutoff rows).
Proof.
  intros Hlater Hnew. unfold retained.
  set (tss := select_complete_tss wid RETAINED_VERSIONS_NUM (rows ++ new)).
  destruct (Z.of_nat (length tss) <? RETAINED_VERSIONS_NUM) eqn:Hlen.
  - exists rows. split; [reflexivity|]. split; [apply incl_refl|now left].
  - exists (delete_older wid (last tss 0) rows).
    assert (Hcut : last tss 0 <= now).
    { assert (Hne : tss <> []).
      { intros E. rewrite E in Hlen. discriminate. }
      apply (last_in 0) in Hne.
      apply select_complete_tss_in in Hne as (r & Hr & Hc & Ht).
      apply is_complete_true in Hc as [Hw _].
      apply in_app_or in Hr as [Hr|Hr].
      - specialize (Hlater r Hr Hw). lia.
      - destruct (Hnew r Hr). lia. }
    assert (E : delete_older wid (last tss 0) (rows ++ new)
                = delete_older wid (last tss 0) rows ++ new).
    { unfold delete_older. rewrite filter_app. f_equal.
      apply filter_id. intros x Hx. destruct (Hnew x Hx) as [_ Ht].
      apply negb_true_iff, andb_false_iff. right. apply Z.ltb_ge. lia. }
    split; [exact E|]. split.
    + unfold delete_older. intros x Hx. now apply filter_In in Hx.
    + right. eauto.
Qed.

Lemma later_than_all_incl wid now rows kept :
  later_than_all wid now rows -> incl kept rows -> later_than_all wid now kept.
Proof. intros H Hi r Hr. apply H. now apply Hi. Qed.

(** The rows of the most recent version are selected as they were
    written. *)
Lemma select_chunks_fresh wid now kept new :
  later_than_all wid now kept ->
  (forall r, In r new -> v_wikiId r = wid /\ v_tsMs r = now) ->
  StronglySorted (fun a b => chunkIdx_asc a b = true) new ->
  select_chunks wid now (kept ++ new) = map v_src new.
Proof.
  intros Hlater Hnew Hsorted. unfold select_chunks.
  rewrite filter_app, filter_none, filter_id; simpl.
  - now rewrite isort_sorted_id.
  - intros x Hx. destruct (Hnew x Hx) as [-> ->].
    now rewrite String.eqb_refl, Z.eqb_refl.
  - intros x Hx. apply andb_false_iff.
    destruct (v_wikiId x =? wid)%string eqn:Hw; [right|now left].
    apply String.eqb_eq in Hw. specialize (Hlater x Hx Hw).
    apply Z.eqb_neq. lia.
Qed.

(** The most recent version is the one that is read, once it has its
    complete row. *)
Lemma select_chunksInfo_fresh wid now kept new t :
  later_than_all wid now kept ->
  (forall r, In r new -> v_wikiId r = wid /\ v_tsMs r = now) ->
  In t new -> is_complete wid t = true ->
  exists t', select_chunksInfo wid (kept ++ new) = [t']
             /\ In t' new /\ is_complete wid t' = true.
Proof.
  intros Hlater Hnew Hin Hc.
  pose proof (select_chunksInfo_spec wid (kept ++ new)) as Hspec.
  destruct (select_chunksInfo wid (kept ++ new)) as [|t' rest].
  - rewrite Hspec in Hc by (apply in_or_app; now right). discriminate.
  - destruct Hspec as (-> & Hin' & Hc' & Hmax).
    exists t'. repeat split; auto.
    apply in_app_or in Hin' as [Hk|Hn]; [|assumption].
    exfalso.
    assert (v_tsMs t <= v_tsMs t') by (apply Hmax; auto; apply in_or_app; now right).
    apply is_complete_true in Hc' as [Hw _].
    specialize (Hlater t' Hk Hw). destruct (Hnew t Hin). lia.
Qed.

Lemma numbered_last wid ts total chunks :
  forall i, chunks <> [] ->
    exists r, In r (numbered wid ts total chunks i)
              /\ v_chunkIdx r = i + Z.of_nat (length chunks).
Proof.
  induction chunks as [|c rest IH]; intros i Hne; [congruence|].
  destruct rest as [|c' rest'].
  - eexists; split; [now left|]. simpl. lia.
  - destruct (IH (i + 1)) as (r & Hr & Hi); [discriminate|].
    exists r. split; [now right|].
    rewrite Hi. cbn [length]. lia.
Qed.

(** An ingest leaves a complete row, unless it took the buffered branch
    with a body that has no bytes. *)
Lemma ingested_complete now wid stream hint :
  (buffered hint = true -> concat stream <> []) ->
  exists t, In t (ingested now wid stream hint) /\ is_complete wid t = true.
Proof.
  intros Hbody. unfold ingested, batched, streamed.
  destruct (buffered hint).
  - destruct (@numbered_last wid now
                (Some (Z.of_nat (length (chunkify (concat stream) CHUNK_SIZE_MAX))))
                (chunkify (concat stream) CHUNK_SIZE_MAX) 0)
      as (r & Hr & Hi).
    { apply chunkify_nonempty; [reflexivity|auto]. }
    exists r. split; [assumption|].
    apply is_complete_true.
    apply numbered_in in Hr as (Hw & _ & Ht & _).
    split; [assumption|]. rewrite Ht, Hi. reflexivity.
  - eexists. split; [apply in_or_app; right; now left|].
    apply is_complete_true. split; reflexivity.
Qed.

(** The table after an ingest at a new timestamp holds the rows of that
    ingest in the order written, after what the retention step kept. *)
Lemma upsert_table now wid stream hint rows :
  later_than_all wid now rows ->
  exists kept,
    retained wid (insert_all (ingested now wid stream hint) rows)
    = kept ++ ingested now wid stream hint
    /\ incl kept rows.
Proof.
  intros Hlater. rewrite insert_all_ingested by assumption.
  destruct (@retained_fresh wid now rows (ingested now wid stream hint) Hlater)
    as (kept & E & Hincl & _).
  - intros r. apply ingested_in.
  - eauto.
Qed.

Lemma stored_roundtrip now wid stream hint rows :
  later_than_all wid now rows ->
  concat (select_chunks wid now
            (retained wid (insert_all (ingested now wid stream hint) rows)))
  = concat stream.
Proof.
  intros Hlater.
  destruct (@upsert_table now wid stream hint rows Hlater) as (kept & -> & Hincl).
  rewrite select_chunks_fresh.
  - apply ingested_src.
  - eapply later_than_all_incl; eauto.
  - intros r. apply ingested_in.
  - apply ingested_sorted.
Qed.

Lemma read_roundtrip now wid stream hint rows :
  later_than_all wid now rows ->
  (buffered hint = true -> concat stream <> []) ->
  exists resp cache,
    read_path wid (retained wid (insert_all (ingested now wid stream hint) rows))
    = Ok (resp, cache)
    /\ status resp = 200
    /\ body_bytes resp = Some (concat stream).
Proof.
  intros Hlater Hbody.
  pose proof (@stored_roundtrip now wid stream hint rows Hlater) as Hstored.
  destruct (@upsert_table now wid stream hint rows Hlater) as (kept & E & Hincl).
  rewrite E in *.
  destruct (@ingested_complete now wid stream hint Hbody) as (t & Hin & Hc).
  destruct (@select_chunksInfo_fresh wid now kept (ingested now wid stream hint) t)
    as (t' & Hsel & Hin' & Hc'); auto.
  { eapply later_than_all_incl; eauto. }
  { intros r. apply ingested_in. }
  destruct (read_path wid (kept ++ ingested now wid stream hint))
    as [[resp' cache']|e] eqn:Hread.
  - exists resp', cache'. split; [reflexivity|].
    apply read_path_bytes in Hread as (t2 & Hsel2 & Hst & Hb & _).
    rewrite Hsel in Hsel2. inversion Hsel2; subst t2.
    destruct (@ingested_in now wid stream hint t' Hin') as [_ Hts].
    rewrite Hts in Hb. rewrite Hb, Hstored. auto.
  - unfold read_path in Hread. rewrite Hsel in Hread.
    destruct (chunksTotal_of t' * CHUNK_SIZE_MAX <? BYTE_SIZE_ATONCE_THRESHOLD);
      discriminate.
Qed.

End RoundTripFacts.

(** ** Ingests that stop early *)

Module FaultFacts.
Import Shared Migrations WikiDO WikiView SharedFacts WikiFacts TableFacts ReadFacts.

Lemma keeps_bind (J : State -> Prop) {A B} (m : M State A) (k : A -> M State B) :
  keeps J m -> (forall a, keeps J (k a)) -> keeps J (bind m k).
Proof.
  intros Hm Hk s Hs. unfold bind. specialize (Hm s Hs).
  destruct (m s) as [[a|e] s1]; simpl in *; [now apply Hk|assumption].
Qed.

Lemma keeps_ret (J : State -> Prop) {A} (a : A) : keeps J (ret a).
Proof. intros s Hs. exact Hs. Qed.

Lemma keeps_modify (J : State -> Prop) (f : State -> State) :
  (forall s, J s -> J (f s)) -> keeps J (modify f).
Proof. intros H s Hs. now apply H. Qed.

Section Appending.
Variables (wid : string) (now : Z) (rows : list VersionRow) (bound : string).
Hypothesis Hlater : later_than_all wid now rows.

Local Abbreviation appended := (WikiView.appended wid now rows bound).

Lemma appended_insert (r : VersionRow) :
  v_wikiId r = wid -> v_tsMs r = now -> keeps appended (insert_version r).
Proof.
  intros Hw Ht s (Hb & extra & Hrows & Hextra).
  unfold insert_version, sql_write. unfold has_versions in Hrows.
  assert (Hdone :
    appended (set_sqlFaultIn
                (set_storage s
                   (set_db (storage s)
                      (set_wiki_versions (db (storage s))
                         (insert_or_replace r (rows ++ extra)))))
                (option_map pred (sqlFaultIn s)))).
  { split; [exact Hb|].
    exists (filter (fun x => negb (same_key r x)) extra ++ [r]).
    unfold has_versions; simpl. split.
    - unfold insert_or_replace. rewrite filter_app, <- app_assoc.
      do 2 f_equal. apply filter_id. intros x Hx.
      destruct (same_key r x) eqn:Hk; [|reflexivity].
      apply same_key_true in Hk as (Hkw & Hkt & _).
      assert (v_tsMs x < now) by (apply Hlater; congruence). lia.
    - intros x Hx. apply in_app_or in Hx as [Hx|[<-|[]]]; [|auto].
      apply filter_In in Hx as [Hx _]. auto. }
  rewrite Hrows. destruct (sqlFaultIn s) as [[|n]|]; simpl.
  - split; [exact Hb|]. exists extra. split; assumption.
  - exact Hdone.
  - exact Hdone.
Qed.

Lemma appended_write_chunks ts total chunks :
  ts = now -> forall i, keeps appended (write_chunks wid ts total chunks i).
Proof.
  intros ->. induction chunks as [|c rest IH]; intros i; cbn [write_chunks].
  - apply keeps_ret.
  - apply keeps_bind; [now apply appended_insert|intros _; apply IH].
Qed.

Lemma appended_stream_loop reads :
  forall bufs total idx, keeps appended (stream_loop wid now reads bufs total idx).
Proof.
  induction reads as [|v rest IH]; intros bufs total idx; cbn [stream_loop].
  - apply keeps_bind; [now apply appended_insert|intros _; apply keeps_ret].
  - destruct (total + byteLength v <? CHUNK_SIZE_MAX); [apply IH|].
    apply keeps_bind; [now apply appended_insert|intros _; apply IH].
Qed.

Lemma appended_transaction {A} (body : M State A) :
  keeps appended body -> (forall s, wikiId (snd (body s)) = wikiId s) ->
  keeps appended (transactionSync body).
Proof.
  intros Hbody Hid s Hs. unfold transactionSync.
  specialize (Hbody s Hs). specialize (Hid s).
  destruct (body s) as [[a|e] s1]; simpl in *; [assumption|].
  destruct Hs as (Hb & extra & Hrows & Hextra).
  split; [simpl; congruence|]. exists extra. split; assumption.
Qed.

Lemma appended_migrate : keeps appended migrate.
Proof.
  intros s (Hb & extra & Hrows & Hextra).
  destruct (migrate_ok s) as (r & s1 & Hm & Hkeep & _ & _ & _ & _ & Hw & _).
  rewrite Hm; simpl. split; [congruence|]. exists extra. auto.
Qed.
End Appending.

Lemma sql_write_identity f (s : State) :
  wikiId (snd (sql_write f s)) = wikiId s.
Proof.
  unfold sql_write.
  destruct (sqlFaultIn s) as [[|n]|]; [reflexivity| |];
    destruct (f (db (storage s))); reflexivity.
Qed.

Lemma write_chunks_identity wid ts total chunks :
  forall i s, wikiId (snd (write_chunks wid ts total chunks i s)) = wikiId s.
Proof.
  induction chunks as [|c rest IH]; intros i s; cbn [write_chunks]; [reflexivity|].
  unfold bind, insert_version.
  pose proof (sql_write_identity
                (fun d => match wiki_versions d with
                          | Some rows0 =>
                              Ok (set_wiki_versions d
                                    (insert_or_replace
                                       {| v_wikiId := wid; v_tsMs := ts; v_src := c;
                                          v_chunkIdx := i + 1;
                                          v_chunksTotal := Some total |} rows0))
                          | None => Throw "no such table: wiki_versions"
                          end) s) as Hid.
  destruct (sql_write _ s) as [[[]|e] s1]; simpl in *; [|assumption].
  rewrite IH. assumption.
Qed.

(** When the retention transaction throws, the table is the one it found. *)
Lemma retain_throws wid (s : State) e s' :
  transactionSync (retain wid) s = (Throw e, s') ->
  storage s' = storage s /\ wikiId s' = wikiId s.
Proof.
  unfold transactionSync.
  destruct (retain wid s) as [[a|e'] s1] eqn:Hr; intros H; inversion H; subst.
  split; [reflexivity|]. simpl.
  unfold retain, bind, select_versions in Hr.
  destruct (wiki_versions (db (storage s))) as [rows|].
  - destruct (Z.of_nat (length (select_complete_tss wid RETAINED_VERSIONS_NUM rows))
                <? RETAINED_VERSIONS_NUM).
    + inversion Hr.
    + match type of Hr with
      | sql_write ?f s = _ => pose proof (sql_write_identity f s) as Hid
      end.
      rewrite Hr in Hid. exact Hid.
  - inversion Hr; subst. reflexivity.
Qed.

(** An [upsert] that throws leaves the table it found, followed by rows
    of its own timestamp. *)
Lemma upsert_throws now wid stream hint (s : State) rows e s' :
  has_versions s rows -> later_than_all wid now rows ->
  upsert now wid stream hint s = (Throw e, s') ->
  appended wid now rows (wikiId s) s'.
Proof.
  intros Hrows Hlater Hup.
  assert (H0 : appended wid now rows (wikiId s) s).
  { split; [reflexivity|]. exists []. rewrite app_nil_r. split; [assumption|].
    intros r []. }
  unfold upsert in Hup.
  set (pre :=
    (migrate ;;; modify (set_fileSrc None) ;;;
     (if buffered hint
      then transactionSync
             (write_chunks wid now
                (Z.of_nat (length (chunkify (concat stream) CHUNK_SIZE_MAX)))
                (chunkify (concat stream) CHUNK_SIZE_MAX) 0) ;;;
           modify (set_fileSrc (Some (concat stream)))
      else chunkIdx <- stream_loop wid now stream [] 0 0 ;;
           insert_version {| v_wikiId := wid; v_tsMs := now; v_src := [];
                             v_chunkIdx := chunkIdx + 1;
                             v_chunksTotal := Some (chunkIdx + 1) |}))%exec).
  assert (Hpre : keeps (appended wid now rows (wikiId s)) pre).
  { unfold pre. apply keeps_bind; [now apply appended_migrate|intros _].
    apply keeps_bind.
    { apply keeps_modify. intros s0 (Hb & extra & Hr & Hx).
      split; [exact Hb|]. exists extra. split; assumption. }
    intros _. destruct (buffered hint).
    - apply keeps_bind.
      + apply appended_transaction.
        * now apply appended_write_chunks.
        * intros s0. apply write_chunks_identity.
      + intros _. apply keeps_modify. intros s0 (Hb & extra & Hr & Hx).
        split; [exact Hb|]. exists extra. split; assumption.
    - apply keeps_bind; [now apply appended_stream_loop|].
      intros idx. now apply appended_insert. }
  specialize (Hpre s H0).
  assert (Hsplit : upsert now wid stream hint s
                   = bind pre (fun _ => bind (transactionSync (retain wid))
                                          (fun _ => ret {| u_ok := true |})) s).
  { unfold upsert, pre, bind.
    destruct (migrate s) as [[a|e0] s1]; [|reflexivity]. simpl.
    destruct (buffered hint).
    - destruct (transactionSync _ _) as [[a1|e1] s2]; reflexivity.
    - destruct (stream_loop _ _ _ _ _ _ _) as [[a1|e1] s2]; [|reflexivity].
      destruct (insert_version _ _) as [[a2|e2] s3]; reflexivity. }
  unfold upsert in Hsplit. rewrite Hsplit in Hup. clear Hsplit.
  unfold bind at 1 in Hup.
  destruct (pre s) as [[a|e0] s1]; simpl in Hpre.
  - unfold bind in Hup.
    destruct (transactionSync (retain wid) s1) as [[a1|e1] s2] eqn:Hgc.
    + inversion Hup.
    + inversion Hup; subst.
      apply retain_throws in Hgc as [Hst Hid].
      destruct Hpre as (Hb & extra & Hr & Hx).
      split; [congruence|]. exists extra. split; [|assumption].
      unfold has_versions in *. now rewrite Hst.
  - inversion Hup; subst. assumption.
Qed.

(** Rows of a later timestamp without a complete row among them do not
    change what is read. *)
Lemma read_path_partial wid now rows extra :
  later_than_all wid now rows ->
  (forall r, In r extra ->
             v_wikiId r = wid /\ v_tsMs r = now /\ is_complete wid r = false) ->
  read_path wid (rows ++ extra) = read_path wid rows.
Proof.
  intros Hlater Hextra.
  assert (Hinfo : select_chunksInfo wid (rows ++ extra) = select_chunksInfo wid rows).
  { unfold select_chunksInfo. rewrite filter_app.
    rewrite (filter_none (is_complete wid) extra), app_nil_r; [reflexivity|].
    intros x Hx. now apply Hextra. }
  unfold read_path. rewrite Hinfo.
  pose proof (select_chunksInfo_spec wid rows) as Hspec.
  destruct (select_chunksInfo wid rows) as [|t rest]; [reflexivity|].
  destruct Hspec as (_ & Hin & Hc & _).
  apply is_complete_true in Hc as [Hw _].
  specialize (Hlater t Hin Hw).
  assert (Hsel : select_chunks wid (v_tsMs t) (rows ++ extra)
                 = select_chunks wid (v_tsMs t) rows).
  { unfold select_chunks. rewrite filter_app.
    rewrite (filter_none _ extra), app_nil_r; [reflexivity|].
    intros x Hx. destruct (Hextra x Hx) as (_ & Ht & _).
    apply andb_false_iff. right. apply Z.eqb_neq. lia. }
  now rewrite Hsel.
Qed.

End FaultFacts.

(** ** Retention *)

Module RetentionFacts.
Import Shared Migrations WikiDO WikiView SharedFacts WikiFacts TableFacts ReadFacts
  RoundTripFacts.

Lemma ts_desc_total (a b : Z) : ts_desc a b = false -> ts_desc b a = true.
Proof. unfold ts_desc. rewrite Z.leb_gt, Z.leb_le. lia. Qed.

Lemma ts_desc_trans (a b c : Z) :
  ts_desc a b = true -> ts_desc b c = true -> ts_desc a c = true.
Proof. unfold ts_desc. rewrite !Z.leb_le. lia. Qed.

Lemma insert_sorted_nodup (a : Z) (l : list Z) :
  ~ In a l -> NoDup l -> NoDup (insert_sorted ts_desc a l).
Proof.
  induction l as [|b l IH]; intros Hni Hnd; simpl.
  - repeat constructor. intros [].
  - destruct (ts_desc a b).
    + now constructor.
    + inversion Hnd as [|? ? Hb Hl]; subst. constructor.
      * rewrite insert_sorted_in. intros [->|H]; [|contradiction].
        apply Hni. now left.
      * apply IH; auto. intros H. apply Hni. now right.
Qed.

Lemma isort_nodup (l : list Z) : NoDup l -> NoDup (isort ts_desc l).
Proof.
  induction 1 as [|a l Hni Hnd IH]; simpl; [constructor|].
  apply insert_sorted_nodup; auto. now rewrite isort_in.
Qed.

Lemma sorted_nodup_descending (l : list Z) :
  StronglySorted (fun a b => ts_desc a b = true) l -> NoDup l -> descending l.
Proof.
  induction 1 as [|a l Hs IH Hall]; intros Hnd; [constructor|].
  inversion Hnd as [|? ? Hni Hnd']; subst.
  constructor; [apply IH; assumption|].
  rewrite Forall_forall in *. intros x Hx.
  specialize (Hall x Hx). unfold ts_desc in Hall. apply Z.leb_le in Hall.
  assert (x <> a) by (intros ->; contradiction). lia.
Qed.

Lemma complete_tss_descending wid rows : descending (complete_tss wid rows).
Proof.
  unfold complete_tss. apply sorted_nodup_descending.
  - apply (@isort_sorted _ ts_desc ts_desc_total ts_desc_trans).
  - apply isort_nodup, NoDup_nodup.
Qed.

Lemma complete_tss_in wid rows t :
  In t (complete_tss wid rows) <->
  exists r, In r rows /\ is_complete wid r = true /\ v_tsMs r = t.
Proof.
  unfold complete_tss. rewrite isort_in, nodup_In, in_map_iff.
  split; intros (r & H1 & H2).
  - apply filter_In in H2 as [? ?]. eauto.
  - destruct H2 as [? ?]. exists r. split; [assumption|]. apply filter_In; auto.
Qed.

(** A strictly descending list is determined by its elements. *)
Lemma descending_unique (l1 l2 : list Z) :
  descending l1 -> descending l2 ->
  (forall x, In x l1 <-> In x l2) -> l1 = l2.
Proof. apply sorted_unique. intros a b. lia. Qed.

Lemma descending_filter (f : Z -> bool) (l : list Z) :
  descending l -> descending (filter f l).
Proof.
  induction 1 as [|a l Hs IH Hall]; simpl; [constructor|].
  destruct (f a); [|assumption].
  constructor; [assumption|].
  rewrite Forall_forall in *. intros x Hx. apply filter_In in Hx as [Hx _]. auto.
Qed.

Lemma descending_firstn (n : nat) (l : list Z) :
  descending l -> descending (firstn n l).
Proof.
  intros H. revert n. induction H as [|a l Hs IH Hall]; intros [|n]; simpl;
    try constructor.
  - apply IH.
  - rewrite Forall_forall in *. intros x Hx. apply firstn_in in Hx. auto.
Qed.

(** In a strictly descending list, the elements that are at least the one
    at position [k] are the first [k + 1]. *)
Lemma descending_prefix (l : list Z) :
  descending l ->
  forall k, (k < length l)%nat ->
    filter (fun t => nth k l 0 <=? t) l = firstn (S k) l.
Proof.
  induction 1 as [|a l Hs IH Hall]; intros k Hk; simpl in Hk; [lia|].
  rewrite Forall_forall in Hall.
  destruct k as [|k].
  - cbn [nth filter firstn]. rewrite Z.leb_refl. f_equal.
    apply filter_none. intros x Hx. specialize (Hall x Hx).
    apply Z.leb_gt. lia.
  - cbn [nth filter]. 
    assert (Hin : In (nth k l 0) l) by (apply nth_In; lia).
    specialize (Hall _ Hin).
    replace (nth k l 0 <=? a) with true by (symmetry; apply Z.leb_le; lia).
    rewrite firstn_cons. f_equal. apply IH. lia.
Qed.

Lemma last_firstn (l : list Z) (k : nat) :
  (k < length l)%nat -> last (firstn (S k) l) 0 = nth k l 0.
Proof.
  revert k. induction l as [|a l IH]; intros k Hk; simpl in Hk; [lia|].
  destruct k as [|k]; [reflexivity|].
  rewrite firstn_cons. cbn [nth].
  rewrite <- IH by lia.
  destruct l as [|b l]; [simpl in Hk; lia|]. reflexivity.
Qed.

(** The complete timestamps after the ingest of a later version. *)
Lemma complete_tss_app_later wid now rows new :
  later_than_all wid now rows ->
  (forall r, In r new -> v_wikiId r = wid /\ v_tsMs r = now) ->
  (exists t, In t new /\ is_complete wid t = true) ->
  complete_tss wid (rows ++ new) = now :: complete_tss wid rows.
Proof.
  intros Hlater Hnew (t & Ht & Hc).
  apply descending_unique.
  - apply complete_tss_descending.
  - constructor; [apply complete_tss_descending|].
    apply Forall_forall. intros x Hx.
    apply complete_tss_in in Hx as (r & Hr & Hrc & <-).
    apply is_complete_true in Hrc as [Hw _]. now apply Hlater.
  - intros x. rewrite complete_tss_in. simpl. rewrite complete_tss_in.
    split.
    + intros (r & Hr & Hrc & <-). apply in_app_or in Hr as [Hr|Hr].
      * right. eauto.
      * left. symmetry. now apply Hnew.
    + intros [<-|(r & Hr & Hrc & <-)].
      * exists t. repeat split; auto; [apply in_or_app; now right|now apply Hnew].
      * exists r. repeat split; auto. apply in_or_app; now left.
Qed.

Lemma complete_tss_delete_older wid cutoff rows :
  complete_tss wid (delete_older wid cutoff rows)
  = filter (fun t => cutoff <=? t) (complete_tss wid rows).
Proof.
  apply descending_unique.
  - apply complete_tss_descending.
  - apply descending_filter, complete_tss_descending.
  - intros x. rewrite filter_In, !complete_tss_in. unfold delete_older.
    split.
    + intros (r & Hr & Hc & <-). apply filter_In in Hr as [Hr Hk].
      split; [eauto|].
      apply negb_true_iff, andb_false_iff in Hk as [Hk|Hk].
      * apply is_complete_true in Hc as [Hw _].
        apply String.eqb_neq in Hk. contradiction.
      * apply Z.leb_le. apply Z.ltb_ge in Hk. lia.
    + intros ((r & Hr & Hc & <-) & Hle).
      exists r. repeat split; auto. apply filter_In. split; [assumption|].
      apply negb_true_iff, andb_false_iff. right.
      apply Z.ltb_ge. apply Z.leb_le in Hle. lia.
Qed.

(** What the retention step does, in terms of the complete timestamps. *)
Lemma retained_spec wid rows :
  let cts := complete_tss wid rows in
  ((length cts < 10)%nat -> retained wid rows = rows)
  /\ ((10 <= length cts)%nat ->
      retained wid rows = delete_older wid (nth 9 cts 0) rows
      /\ complete_tss wid (retained wid rows) = firstn 10 cts).
Proof.
  intros cts. unfold retained, select_complete_tss.
  change (isort ts_desc (nodup Z.eq_dec (map v_tsMs (filter (is_complete wid) rows))))
    with cts.
  change (Z.to_nat RETAINED_VERSIONS_NUM) with 10%nat.
  rewrite length_firstn. unfold RETAINED_VERSIONS_NUM.
  split; intros Hlen.
  - replace (Z.of_nat (Nat.min 10 (length cts)) <? 10) with true;
      [reflexivity|symmetry; apply Z.ltb_lt; lia].
  - replace (Z.of_nat (Nat.min 10 (length cts)) <? 10) with false;
      [|symmetry; apply Z.ltb_ge; lia].
    rewrite last_firstn by lia. split; [reflexivity|].
    rewrite complete_tss_delete_older.
    apply descending_prefix; [apply complete_tss_descending|lia].
Qed.

(** One ingest at a later timestamp: the new timestamp comes first and
    the ten most recent complete timestamps stay. *)
Lemma upsert_step_tss now wid stream hint rows :
  later_than_all wid now rows ->
  (buffered hint = true -> concat stream <> []) ->
  let rows' := retained wid (insert_all (ingested now wid stream hint) rows) in
  complete_tss wid rows' = firstn 10 (now :: complete_tss wid rows)
  /\ (forall r, In r rows' -> v_wikiId r = wid -> v_tsMs r <= now)
  /\ (length (complete_tss wid rows') = 10%nat ->
      forall r, In r rows' -> v_wikiId r = wid ->
                last (complete_tss wid rows') 0 <= v_tsMs r).
Proof.
  intros Hlater Hbody rows'.
  assert (Hsnd : forall r, In r rows' -> v_wikiId r = wid -> v_tsMs r <= now).
  { destruct (@upsert_table now wid stream hint rows Hlater) as (kept & E & Hincl).
    unfold rows'. rewrite E. intros r Hr Hw.
    apply in_app_or in Hr as [Hr|Hr].
    - apply Hincl in Hr. specialize (Hlater r Hr Hw). lia.
    - apply ingested_in in Hr. lia. }
  split; [|split; [exact Hsnd|]]; unfold rows' in *; clear rows';
    rewrite insert_all_ingested in * by assumption;
    pose proof (@complete_tss_app_later wid now rows (ingested now wid stream hint)
                  Hlater (@ingested_in now wid stream hint)
                  (@ingested_complete now wid stream hint Hbody)) as Hcts;
    destruct (retained_spec wid (rows ++ ingested now wid stream hint))
      as [Hfew Hmany];
    destruct (Nat.lt_ge_cases
                (length (complete_tss wid (rows ++ ingested now wid stream hint))) 10)
      as [Hlt|Hge].
  - rewrite Hfew by assumption. rewrite Hcts in *.
    now rewrite firstn_all2 by lia.
  - destruct (Hmany Hge) as [_ ->]. now rewrite Hcts.
  - rewrite Hfew by assumption. intros Hlen. lia.
  - destruct (Hmany Hge) as [Hdel Htss]. rewrite Htss.
    intros _ r Hr Hw. rewrite Hdel in Hr.
    rewrite last_firstn by lia.
    unfold delete_older in Hr. apply filter_In in Hr as [_ Hk].
    apply negb_true_iff, andb_false_iff in Hk as [Hk|Hk].
    + apply String.eqb_neq in Hk. contradiction.
    + now apply Z.ltb_ge.
Qed.

Lemma firstn_app_firstn {A} (n : nat) (a b : list A) :
  firstn n (a ++ firstn n b) = firstn n (a ++ b).
Proof.
  rewrite !firstn_app, firstn_firstn. do 2 f_equal. lia.
Qed.

Lemma sorted_app_lt {A} (R : A -> A -> Prop) (a b : list A) :
  StronglySorted R (a ++ b) -> forall x y, In x a -> In y b -> R x y.
Proof.
  induction a as [|h a IH]; intros Hs x y Hx Hy; [destruct Hx|].
  simpl in Hs. inversion Hs as [|? ? Hs' Hall]; subst.
  destruct Hx as [->|Hx].
  - rewrite Forall_forall in Hall. apply Hall, in_or_app. now right.
  - now apply IH.
Qed.

Lemma upsert_all_tss wid (l : list Ingest) :
  forall (s : State) rows,
    has_versions s rows -> sqlFaultIn s = None ->
    increasing l ->
    (forall i, In i l -> later_than_all wid (at_ms i) rows) ->
    Forall writes_a_version l ->
    exists s' rows',
      upsert_all wid l s = (Ok tt, s')
      /\ has_versions s' rows'
      /\ (complete_tss wid rows'
          = firstn 10 (rev (map at_ms l) ++ complete_tss wid rows)
          \/ l = [])
      /\ (l <> [] -> length (complete_tss wid rows') = 10%nat ->
          forall r, In r rows' -> v_wikiId r = wid ->
                    last (complete_tss wid rows') 0 <= v_tsMs r).
Proof.
  induction l as [|i rest IH]; intros s rows Hrows Hbudget Hinc Hlater Hw.
  - exists s, rows. repeat split; auto. congruence.
  - inversion Hinc as [|? ? Hinc' Hall]; subst.
    inversion Hw as [|? ? Hwi Hw']; subst.
    rewrite Forall_forall in Hall.
    assert (Hi : later_than_all wid (at_ms i) rows) by (apply Hlater; now left).
    destruct (@upsert_healthy (at_ms i) wid (payload i) (hint i) s rows Hrows Hbudget)
      as (s1 & Hup & Hrows1 & _ & Hbudget1 & _).
    destruct (@upsert_step_tss (at_ms i) wid (payload i) (hint i) rows Hi Hwi)
      as (Htss & Hle & Hcut).
    set (rows1 := retained wid
                    (insert_all (ingested (at_ms i) wid (payload i) (hint i)) rows))
      in *.
    destruct (IH s1 rows1 Hrows1 Hbudget1 Hinc') as (s' & rows' & Hall' & Hrows' & Htss' & Hcut'); auto.
    { intros j Hj r Hr Hrw. specialize (Hle r Hr Hrw). specialize (Hall j Hj). lia. }
    cbn [upsert_all]. erewrite bind_ok by exact Hup.
    destruct rest as [|j rest'].
    + cbn [upsert_all] in Hall'. inversion Hall'; subst s'.
      exists s1, rows1.
      split; [reflexivity|]. split; [assumption|]. split.
      * left. exact Htss.
      * intros _. exact Hcut.
    + exists s', rows'.
      split; [assumption|]. split; [assumption|]. split.
      * left. destruct Htss' as [Htss'|]; [|discriminate].
        rewrite Htss', Htss, firstn_app_firstn.
        replace (rev (map at_ms (i :: j :: rest')))
          with (rev (map at_ms (j :: rest')) ++ [at_ms i]) by reflexivity.
        now rewrite <- app_assoc.
      * intros _. apply Hcut'. discriminate.
Qed.

End RetentionFacts.

(** ** The buffered branch is all or nothing *)

Module BatchFacts.
Import Shared Migrations WikiDO WikiView SharedFacts WikiFacts TableFacts.

Lemma insert_version_ok (r : VersionRow) (s s' : State) rows :
  has_versions s rows ->
  insert_version r s = (Ok tt, s') ->
  has_versions s' (insert_or_replace r rows).
Proof.
  unfold has_versions, insert_version, sql_write. intros Hrows.
  rewrite Hrows.
  destruct (sqlFaultIn s) as [[|n]|]; intros H; inversion H; reflexivity.
Qed.

Lemma write_chunks_ok wid ts total chunks :
  forall i (s s' : State) rows,
    has_versions s rows ->
    write_chunks wid ts total chunks i s = (Ok tt, s') ->
    has_versions s' (insert_all (numbered wid ts (Some total) chunks i) rows).
Proof.
  induction chunks as [|c rest IH]; intros i s s' rows Hrows Hrun;
    cbn [write_chunks numbered] in *.
  - inversion Hrun; subst. exact Hrows.
  - unfold bind in Hrun.
    destruct (insert_version _ s) as [[[]|e] s1] eqn:Hins; [|discriminate].
    eapply IH; [|exact Hrun].
    eapply insert_version_ok; eassumption.
Qed.

Lemma transaction_versions {A} (body : M State A) (s : State) rows :
  has_versions s rows ->
  match transactionSync body s with
  | (Ok _, s') => s' = snd (body s)
  | (Throw _, s') => has_versions s' rows
  end.
Proof.
  intros Hrows. unfold transactionSync.
  destruct (body s) as [[a|e] s1]; [reflexivity|exact Hrows].
Qed.

Lemma retain_versions wid (s : State) rows :
  has_versions s rows ->
  has_versions (snd (transactionSync (retain wid) s)) rows
  \/ has_versions (snd (transactionSync (retain wid) s)) (retained wid rows).
Proof.
  intros Hrows. unfold transactionSync.
  destruct (retain wid s) as [[[]|e] s1] eqn:Hr; [|now left].
  right. simpl. unfold retain, bind, select_versions, retained in *.
  unfold has_versions in Hrows. rewrite Hrows in Hr.
  destruct (Z.of_nat (length (select_complete_tss wid RETAINED_VERSIONS_NUM rows))
              <? RETAINED_VERSIONS_NUM).
  - inversion Hr; subst. exact Hrows.
  - unfold sql_write in Hr. rewrite Hrows in Hr. unfold has_versions.
    destruct (sqlFaultIn s) as [[|n]|]; inversion Hr; reflexivity.
Qed.

(** Whatever the storage does, the buffered branch leaves the table as it
    was, or with all rows of the batch. *)
Lemma buffered_all_or_nothing now wid stream hint (s : State) rows :
  has_versions s rows -> buffered hint = true ->
  let written := insert_all (batched wid now (concat stream)) rows in
  forall o s',
    upsert now wid stream hint s = (o, s') ->
    has_versions s' rows \/ has_versions s' written
    \/ has_versions s' (retained wid written).
Proof.
  intros Hrows Hbuf written o s' Hup.
  destruct (migrate_ok s) as (r & s1 & Hm & Hkeep & _).
  specialize (Hkeep rows Hrows).
  unfold upsert in Hup. rewrite Hbuf in Hup.
  erewrite bind_ok in Hup by exact Hm.
  erewrite bind_ok in Hup by reflexivity.
  assert (H2 : has_versions (set_fileSrc None s1) rows) by exact Hkeep.
  set (s2 := set_fileSrc None s1) in *.
  unfold bind at 1 in Hup. unfold bind at 1 in Hup.
  pose proof (@transaction_versions _
                (write_chunks wid now
                   (Z.of_nat (length (chunkify (concat stream) CHUNK_SIZE_MAX)))
                   (chunkify (concat stream) CHUNK_SIZE_MAX) 0) s2 rows H2) as Htx.
  destruct (transactionSync _ s2) as [[[]|e] s3] eqn:Hrun.
  - assert (H3 : has_versions s3 written).
    { subst s3. unfold transactionSync in Hrun.
      destruct (write_chunks _ _ _ _ _ s2) as [[[]|e] s3] eqn:Hw; [|discriminate].
      simpl. eapply write_chunks_ok; eassumption. }
    unfold modify at 1 in Hup.
    set (s4 := set_fileSrc (Some (concat stream)) s3) in *.
    assert (H4 : has_versions s4 written) by exact H3.
    pose proof (retain_versions wid H4) as Hgc.
    unfold bind in Hup.
    destruct (transactionSync (retain wid) s4) as [[[]|e] s5];
      inversion Hup; subst; simpl in Hgc; tauto.
  - inversion Hup; subst. now left.
Qed.

End BatchFacts.

(** ** The size of the rows written *)

Module BoundFacts.
Import Shared Migrations WikiDO WikiView SharedFacts WikiFacts TableFacts FaultFacts.

Section NewRows.
(** [ok] holds of every row the code under study writes; [rows0] is the
    table it starts from. *)
Variable ok : VersionRow -> Prop.
Variable rows0 : list VersionRow.

Local Abbreviation old_or_ok := (WikiView.old_or_ok ok rows0).

Lemma old_or_ok_sql_write f :
  (forall d d', f d = Ok d' ->
     forall r, In r (match wiki_versions d' with Some t => t | None => [] end) ->
               In r (match wiki_versions d with Some t => t | None => [] end) \/ ok r) ->
  keeps old_or_ok (sql_write f).
Proof.
  intros Hf s Hs. unfold sql_write.
  destruct (sqlFaultIn s) as [[|n]|]; [exact Hs| |];
    (destruct (f (db (storage s))) as [d'|e] eqn:Hfd; [|exact Hs]);
    intros r Hr; unfold versions in Hr; simpl in Hr;
    (destruct (Hf _ _ Hfd r Hr) as [Hold|Hok]; [apply Hs, Hold|now right]).
Qed.

Lemma old_or_ok_insert (r : VersionRow) :
  ok r -> keeps old_or_ok (insert_version r).
Proof.
  intros Hr. apply old_or_ok_sql_write. intros d d' Hf x Hx.
  destruct (wiki_versions d) as [t|]; inversion Hf; subst d'; simpl in Hx.
  apply in_app_or in Hx as [Hx|[<-|[]]]; [|now right].
  apply filter_In in Hx as [Hx _]. now left.
Qed.

Lemma old_or_ok_insert_info (r : InfoRow) : keeps old_or_ok (insert_info r).
Proof.
  apply old_or_ok_sql_write. intros d d' Hf x Hx.
  destruct (wiki_info d) as [t|]; inversion Hf; subst d'; simpl in Hx.
  now left.
Qed.

Lemma old_or_ok_retain wid : keeps old_or_ok (retain wid).
Proof.
  unfold retain. apply keeps_bind.
  - intros s Hs. unfold select_versions.
    destruct (wiki_versions (db (storage s))); exact Hs.
  - intros rows.
    destruct (Z.of_nat (length (select_complete_tss wid RETAINED_VERSIONS_NUM rows))
                <? RETAINED_VERSIONS_NUM); [apply keeps_ret|].
    apply old_or_ok_sql_write. intros d d' Hf x Hx.
    destruct (wiki_versions d) as [t|]; inversion Hf; subst d'; simpl in Hx.
    unfold delete_older in Hx. apply filter_In in Hx as [Hx _]. now left.
Qed.

Lemma old_or_ok_transaction {A} (body : M State A) :
  keeps old_or_ok body -> keeps old_or_ok (transactionSync body).
Proof.
  intros Hbody s Hs. unfold transactionSync. specialize (Hbody s Hs).
  destruct (body s) as [[a|e] s1]; simpl in *; [assumption|exact Hs].
Qed.

Lemma old_or_ok_migrate : keeps old_or_ok migrate.
Proof.
  intros s Hs. destruct (migrate_ok s) as (r & s1 & Hm & _ & Hv & _).
  rewrite Hm; simpl. unfold old_or_ok. now rewrite Hv.
Qed.

Lemma old_or_ok_fields (f : State -> State) :
  (forall s, storage (f s) = storage s) -> keeps old_or_ok (modify f).
Proof.
  intros Hf s Hs r Hr. apply Hs. unfold versions, modify in *. simpl in Hr.
  now rewrite Hf in Hr.
Qed.

Lemma old_or_ok_write_chunks wid ts total chunks :
  (forall c i, In c chunks ->
     ok {| v_wikiId := wid; v_tsMs := ts; v_src := c;
           v_chunkIdx := i; v_chunksTotal := Some total |}) ->
  forall i, keeps old_or_ok (write_chunks wid ts total chunks i).
Proof.
  induction chunks as [|c rest IH]; intros Hok i; cbn [write_chunks].
  - apply keeps_ret.
  - apply keeps_bind.
    + apply old_or_ok_insert, Hok. now left.
    + intros _. apply IH. intros; apply Hok. now right.
Qed.

Lemma old_or_ok_stream_loop wid ts reads :
  (forall c i, byteLength c <= CHUNK_SIZE_MAX ->
     ok {| v_wikiId := wid; v_tsMs := ts; v_src := c;
           v_chunkIdx := i; v_chunksTotal := None |}) ->
  forall bufs total idx,
    loop_head reads bufs total ->
    keeps old_or_ok (stream_loop wid ts reads bufs total idx).
Proof.
  intros Hok. induction reads as [|v rest IH]; intros bufs total idx (Ht & Hhead);
    cbn [stream_loop].
  - apply keeps_bind; [|intros _; apply keeps_ret].
    apply old_or_ok_insert, Hok. rewrite mergeArrayBuffers_concat.
    destruct Hhead as [[-> _]|[_ Hlt]]; [|lia].
    change (byteLength (concat [])) with 0. unfold CHUNK_SIZE_MAX. lia.
  - destruct Hhead as [[-> Hreads]|[Habs _]]; [|discriminate].
    simpl in Ht. subst total.
    assert (Hv : byteLength v <= CHUNK_SIZE_MAX
                 /\ (byteLength v < CHUNK_SIZE_MAX -> rest = [])
                 /\ readAtLeast_reads CHUNK_SIZE_MAX rest = true).
    { cbn [readAtLeast_reads] in Hreads. destruct rest as [|v' rest'].
      - apply andb_true_iff in Hreads as [_ Hle]. apply Z.leb_le in Hle. auto.
      - apply andb_true_iff in Hreads as [Heq Hrest]. apply Z.eqb_eq in Heq.
        repeat split; [lia|lia|assumption]. }
    destruct Hv as (Hle & Hlast & Hrest).
    destruct (byteLength [] + byteLength v <? CHUNK_SIZE_MAX) eqn:Htest.
    + apply IH. apply Z.ltb_lt in Htest.
      change (byteLength []) with 0 in *. split.
      * simpl. rewrite app_nil_r. lia.
      * right. split; [apply Hlast; lia|lia].
    + apply keeps_bind.
      * apply old_or_ok_insert, Hok. rewrite mergeArrayBuffers_concat.
        simpl. now rewrite app_nil_r.
      * intros _. apply IH. split; [reflexivity|]. left. auto.
Qed.
End NewRows.

Lemma create_rows_small rows0 assets now tid wid name wikiType :
  keeps (old_or_ok small rows0) (create assets now tid wid name wikiType).
Proof.
  unfold create. apply keeps_bind.
  - destruct (wikiType =? "tw5")%string; [|intros s0 H0; exact H0].
    destruct assets; [|intros s0 H0; exact H0].
    apply keeps_bind; [|intros _; apply keeps_ret].
    apply old_or_ok_fields. reflexivity.
  - intros src. apply keeps_bind; [apply old_or_ok_migrate|intros _].
    apply keeps_bind.
    + apply old_or_ok_transaction. apply keeps_bind.
      * apply old_or_ok_insert_info.
      * intros _. apply old_or_ok_write_chunks. intros c i Hc. unfold small; simpl.
        pose proof (@chunkify_bounded src CHUNK_SIZE_MAX ltac:(discriminate)) as Hb.
        rewrite Forall_forall in Hb. now apply Hb.
    + intros _. apply keeps_bind; [|intros _; apply keeps_ret].
      apply old_or_ok_fields. reflexivity.
Qed.

Lemma upsert_rows_small rows0 now wid stream hint :
  (buffered hint = false -> readAtLeast_reads CHUNK_SIZE_MAX stream = true) ->
  keeps (old_or_ok (fun r => small r /\ (buffered hint = false -> streamed_row r))
           rows0)
    (upsert now wid stream hint).
Proof.
  intros Hreads.
  unfold upsert. apply keeps_bind; [apply old_or_ok_migrate|intros _].
  apply keeps_bind; [apply old_or_ok_fields; reflexivity|intros _].
  apply keeps_bind.
  - destruct (buffered hint) eqn:Hbuf.
    + apply keeps_bind.
      * apply old_or_ok_transaction, old_or_ok_write_chunks.
        intros c i Hc. split; [|discriminate]. unfold small; simpl.
        pose proof (@chunkify_bounded (concat stream) CHUNK_SIZE_MAX
                      ltac:(discriminate)) as Hb.
        rewrite Forall_forall in Hb. now apply Hb.
      * intros _. apply old_or_ok_fields. reflexivity.
    + apply keeps_bind.
      * apply old_or_ok_stream_loop.
        -- intros c i Hc. split; [exact Hc|]. intros _. split; [exact Hc|now left].
        -- split; [reflexivity|]. left. auto.
      * intros idx. apply old_or_ok_insert.
        assert (Hs : small {| v_wikiId := wid; v_tsMs := now; v_src := [];
                              v_chunkIdx := idx + 1;
                              v_chunksTotal := Some (idx + 1) |})
          by (unfold small; simpl; discriminate).
        split; [exact Hs|]. intros _. split; [exact Hs|]. right. auto.
  - intros _. apply keeps_bind; [|intros _; apply keeps_ret].
    apply old_or_ok_transaction, old_or_ok_retain.
Qed.

End BoundFacts.

(** ** The migration runner *)

Module MigrationFacts.
Import Migrations MigrationView.

Section Runner.
Variable DB : Type.
Variable exec : Ddl -> DB -> option (DB * RowsData).

Lemma id_before_total a b : id_before a b = false -> id_before b a = true.
Proof. unfold id_before. rewrite Z.leb_gt, Z.leb_le. lia. Qed.

Lemma id_before_trans a b c :
  id_before a b = true -> id_before b c = true -> id_before a c = true.
Proof. unfold id_before. rewrite !Z.leb_le. lia. Qed.

Lemma is_pending_true mark m :
  is_pending mark m = true <->
  forall h, mark = Some h -> h < idMonotonicInc m.
Proof.
  unfold is_pending. destruct mark as [h|].
  - rewrite Z.ltb_lt. split.
    + intros H h' E. inversion E; subst. exact H.
    + intros H. now apply H.
  - split; [intros _ h E; discriminate|reflexivity].
Qed.

Lemma pending_in ms mark m :
  In m (pending ms mark) <-> In m ms /\ is_pending mark m = true.
Proof. unfold pending. now rewrite isort_in, filter_In. Qed.

Lemma pending_ascending ms mark :
  NoDup (map idMonotonicInc ms) -> ascending (pending ms mark).
Proof.
  intros Hnd. unfold pending.
  set (l := filter (is_pending mark) ms).
  assert (Hl : NoDup (map idMonotonicInc (isort id_before l))).
  { eapply Permutation_NoDup.
    - apply Permutation_map, Permutation_sym, isort_perm.
    - unfold l. clear l. induction ms as [|a ms IH]; simpl; [constructor|].
      inversion Hnd as [|? ? Hni Hnd']; subst.
      destruct (is_pending mark a); simpl; [|now apply IH].
      constructor; [|now apply IH].
      intros Hin. apply Hni. apply in_map_iff in Hin as (x & Hx & Hin).
      apply filter_In in Hin as [Hin _]. apply in_map_iff. eauto. }
  pose proof (@isort_sorted _ id_before id_before_total id_before_trans l) as Hs.
  revert Hl. induction Hs as [|a t Hs IH Hall]; intros Hl; [constructor|].
  simpl in Hl. inversion Hl as [|? ? Hni Hnd']; subst.
  constructor; [now apply IH|].
  rewrite Forall_forall in *. intros x Hx.
  specialize (Hall x Hx). unfold id_before in Hall. apply Z.leb_le in Hall.
  assert (idMonotonicInc x <> idMonotonicInc a).
  { intros E. apply Hni. rewrite <- E. now apply in_map. }
  lia.
Qed.

(** What [run_pending] leaves: on success every migration was applied
    in turn; on failure those before the failing one were, and the
    failing one left no trace. *)
Lemma run_pending_spec (todo : list SchemaMigration) :
  forall acc (st : Store DB),
    match run_pending exec todo acc st with
    | (Ok _, st') =>
        applied st' = applied st ++ map idMonotonicInc todo
        /\ lastMigrationId st' = mark_after todo (lastMigrationId st)
    | (Throw _, st') =>
        exists done m rest acc' r,
          todo = done ++ m :: rest
          /\ run_pending exec done acc st = (Ok r, st')
          /\ applied st' = applied st ++ map idMonotonicInc done
          /\ lastMigrationId st' = mark_after done (lastMigrationId st)
          /\ exec_all exec (sql m) (db st') acc' = None
    end.
Proof.
  induction todo as [|m rest IH]; intros acc st; cbn [run_pending].
  - unfold ret. rewrite app_nil_r. split; reflexivity.
  - destruct (exec_all exec (sql m) (db st) acc) as [[d' acc1]|] eqn:Hexec.
    + specialize (IH acc1 {| db := d'; lastMigrationId := Some (idMonotonicInc m);
                             applied := applied st ++ [idMonotonicInc m] |}).
      destruct (run_pending exec rest acc1 _) as [[r|e] st'] eqn:Hrun.
      * destruct IH as [Hlog Hmark]. simpl in Hlog, Hmark. split.
        -- rewrite Hlog. simpl. now rewrite <- app_assoc.
        -- rewrite Hmark. unfold mark_after. cbn [map]. now rewrite last_cons.
      * destruct IH as (done & m' & rest' & acc' & r & E & Hdone & Hlog & Hmark & Hfail).
        exists (m :: done), m', rest', acc', r. simpl in Hlog, Hmark.
        repeat split.
        -- simpl. now rewrite E.
        -- cbn [run_pending]. now rewrite Hexec.
        -- rewrite Hlog. simpl. now rewrite <- app_assoc.
        -- rewrite Hmark. unfold mark_after. cbn [map]. now rewrite last_cons.
        -- exact Hfail.
    + exists [], m, rest, acc, acc. simpl. rewrite app_nil_r.
      repeat split; assumption.
Qed.

Lemma ascending_last_max (l : list SchemaMigration) (d : SchemaMigration) :
  ascending l ->
  forall x, In x l -> idMonotonicInc x <= idMonotonicInc (last l d).
Proof.
  induction 1 as [|a l Hs IH Hall]; intros x Hx; [destruct Hx|].
  rewrite Forall_forall in Hall. rewrite last_cons.
  destruct l as [|b l].
  - destruct Hx as [->|[]]. simpl. lia.
  - assert (Hin : In (last (b :: l) a) (b :: l)) by (apply last_in; discriminate).
    destruct Hx as [->|Hx].
    + specialize (Hall _ Hin). lia.
    + rewrite (@last_default _ (b :: l) a d) by discriminate. now apply IH.
Qed.

(** After a run that succeeded nothing is pending. *)
Lemma nothing_pending_after ms mark :
  NoDup (map idMonotonicInc ms) ->
  pending ms (mark_after (pending ms mark) mark) = [].
Proof.
  intros Hnd. pose proof (@pending_ascending ms mark Hnd) as Hasc.
  destruct (pending ms mark) as [|a todo] eqn:Htodo; [exact Htodo|].
  unfold pending at 1. rewrite TableFacts.filter_none; [reflexivity|].
  intros x Hx. unfold mark_after.
  set (top := last (a :: todo) a).
  assert (Hlast : last (map (fun m => Some (idMonotonicInc m)) (a :: todo)) mark
                  = Some (idMonotonicInc top)).
  { rewrite (@last_default _ _ mark (Some (idMonotonicInc a))) by discriminate.
    apply (last_map_default (fun m => Some (idMonotonicInc m))). }
  rewrite Hlast. simpl. apply Z.ltb_ge.
  assert (Htop : In top (pending ms mark)).
  { rewrite Htodo. apply last_in. discriminate. }
  destruct (is_pending mark x) eqn:Hp.
  - assert (In x (pending ms mark)) by (apply pending_in; auto).
    rewrite Htodo in H.
    apply (@ascending_last_max (a :: todo) a Hasc x H).
  - apply pending_in in Htop as [_ Htop].
    unfold is_pending in Hp, Htop. destruct mark as [h|]; [|discriminate].
    apply Z.ltb_ge in Hp. apply Z.ltb_lt in Htop. lia.
Qed.
End Runner.

End MigrationFacts.

(** ** The tenant actor *)

Module TenantFacts.
Import Migrations TenantDO TenantView MigrationView MigrationFacts.

Lemma exec_all_invariant {DB} (exec : Ddl -> DB -> option (DB * RowsData))
    (Q : DB -> Prop) :
  (forall stmt d d' r, exec stmt d = Some (d', r) -> Q d -> Q d') ->
  forall stmts d acc d' acc',
    exec_all exec stmts d acc = Some (d', acc') -> Q d -> Q d'.
Proof.
  intros Hexec. induction stmts as [|stmt rest IH]; intros d acc d' acc' H Hq;
    cbn [exec_all] in H.
  - inversion H; subst. exact Hq.
  - destruct (exec stmt d) as [[d1 r]|] eqn:He; [|discriminate].
    eapply IH; [exact H|]. eapply Hexec; eassumption.
Qed.

(** What every statement keeps of the SQL store, the runner keeps. *)
Lemma run_pending_invariant {DB} (exec : Ddl -> DB -> option (DB * RowsData))
    (Q : DB -> Prop) :
  (forall stmt d d' r, exec stmt d = Some (d', r) -> Q d -> Q d') ->
  forall todo acc (st : Store DB),
    Q (db st) -> Q (db (snd (run_pending exec todo acc st))).
Proof.
  intros Hexec. induction todo as [|m rest IH]; intros acc st Hq;
    cbn [run_pending]; [exact Hq|].
  destruct (exec_all exec (sql m) (db st) acc) as [[d' acc1]|] eqn:He; [|exact Hq].
  apply IH. simpl. eapply exec_all_invariant; eassumption.
Qed.

Lemma exec_keeps_rows stmt d d' r :
  exec stmt d = Some (d', r) ->
  match tenant_info d' with Some t => t | None => [] end
  = match tenant_info d with Some t => t | None => [] end
  /\ match wikis d' with Some t => t | None => [] end
     = match wikis d with Some t => t | None => [] end
  /\ (forall t, tenant_info d = Some t -> tenant_info d' = Some t).
Proof.
  destruct d as [ti wk col]. destruct stmt as [t|t c]; cbn [exec].
  - destruct (t =? "tenant_info")%string.
    + destruct ti; intros H; inversion H; subst; simpl; repeat split; auto;
        intros; discriminate.
    + destruct (t =? "wikis")%string; [|discriminate].
      destruct wk; intros H; inversion H; subst; simpl; repeat split; auto.
  - destruct ((t =? "wikis")%string && (c =? "createdAtMs")%string); [|discriminate].
    simpl. destruct wk; [|discriminate]. destruct col; [discriminate|].
    intros H; inversion H; subst; simpl. repeat split; auto.
Qed.

(** The migrations leave the rows of both tables and the field of the
    object as they are, whatever their outcome. *)
Lemma migrate_keeps (s : State) :
  tenantId (snd (migrate s)) = tenantId s
  /\ tenant_rows (snd (migrate s)) = tenant_rows s
  /\ wiki_rows (snd (migrate s)) = wiki_rows s
  /\ (forall t, tenant_info (db (storage s)) = Some t ->
                tenant_info (db (storage (snd (migrate s)))) = Some t).
Proof.
  unfold migrate, runAll, tenant_rows, wiki_rows.
  set (todo := pending TenantMigrations (lastMigrationId (storage s))).
  pose proof (@run_pending_invariant _ exec
                (fun d => match tenant_info d with Some t => t | None => [] end
                          = match tenant_info (db (storage s)) with
                            | Some t => t | None => [] end
                          /\ match wikis d with Some t => t | None => [] end
                             = match wikis (db (storage s)) with
                               | Some t => t | None => [] end
                          /\ (forall t, tenant_info (db (storage s)) = Some t ->
                                        tenant_info d = Some t))) as Hinv.
  specialize (Hinv ltac:(intros stmt d d' r He (H1 & H2 & H3);
                         destruct (exec_keeps_rows _ _ He) as (E1 & E2 & E3);
                         repeat split; [congruence|congruence|auto])
                todo no_rows (storage s) ltac:(repeat split; auto)).
  destruct (run_pending exec todo no_rows (storage s)) as [o st'].
  simpl in *. destruct Hinv as (H1 & H2 & H3). repeat split; auto.
Qed.

(** On an actor bound to [tid], [_initTables] with another id throws. *)
Lemma initTables_other tid other (s : State) :
  tid <> ""%string -> tenantId s = tid -> other <> tid ->
  exists e s',
    initTables other s = (Throw e, s')
    /\ tenantId s' = tid /\ tenant_rows s' = tenant_rows s
    /\ wiki_rows s' = wiki_rows s
    /\ (forall t, tenant_info (db (storage s)) = Some t ->
                  tenant_info (db (storage s')) = Some t).
Proof.
  intros Hne Hb Hother. destruct (migrate_keeps s) as (Hid & Hti & Hwk & Hkeep).
  unfold initTables, bind.
  destruct (migrate s) as [[r|e] s1]; simpl in *.
  - unfold get. rewrite Hid, Hb.
    apply String.eqb_neq in Hne. rewrite Hne. simpl.
    assert (Hx : (tid =? other)%string = false)
      by (apply String.eqb_neq; congruence).
    rewrite Hx. simpl. unfold throw. do 2 eexists.
    split; [reflexivity|]. repeat split; try congruence. exact Hkeep.
  - do 2 eexists. split; [reflexivity|]. repeat split; try congruence. exact Hkeep.
Qed.

(** On an actor bound to [tid], [_initTables] with [tid] changes no row. *)
Lemma initTables_same tid (s : State) :
  tid <> ""%string -> tenantId s = tid ->
  tenantId (snd (initTables tid s)) = tid
  /\ tenant_rows (snd (initTables tid s)) = tenant_rows s
  /\ wiki_rows (snd (initTables tid s)) = wiki_rows s
  /\ (forall t, tenant_info (db (storage s)) = Some t ->
                tenant_info (db (storage (snd (initTables tid s)))) = Some t).
Proof.
  intros Hne Hb. destruct (migrate_keeps s) as (Hid & Hti & Hwk & Hkeep).
  unfold initTables, bind.
  destruct (migrate s) as [[r|e] s1]; simpl in *.
  - unfold get. rewrite Hid, Hb.
    apply String.eqb_neq in Hne. rewrite Hne, String.eqb_refl. simpl.
    repeat split; try congruence. exact Hkeep.
  - repeat split; try congruence. exact Hkeep.
Qed.

Lemma sql_write_wikis_keeps f (s : State) :
  (forall d d', f d = Ok d' -> tenant_info d' = tenant_info d) ->
  tenantId (snd (sql_write f s)) = tenantId s
  /\ tenant_info (db (storage (snd (sql_write f s)))) = tenant_info (db (storage s)).
Proof.
  intros Hf. unfold sql_write.
  destruct (f (db (storage s))) as [d'|e] eqn:E; simpl; [|auto].
  split; [reflexivity|]. now apply Hf.
Qed.

Lemma insert_wiki_keeps row (s : State) :
  tenantId (snd (insert_wiki row s)) = tenantId s
  /\ tenant_info (db (storage (snd (insert_wiki row s)))) = tenant_info (db (storage s)).
Proof.
  apply sql_write_wikis_keeps. intros d d' H.
  destruct (wikis d); [|discriminate].
  destruct (wikis_createdAtMs d); inversion H; reflexivity.
Qed.

Lemma delete_wiki_row_keeps wid tid (s : State) :
  tenantId (snd (delete_wiki_row wid tid s)) = tenantId s
  /\ tenant_info (db (storage (snd (delete_wiki_row wid tid s))))
     = tenant_info (db (storage s)).
Proof.
  apply sql_write_wikis_keeps. intros d d' H.
  destruct (wikis d); inversion H; reflexivity.
Qed.

Lemma list_keeps enc (s : State) : snd (list_ enc s) = s.
Proof.
  unfold list_. destruct (tenantId s =? "")%string; [reflexivity|].
  destruct (wikis (db (storage s))); reflexivity.
Qed.

(** Once claimed, always claimed: no call changes the claim. *)
Lemma claimed_run_call enc tid c (s : State) :
  tid <> ""%string -> claimed tid s ->
  claimed tid (run_call enc c s) /\ tenant_rows (run_call enc c s) = tenant_rows s.
Proof.
  intros Hne (Hb & data & rest & Hrows).
  assert (Hinit : forall other,
            let s1 := snd (initTables other s) in
            tenantId s1 = tid
            /\ tenant_info (db (storage s1))
               = Some ({| ti_tenantId := tid; ti_dataJson := data |} :: rest)).
  { intros other s1. unfold s1.
    destruct (String.string_dec other tid) as [->|Hother].
    - destruct (@initTables_same tid s Hne Hb) as (H1 & _ & _ & H4). auto.
    - destruct (@initTables_other tid other s Hne Hb Hother)
        as (e & s' & Hrun & H1 & _ & _ & H4).
      rewrite Hrun. simpl. auto. }
  assert (Hview : forall s', tenantId s' = tid ->
            tenant_info (db (storage s'))
            = Some ({| ti_tenantId := tid; ti_dataJson := data |} :: rest) ->
            claimed tid s' /\ tenant_rows s' = tenant_rows s).
  { intros s' H1 H2. split; [split; eauto|].
    unfold tenant_rows. now rewrite H2, Hrows. }
  destruct c as [wiki doId assets now other name wikiType|wiki other wid| |];
    cbn [run_call].
  - specialize (Hinit other). cbv zeta in Hinit. destruct Hinit as [H1 H2].
    unfold createWiki, bind, on_tenant, on_wiki. simpl fst. simpl snd.
    destruct (initTables other s) as [[r|e] s1]; simpl in *; [|auto].
    destruct (WikiDO.create assets now other doId name wikiType wiki)
      as [[cr|e] k1]; simpl; [|auto].
    pose proof (insert_wiki_keeps
                  {| w_wikiId := doId; w_tenantId := other; w_name := name;
                     w_wikiType := wikiType;
                     w_createdAtMs := Some (WikiDO.c_createdAtMs cr) |} s1)
      as [K1 K2].
    destruct (insert_wiki _ s1) as [[[]|e] s2]; simpl in *;
      apply Hview; congruence.
  - specialize (Hinit other). cbv zeta in Hinit. destruct Hinit as [H1 H2].
    unfold deleteWiki, bind, on_tenant, on_wiki. simpl fst. simpl snd.
    destruct (initTables other s) as [[r|e] s1]; simpl in *; [|auto].
    pose proof (delete_wiki_row_keeps wid other s1) as [K1 K2].
    destruct (delete_wiki_row wid other s1) as [[[]|e] s2]; simpl in *.
    + pose proof (list_keeps enc s2) as K3.
      destruct (list_ enc s2) as [[l|e] s3]; simpl in *; subst s3;
        apply Hview; congruence.
    + apply Hview; congruence.
  - rewrite list_keeps. apply Hview; auto.
  - unfold wake, constructor. rewrite Hrows. simpl. apply Hview; auto.
Qed.

End TenantFacts.

(** * The claims *)

Import Shared Migrations WikiView SharedFacts WikiFacts TableFacts ReadFacts
  RoundTripFacts.

Lemma later_than_allb_ok wid now rows :
  later_than_allb wid now rows = true -> later_than_all wid now rows.
Proof.
  unfold later_than_allb, later_than_all. rewrite forallb_forall.
  intros H r Hr Hw. specialize (H r Hr).
  apply orb_true_iff in H as [H|H].
  - apply negb_true_iff, String.eqb_neq in H. contradiction.
  - now apply Z.ltb_lt.
Qed.

(** C1. Round trip: on a created document whose storage does not fail, an
    upsert of the body [B] at a timestamp later than every stored version of
    the document returns, and the [getFileSrc] that follows answers 200 with
    a stream whose chunks put together are exactly [B]; this holds for every
    [B], whatever the hint and however the reads cut the body, that is on
    the buffered and on the streaming branch alike. The payloads stored for
    the new timestamp, in [chunkIdx] order (the empty terminal row of the
    streaming branch included), put together are [B] as well. *)
Theorem C1_upsert_getFileSrc_roundtrip :
  forall (s : WikiDO.State) (wid : string) (now : Z) (B : bytes)
         (bytesStream : ReadableStream) (contentLength : option Z)
         (rows : list WikiDO.VersionRow),
    concat bytesStream = B ->
    wid <> ""%string -> WikiDO.wikiId s = wid ->
    has_versions s rows -> WikiDO.sqlFaultIn s = None ->
    later_than_all wid now rows ->
    exists s' resp s'',
      WikiDO.upsert now wid bytesStream contentLength s
        = (Ok {| WikiDO.u_ok := true |}, s')
      /\ WikiDO.getFileSrc wid s' = (Ok resp, s'')
      /\ status resp = 200
      /\ body_bytes resp = Some B
      /\ concat (WikiDO.select_chunks wid now (versions s')) = B.
Proof.
  intros s wid now B stream hint rows HB Hne Hw Hrows Hbudget Hlater.
  destruct (upsert_healthy now wid stream hint Hrows Hbudget)
    as (s' & Hup & Hrows' & Hcache & _ & Hw' & _).
  assert (Hstored : concat (WikiDO.select_chunks wid now (versions s')) = B).
  { unfold versions. rewrite Hrows'. subst B. now apply stored_roundtrip. }
  rewrite Hw in Hw'.
  destruct (WikiDO.buffered hint) eqn:Hbuf.
  - exists s', (WikiDO.makeStreamResponse (inl (concat stream))), s'.
    repeat split; auto.
    + now apply getFileSrc_cached.
    + unfold body_bytes; simpl. now rewrite app_nil_r, HB.
  - destruct (@getFileSrc_read wid s' _ Hne Hw' Hcache Hrows') as (s'' & Hget & _).
    destruct (@read_roundtrip now wid stream hint rows Hlater)
      as (resp & cache & Hread & Hst & Hbody).
    { rewrite Hbuf. discriminate. }
    rewrite Hread in Hget.
    exists s', resp, s''. subst B. repeat split; auto.
Qed.

Lemma C1_upsert_getFileSrc_roundtrip_witness :
  exists s' resp s'',
    WikiDO.upsert 2000 "W1" [[x61; x62]; [x63]] None notes
      = (Ok {| WikiDO.u_ok := true |}, s')
    /\ WikiDO.getFileSrc "W1" s' = (Ok resp, s'')
    /\ status resp = 200
    /\ body_bytes resp = Some [x61; x62; x63]
    /\ concat (WikiDO.select_chunks "W1" 2000 (versions s')) = [x61; x62; x63].
Proof.
  apply (@C1_upsert_getFileSrc_roundtrip notes "W1" 2000 [x61; x62; x63]
           [[x61; x62]; [x63]] None (versions notes)).
  - reflexivity.
  - discriminate.
  - reflexivity.
  - reflexivity.
  - reflexivity.
  - apply later_than_allb_ok. reflexivity.
Defined.

Import FaultFacts.

(** C2. Only complete versions are served. On a bound actor without a cached
    buffer, [getFileSrc] answers from the rows of one timestamp: the most
    recent one for which a row with [chunkIdx = chunksTotal] exists; every
    row it serves belongs to the document and to that timestamp, and it
    throws when the document has no such row. Moreover, when an [upsert] at
    a new timestamp throws before a row with [chunkIdx = chunksTotal] of that
    timestamp is in the table, the rows it left change nothing: the
    [getFileSrc] that follows (no cached buffer) gives what it gave before
    the [upsert], the previous complete version or the same error. *)
Theorem C2_only_complete_versions_served :
  forall (s : WikiDO.State) (wid : string) (rows : list WikiDO.VersionRow),
    wid <> ""%string -> WikiDO.wikiId s = wid -> has_versions s rows ->
    match fst (WikiDO.getFileSrc wid (WikiDO.set_fileSrc None s)) with
    | Ok resp =>
        exists t,
          In t rows /\ WikiDO.is_complete wid t = true
          /\ (forall r, In r rows -> WikiDO.is_complete wid r = true ->
                        WikiDO.v_tsMs r <= WikiDO.v_tsMs t)
          /\ body_bytes resp
             = Some (concat (map WikiDO.v_src (served wid (WikiDO.v_tsMs t) rows)))
          /\ (forall r, In r (served wid (WikiDO.v_tsMs t) rows) ->
                        In r rows /\ WikiDO.v_wikiId r = wid
                        /\ WikiDO.v_tsMs r = WikiDO.v_tsMs t)
    | Throw _ => forall r, In r rows -> WikiDO.is_complete wid r = false
    end
    /\ forall now bytesStream contentLength e s',
         later_than_all wid now rows ->
         WikiDO.upsert now wid bytesStream contentLength s = (Throw e, s') ->
         (forall r, In r (versions s') -> WikiDO.v_wikiId r = wid ->
                    WikiDO.v_tsMs r = now -> WikiDO.is_complete wid r = false) ->
         fst (WikiDO.getFileSrc wid (WikiDO.set_fileSrc None s'))
         = fst (WikiDO.getFileSrc wid (WikiDO.set_fileSrc None s)).
Proof.
  intros s wid rows Hne Hw Hrows.
  destruct (@getFileSrc_read wid (WikiDO.set_fileSrc None s) rows)
    as (s1 & Hget & _); auto.
  split.
  - rewrite Hget. simpl.
    pose proof (select_chunksInfo_spec wid rows) as Hspec.
    destruct (read_path wid rows) as [[resp cache]|e] eqn:Hread.
    + apply read_path_bytes in Hread as (t & Hsel & _ & Hb & _).
      rewrite Hsel in Hspec. destruct Hspec as (_ & Hin & Hc & Hmax).
      exists t. repeat split; auto.
      * apply isort_in, filter_In in H. tauto.
      * apply isort_in, filter_In in H as [_ H].
        apply andb_true_iff in H as [H _]. now apply String.eqb_eq.
      * apply isort_in, filter_In in H as [_ H].
        apply andb_true_iff in H as [_ H]. now apply Z.eqb_eq.
    + unfold read_path in Hread.
      destruct (WikiDO.select_chunksInfo wid rows) as [|t rest]; [exact Hspec|].
      destruct (WikiDO.chunksTotal_of t * WikiDO.CHUNK_SIZE_MAX
                  <? WikiDO.BYTE_SIZE_ATONCE_THRESHOLD); discriminate.
  - intros now stream hint e s' Hlater Hup Hpartial.
    destruct (@upsert_throws now wid stream hint s rows e s' Hrows Hlater Hup)
      as (Hid & extra & Hrows' & Hextra).
    destruct (@getFileSrc_read wid (WikiDO.set_fileSrc None s') (rows ++ extra))
      as (s2 & Hget' & _); auto; [simpl; congruence|].
    rewrite Hget, Hget'. simpl.
    rewrite (@read_path_partial wid now rows extra Hlater); [reflexivity|].
    intros r Hr. destruct (Hextra r Hr) as [Hrw Hrt].
    repeat split; auto.
    apply Hpartial; auto.
    unfold versions. unfold has_versions in Hrows'. rewrite Hrows'.
    apply in_or_app. now right.
Qed.

Lemma C2_only_complete_versions_served_witness :
  let s := WikiDO.set_sqlFaultIn notes (Some 1%nat) in
  let s' := snd (WikiDO.upsert 2000 "W1" [[x61]] None s) in
  fst (WikiDO.getFileSrc "W1" (WikiDO.set_fileSrc None s'))
  = fst (WikiDO.getFileSrc "W1" (WikiDO.set_fileSrc None s)).
Proof.
  intros s s'.
  refine (proj2 (@C2_only_complete_versions_served s "W1" (versions s) _ _ _)
            2000 [[x61]] None "storage fault"%string s' _ _ _).
  - discriminate.
  - reflexivity.
  - reflexivity.
  - apply later_than_allb_ok. reflexivity.
  - reflexivity.
  - vm_compute. intros r [<-|[<-|[]]] _; [discriminate|reflexivity].
Defined.

Import RetentionFacts.

(** A hint that is the length of the body sends no empty body down the
    buffered branch. *)
Lemma truthful_hint_writes (i : Ingest) :
  (forall n, hint i = Some n -> n = byteLength (concat (payload i))) ->
  writes_a_version i.
Proof.
  intros Htrue Hbuf Hempty. unfold WikiDO.buffered in Hbuf.
  destruct (hint i) as [n|]; [|discriminate].
  specialize (Htrue n eq_refl). rewrite Hempty in Htrue.
  subst n. discriminate.
Qed.

(** C3. Retention. An [upsert] on a storage that does not fail returns, and
    its retention step works on the table [written] that the ingest left:
    with [cts] the distinct timestamps of the complete versions of the
    document, most recent first, it deletes nothing when [cts] has fewer
    than 10 entries, and otherwise leaves exactly the rows of [written] that
    are not rows of the document with a timestamp below the tenth entry of
    [cts]. Hence after 15 upserts in a row at increasing timestamps, each
    later than what the table held and each writing a version (a body with
    bytes whenever the buffered branch is taken), the complete versions left
    are exactly those of the last 10 upserts, and no row of the document has
    the timestamp of one of the first 5. *)
Theorem C3_retention_keeps_ten :
  (forall (s : WikiDO.State) wid now bytesStream contentLength rows,
     has_versions s rows -> WikiDO.sqlFaultIn s = None ->
     exists s',
       WikiDO.upsert now wid bytesStream contentLength s
         = (Ok {| WikiDO.u_ok := true |}, s')
       /\ let written := insert_all (ingested now wid bytesStream contentLength) rows in
          let cts := complete_tss wid written in
          descending cts
          /\ (forall t, In t cts <->
                exists r, In r written /\ WikiDO.is_complete wid r = true
                          /\ WikiDO.v_tsMs r = t)
          /\ ((length cts < 10)%nat -> has_versions s' written)
          /\ ((10 <= length cts)%nat ->
              exists rows',
                has_versions s' rows'
                /\ forall r, In r rows' <->
                     In r written
                     /\ ~ (WikiDO.v_wikiId r = wid /\ WikiDO.v_tsMs r < nth 9 cts 0)))
  /\ (forall (s : WikiDO.State) wid (l : list Ingest) rows,
        has_versions s rows -> WikiDO.sqlFaultIn s = None ->
        length l = 15%nat -> increasing l ->
        later_than_all wid (hd 0 (map at_ms l)) rows ->
        Forall writes_a_version l ->
        exists s',
          upsert_all wid l s = (Ok tt, s')
          /\ complete_tss wid (versions s') = rev (map at_ms (skipn 5 l))
          /\ length (complete_tss wid (versions s')) = 10%nat
          /\ forall r, In r (versions s') -> WikiDO.v_wikiId r = wid ->
                       ~ In (WikiDO.v_tsMs r) (map at_ms (firstn 5 l))).
Proof.
  split.
  - intros s wid now stream hint rows Hrows Hbudget.
    destruct (@upsert_healthy now wid stream hint s rows Hrows Hbudget)
      as (s' & Hup & Hrows' & _).
    exists s'. split; [exact Hup|].
    intros written cts.
    destruct (retained_spec wid written) as [Hfew Hmany].
    split; [apply complete_tss_descending|].
    split; [intros t; apply complete_tss_in|].
    split.
    + intros Hlen. fold written in Hrows'. now rewrite (Hfew Hlen) in Hrows'.
    + intros Hlen. destruct (Hmany Hlen) as [Hdel _].
      fold written in Hrows'. rewrite Hdel in Hrows'.
      eexists. split; [exact Hrows'|].
      intros r. unfold WikiDO.delete_older. rewrite filter_In.
      rewrite negb_true_iff, andb_false_iff, String.eqb_neq, Z.ltb_ge.
      split; intros [Hin Hk]; (split; [assumption|]).
      * intros [Hw Ht]. destruct Hk; [contradiction|]. fold cts in H. lia.
      * fold cts. destruct (String.string_dec (WikiDO.v_wikiId r) wid) as [Hw|Hw];
          [right|now left].
        destruct (Z_lt_ge_dec (WikiDO.v_tsMs r) (nth 9 cts 0)); [|lia].
        exfalso. apply Hk. auto.
  - intros s wid l rows Hrows Hbudget Hlen Hinc Hfirst Hw.
    assert (Hlater : forall i, In i l -> later_than_all wid (at_ms i) rows).
    { destruct l as [|i0 rest]; [intros i []|].
      simpl in Hfirst. inversion Hinc as [|? ? _ Hall]; subst.
      rewrite Forall_forall in Hall.
      intros i [<-|Hi]; [assumption|].
      intros r Hr Hrw. specialize (Hfirst r Hr Hrw). specialize (Hall i Hi). lia. }
    destruct (@upsert_all_tss wid l s rows Hrows Hbudget Hinc Hlater Hw)
      as (s' & rows' & Hall & Hrows' & Htss & Hcut).
    exists s'. split; [exact Hall|].
    unfold versions. unfold has_versions in Hrows'. rewrite Hrows'.
    destruct Htss as [Htss|E]; [|subst l; discriminate].
    assert (Hten : complete_tss wid rows' = rev (map at_ms (skipn 5 l))).
    { rewrite Htss, firstn_app, length_rev, length_map, Hlen. simpl firstn at 2.
      rewrite app_nil_r, firstn_rev, length_map, Hlen, skipn_map. reflexivity. }
    assert (Hlen10 : length (complete_tss wid rows') = 10%nat).
    { rewrite Hten, length_rev, length_map, length_skipn, Hlen. reflexivity. }
    split; [exact Hten|]. split; [exact Hlen10|].
    intros r Hr Hrw Hold.
    assert (Hne : l <> []) by (intros ->; discriminate).
    specialize (Hcut Hne Hlen10 r Hr Hrw).
    apply in_map_iff in Hold as (x & Hx & Hxin).
    destruct (skipn 5 l) as [|j tl] eqn:Hskip.
    { apply (f_equal (@length _)) in Hskip. rewrite length_skipn, Hlen in Hskip.
      discriminate. }
    rewrite Hten in Hcut. cbn [map rev] in Hcut. rewrite last_last in Hcut.
    assert (Hlt : at_ms x < at_ms j).
    { apply (@sorted_app_lt _ (fun a b => at_ms a < at_ms b) (firstn 5 l) (skipn 5 l)).
      - now rewrite firstn_skipn.
      - assumption.
      - rewrite Hskip. now left. }
    lia.
Qed.

Lemma C3_retention_keeps_ten_witness :
  (exists s',
     WikiDO.upsert 2000 "W1" [[x61]] None notes = (Ok {| WikiDO.u_ok := true |}, s')
     /\ has_versions s' (insert_all (ingested 2000 "W1" [[x61]] None) (versions notes)))
  /\ exists s',
       upsert_all "W1" fifteen notes = (Ok tt, s')
       /\ complete_tss "W1" (versions s')
          = [2015; 2014; 2013; 2012; 2011; 2010; 2009; 2008; 2007; 2006]
       /\ forall r, In r (versions s') -> WikiDO.v_wikiId r = "W1"%string ->
                    ~ In (WikiDO.v_tsMs r) [2001; 2002; 2003; 2004; 2005].
Proof.
  split.
  - destruct (proj1 C3_retention_keeps_ten notes "W1"%string 2000 [[x61]] None (versions notes)
                eq_refl eq_refl) as (s' & Hup & _ & _ & Hfew & _).
    exists s'. split; [exact Hup|]. apply Hfew. vm_compute. lia.
  - destruct (proj2 C3_retention_keeps_ten notes "W1"%string fifteen (versions notes))
      as (s' & Hall & Htss & _ & Hgone).
    + reflexivity.
    + reflexivity.
    + reflexivity.
    + unfold increasing, fifteen. simpl. repeat constructor.
    + apply later_than_allb_ok. reflexivity.
    + unfold fifteen. simpl. repeat constructor; intros H; discriminate.
    + exists s'. split; [exact Hall|]. split; [exact Htss|exact Hgone].
Defined.

(** ** Delivery *)

Lemma full_chunk_length : byteLength full_chunk = WikiDO.CHUNK_SIZE_MAX.
Proof.
  unfold full_chunk, byteLength. rewrite repeat_length.
  apply Z2Nat.id. discriminate.
Qed.

(** Streaming two full reads from [notes]: four rows are written and the
    answer is given chunk by chunk. *)
Lemma two_full_reads_streamed (c : bytes) :
  byteLength c = WikiDO.CHUNK_SIZE_MAX ->
  exists s1 s2 t,
    WikiDO.upsert 2000 "W1" [c; c] None notes = (Ok {| WikiDO.u_ok := true |}, s1)
    /\ WikiDO.wikiId s1 = "W1"%string /\ WikiDO.fileSrc s1 = None
    /\ WikiDO.select_chunksInfo "W1" (versions s1) = [t]
    /\ WikiDO.select_chunks "W1" (WikiDO.v_tsMs t) (versions s1) = [c; c; []; []]
    /\ WikiDO.getFileSrc "W1" s1
       = (Ok (WikiDO.makeStreamResponse (inr [c; c; []; []])), s2)
    /\ WikiDO.fileSrc s2 = None.
Proof.
  intros Hc.
  destruct (@upsert_healthy 2000 "W1" [c; c] None notes (versions notes)
              eq_refl eq_refl) as (s1 & Hup & Hrows1 & Hcache & _ & Hw & _).
  assert (Hfl : flushed [c; c] [] 0 = [c; c; []]).
  { cbn [flushed app]. rewrite !mergeArrayBuffers_concat.
    cbn [concat app]. rewrite app_nil_r.
    replace (0 + byteLength c <? WikiDO.CHUNK_SIZE_MAX) with false
      by (rewrite Hc; reflexivity).
    reflexivity. }
  unfold ingested, streamed in Hrows1. cbn [WikiDO.buffered] in Hrows1.
  rewrite Hfl in Hrows1.
  remember (retained "W1" _) as rows1 eqn:E in Hrows1.
  vm_compute in E. subst rows1.
  destruct (@getFileSrc_read "W1" s1 _ ltac:(discriminate) Hw Hcache Hrows1)
    as (s2 & Hget & Hcache2 & _).
  match type of Hget with
  | context [read_path "W1"%string ?rows] =>
      assert (Hread : read_path "W1" rows
                      = Ok (WikiDO.makeStreamResponse (inr [c; c; []; []]), None))
        by (vm_compute; reflexivity)
  end.
  rewrite Hread in Hget, Hcache2.
  eexists s1, s2, _. unfold versions. rewrite Hrows1.
  repeat split; eassumption.
Qed.

(** C4, as stated, fails: a version of 3,000,000 bytes, written by the
    streaming branch from two reads of 1,500,000 bytes, is below 5 MB; read
    without a cached buffer it is not put together and not cached, but
    served as its four chunk rows. *)
Lemma C4_delivery_by_size_counterexample :
  byteLength (concat [full_chunk; full_chunk; []; []])
    < WikiDO.BYTE_SIZE_ATONCE_THRESHOLD
  /\ exists s1 s2 t,
       WikiDO.upsert 2000 "W1" [full_chunk; full_chunk] None notes
         = (Ok {| WikiDO.u_ok := true |}, s1)
       /\ WikiDO.wikiId s1 = "W1"%string /\ WikiDO.fileSrc s1 = None
       /\ WikiDO.select_chunksInfo "W1" (versions s1) = [t]
       /\ WikiDO.select_chunks "W1" (WikiDO.v_tsMs t) (versions s1)
          = [full_chunk; full_chunk; []; []]
       /\ WikiDO.getFileSrc "W1" s1
          = (Ok {| status := 200; contentType := Some "text/html"%string;
                   body := Chunks [full_chunk; full_chunk; []; []] |}, s2)
       /\ WikiDO.fileSrc s2 = None.
Proof.
  split.
  - cbn [concat]. rewrite !byteLength_app, full_chunk_length. reflexivity.
  - exact (@two_full_reads_streamed full_chunk full_chunk_length).
Qed.

(** C4, amended. On the read path without a cached buffer, the delivery is
    decided by the [chunksTotal] of the latest complete version, not by its
    size in bytes: when [chunksTotal * 1,500,000 < 5,000,000], that is when
    [chunksTotal <= 3], [getFileSrc] puts all chunks of the version together
    in one buffer, stores it in [fileSrc] and serves it as one chunk;
    otherwise it serves the chunk buffers of the rows one by one and leaves
    [fileSrc] empty. *)
Theorem C4_delivery_by_chunk_count :
  forall (s : WikiDO.State) wid rows t,
    wid <> ""%string -> WikiDO.wikiId s = wid -> WikiDO.fileSrc s = None ->
    has_versions s rows ->
    WikiDO.select_chunksInfo wid rows = [t] ->
    let chunks := WikiDO.select_chunks wid (WikiDO.v_tsMs t) rows in
    (WikiDO.chunksTotal_of t * WikiDO.CHUNK_SIZE_MAX < WikiDO.BYTE_SIZE_ATONCE_THRESHOLD
     <-> WikiDO.chunksTotal_of t <= 3)
    /\ exists s',
         (WikiDO.chunksTotal_of t <= 3 ->
          WikiDO.getFileSrc wid s
          = (Ok {| status := 200; contentType := Some "text/html"%string;
                   body := Chunks [concat chunks] |}, s')
          /\ WikiDO.fileSrc s' = Some (concat chunks))
         /\ (4 <= WikiDO.chunksTotal_of t ->
             WikiDO.getFileSrc wid s
             = (Ok {| status := 200; contentType := Some "text/html"%string;
                      body := Chunks chunks |}, s')
             /\ WikiDO.fileSrc s' = None).
Proof.
  intros s wid rows t Hne Hw Hcache Hrows Hsel chunks.
  assert (Hiff : WikiDO.chunksTotal_of t * WikiDO.CHUNK_SIZE_MAX
                   < WikiDO.BYTE_SIZE_ATONCE_THRESHOLD
                 <-> WikiDO.chunksTotal_of t <= 3).
  { unfold WikiDO.CHUNK_SIZE_MAX, WikiDO.BYTE_SIZE_ATONCE_THRESHOLD. lia. }
  split; [exact Hiff|].
  destruct (@getFileSrc_read wid s rows Hne Hw Hcache Hrows) as (s' & Hget & Hc' & _).
  exists s'. unfold read_path in Hget, Hc'. rewrite Hsel in Hget, Hc'.
  fold chunks in Hget, Hc'.
  destruct (WikiDO.chunksTotal_of t * WikiDO.CHUNK_SIZE_MAX
              <? WikiDO.BYTE_SIZE_ATONCE_THRESHOLD) eqn:Htest.
  - apply Z.ltb_lt, Hiff in Htest. split; intros H; [|lia].
    rewrite mergeArrayBuffers_concat in Hget, Hc'. split; assumption.
  - apply Z.ltb_ge in Htest. split; intros H.
    + apply Hiff in H. lia.
    + unfold WikiDO.makeStreamResponse in Hget. rewrite start_loop_all in Hget.
      split; assumption.
Qed.

Lemma C4_delivery_by_chunk_count_witness :
  exists s',
    WikiDO.getFileSrc "W1" (WikiDO.set_fileSrc None notes)
    = (Ok {| status := 200; contentType := Some "text/html"%string;
             body := Chunks [[x3c; x68; x31; x3e]] |}, s')
    /\ WikiDO.fileSrc s' = Some [x3c; x68; x31; x3e].
Proof.
  destruct (@C4_delivery_by_chunk_count (WikiDO.set_fileSrc None notes) "W1"
              (versions notes)
              {| WikiDO.v_wikiId := "W1"; WikiDO.v_tsMs := 1000;
                 WikiDO.v_src := [x3c; x68; x31; x3e];
                 WikiDO.v_chunkIdx := 1; WikiDO.v_chunksTotal := Some 1 |})
    as (_ & s' & Hsmall & _).
  - discriminate.
  - reflexivity.
  - reflexivity.
  - reflexivity.
  - reflexivity.
  - exists s'. apply Hsmall. vm_compute. discriminate.
Defined.

Import BatchFacts.

(** ** Ingestion branches *)

(** C5, as stated, fails: the hint 0 is known and below the threshold, yet
    [upsert] takes the streaming branch: it writes a row without
    [chunksTotal] and the terminal row, and leaves [fileSrc] empty. *)
Lemma C5_zero_hint_streams_counterexample :
  0 < WikiDO.BYTE_SIZE_ATONCE_THRESHOLD
  /\ WikiDO.buffered (Some 0) = false
  /\ exists s',
       WikiDO.upsert 2000 "W1" [] (Some 0) notes = (Ok {| WikiDO.u_ok := true |}, s')
       /\ WikiDO.fileSrc s' = None
       /\ versions s'
          = versions notes
              ++ [ {| WikiDO.v_wikiId := "W1"; WikiDO.v_tsMs := 2000;
                      WikiDO.v_src := []; WikiDO.v_chunkIdx := 1;
                      WikiDO.v_chunksTotal := None |};
                   {| WikiDO.v_wikiId := "W1"; WikiDO.v_tsMs := 2000;
                      WikiDO.v_src := []; WikiDO.v_chunkIdx := 2;
                      WikiDO.v_chunksTotal := Some 2 |} ].
Proof.
  split; [reflexivity|]. split; [reflexivity|].
  eexists. split; [vm_compute; reflexivity|]. split; reflexivity.
Qed.

(** C5, amended. [upsert] takes the buffered branch exactly when the hint is
    a number other than 0 and below 5,000,000; an absent hint, the hint 0
    and a hint at or above the threshold take the streaming branch. On the
    buffered branch the whole body is put in one buffer and cut by
    [chunkify]; every row of the batch carries [chunksTotal], the number of
    chunks; whatever the storage does, the table ends up as it was or with
    all rows of the batch (pruned or not by the retention step); and on a
    storage that does not fail the call returns with the batch written and
    [fileSrc] holding the buffer. On the streaming branch, on a storage that
    does not fail, the call returns with the streamed rows written and
    [fileSrc] empty. *)
Theorem C5_ingestion_branch :
  forall (s : WikiDO.State) now wid bytesStream contentLength rows,
    has_versions s rows ->
    (WikiDO.buffered contentLength = true <->
     exists n, contentLength = Some n /\ n <> 0 /\ n < 5000000)
    /\ (WikiDO.buffered contentLength = true ->
        let batch := batched wid now (concat bytesStream) in
        let written := insert_all batch rows in
        map WikiDO.v_src batch = chunkify (concat bytesStream) WikiDO.CHUNK_SIZE_MAX
        /\ (forall r, In r batch ->
                      WikiDO.v_chunksTotal r = Some (Z.of_nat (length batch)))
        /\ (forall o s',
              WikiDO.upsert now wid bytesStream contentLength s = (o, s') ->
              has_versions s' rows \/ has_versions s' written
              \/ has_versions s' (retained wid written))
        /\ (WikiDO.sqlFaultIn s = None ->
            exists s',
              WikiDO.upsert now wid bytesStream contentLength s
                = (Ok {| WikiDO.u_ok := true |}, s')
              /\ has_versions s' (retained wid written)
              /\ WikiDO.fileSrc s' = Some (concat bytesStream)))
    /\ (WikiDO.buffered contentLength = false ->
        WikiDO.sqlFaultIn s = None ->
        exists s',
          WikiDO.upsert now wid bytesStream contentLength s
            = (Ok {| WikiDO.u_ok := true |}, s')
          /\ has_versions s'
               (retained wid (insert_all (streamed wid now bytesStream) rows))
          /\ WikiDO.fileSrc s' = None).
Proof.
  intros s now wid stream hint rows Hrows.
  split; [|split].
  - unfold WikiDO.buffered, WikiDO.BYTE_SIZE_ATONCE_THRESHOLD.
    destruct hint as [n|].
    + rewrite andb_true_iff, negb_true_iff, Z.eqb_neq, Z.ltb_lt. split.
      * intros [? ?]. exists n. auto.
      * intros (m & E & ? & ?). inversion E; subst. auto.
    + split; [discriminate|]. intros (m & E & _). discriminate.
  - intros Hbuf batch written.
    split; [apply numbered_src|]. split; [|split].
    + intros r Hr. unfold batch, batched in *.
      rewrite numbered_length. apply numbered_in in Hr. tauto.
    + intros o s' Hup.
      exact (@buffered_all_or_nothing now wid stream hint s rows Hrows Hbuf o s' Hup).
    + intros Hbudget.
      destruct (@upsert_healthy now wid stream hint s rows Hrows Hbudget)
        as (s' & Hup & Hrows' & Hcache & _).
      unfold ingested in Hrows'. rewrite Hbuf in Hrows', Hcache.
      exists s'. auto.
  - intros Hbuf Hbudget.
    destruct (@upsert_healthy now wid stream hint s rows Hrows Hbudget)
      as (s' & Hup & Hrows' & Hcache & _).
    unfold ingested in Hrows'. rewrite Hbuf in Hrows', Hcache.
    exists s'. auto.
Qed.

Lemma C5_ingestion_branch_witness :
  (exists s',
     WikiDO.upsert 2000 "W1" [[x61; x62]; [x63]] (Some 3) notes
       = (Ok {| WikiDO.u_ok := true |}, s')
     /\ WikiDO.fileSrc s' = Some [x61; x62; x63])
  /\ (exists s',
        WikiDO.upsert 2000 "W1" [[x61; x62]; [x63]] None notes
          = (Ok {| WikiDO.u_ok := true |}, s')
        /\ WikiDO.fileSrc s' = None).
Proof.
  split.
  - destruct (@C5_ingestion_branch notes 2000 "W1" [[x61; x62]; [x63]] (Some 3)
                (versions notes) eq_refl) as (_ & Hbuffered & _).
    destruct (Hbuffered eq_refl) as (_ & _ & _ & Hok).
    destruct (Hok eq_refl) as (s' & Hup & _ & Hcache).
    exists s'. split; assumption.
  - destruct (@C5_ingestion_branch notes 2000 "W1" [[x61; x62]; [x63]] None
                (versions notes) eq_refl) as (_ & _ & Hstreamed).
    destruct (Hstreamed eq_refl eq_refl) as (s' & Hup & _ & Hcache).
    exists s'. split; assumption.
Defined.

Import BoundFacts.

(** ** Identity *)

(** C6. [getFileSrc] on an actor whose [wikiId] is not set, or is not the
    requested one, answers with status 400 and the text body "_|_", and
    leaves the actor as it is; an actor that was never created (its store
    has no [wiki_info] table when the object is made) and an actor after
    [deleteAll] are such actors. On an actor bound to the requested id the
    call serves the cached buffer when there is one, and the read path on
    the table otherwise. *)
Theorem C6_identity_guard :
  forall (s : WikiDO.State) (wid : string),
    (WikiDO.wikiId s = ""%string \/ WikiDO.wikiId s <> wid ->
     WikiDO.getFileSrc wid s
     = (Ok {| status := 400;
              contentType := Some "text/plain;charset=UTF-8"%string;
              body := Text "_|_" |}, s))
    /\ (WikiDO.wikiId s <> ""%string -> WikiDO.wikiId s = wid ->
        (forall cached,
           WikiDO.fileSrc s = Some cached ->
           WikiDO.getFileSrc wid s
           = (Ok {| status := 200; contentType := Some "text/html"%string;
                    body := Chunks [cached] |}, s))
        /\ (WikiDO.fileSrc s = None ->
            forall rows, has_versions s rows ->
              fst (WikiDO.getFileSrc wid s)
              = match read_path wid rows with
                | Ok (resp, _) => Ok resp
                | Throw e => Throw e
                end))
    /\ (forall st faults,
          WikiDO.wiki_info (db st) = None ->
          exists s0,
            WikiDO.constructor st faults = Ok s0
            /\ WikiDO.getFileSrc wid s0 = (Ok WikiDO.bad_request, s0))
    /\ WikiDO.getFileSrc wid (snd (WikiDO.deleteAll s))
       = (Ok WikiDO.bad_request, snd (WikiDO.deleteAll s)).
Proof.
  intros s wid. split; [|split; [|split]].
  - apply getFileSrc_unbound.
  - intros Hne Hw. split.
    + intros cached Hc. apply getFileSrc_cached; congruence.
    + intros Hc rows Hrows.
      destruct (@getFileSrc_read wid s rows) as (s' & Hget & _); try congruence.
      now rewrite Hget.
  - intros st faults Hinfo. unfold WikiDO.constructor. rewrite Hinfo.
    eexists. split; [reflexivity|]. apply getFileSrc_unbound. now left.
  - apply getFileSrc_unbound. now left.
Qed.

Lemma C6_identity_guard_witness :
  WikiDO.getFileSrc "W2" notes
  = (Ok {| status := 400; contentType := Some "text/plain;charset=UTF-8"%string;
           body := Text "_|_" |}, notes)
  /\ WikiDO.getFileSrc "W1" notes
     = (Ok {| status := 200; contentType := Some "text/html"%string;
              body := Chunks [[x3c; x68; x31; x3e]] |}, notes).
Proof.
  split.
  - apply (proj1 (C6_identity_guard notes "W2")).
    right. discriminate.
  - refine (proj1 (proj1 (proj2 (C6_identity_guard notes "W1")) _ _)
              [x3c; x68; x31; x3e] _).
    + discriminate.
    + reflexivity.
    + reflexivity.
Defined.

(** ** Chunk sizes *)

Lemma ceil_div_tight (a b : Z) :
  0 < b -> (Shared.ceil_div a b - 1) * b < a <= Shared.ceil_div a b * b.
Proof.
  intros Hb. unfold Shared.ceil_div.
  pose proof (Z.div_mod (a + b - 1) b ltac:(lia)).
  pose proof (Z.mod_pos_bound (a + b - 1) b Hb). nia.
Qed.

(** C7. No chunk row is larger than 1,500,000 bytes. [chunkify] cuts a
    buffer into as many slices as the ceiling of its length over 1,500,000,
    each of at most 1,500,000 bytes. Every row that [create] or [upsert]
    leaves in [wiki_versions], whatever the storage does and whether the
    call returns or throws, was there before or has a payload of at most
    1,500,000 bytes, the reads of the streaming branch being those of
    [readAtLeast] with a buffer of 1,500,000 bytes; and a row written by the
    streaming branch either has no [chunksTotal] or is the terminal row,
    with [chunksTotal = chunkIdx] and a payload of no bytes. *)
Theorem C7_chunk_rows_bounded :
  (forall bb : bytes,
     let n := Z.of_nat (length (chunkify bb 1500000)) in
     n = Shared.ceil_div (byteLength bb) 1500000
     /\ (n - 1) * 1500000 < byteLength bb <= n * 1500000
     /\ Forall (fun c => byteLength c <= 1500000) (chunkify bb 1500000))
  /\ (forall (s : WikiDO.State) assets now tid wid name wikiType r,
        In r (versions (snd (WikiDO.create assets now tid wid name wikiType s))) ->
        In r (versions s) \/ byteLength (WikiDO.v_src r) <= 1500000)
  /\ (forall (s : WikiDO.State) now wid bytesStream contentLength,
        (WikiDO.buffered contentLength = false ->
         readAtLeast_reads 1500000 bytesStream = true) ->
        forall r,
          In r (versions (snd (WikiDO.upsert now wid bytesStream contentLength s))) ->
          In r (versions s)
          \/ (byteLength (WikiDO.v_src r) <= 1500000
              /\ (WikiDO.buffered contentLength = false ->
                  WikiDO.v_chunksTotal r = None
                  \/ (WikiDO.v_src r = []
                      /\ WikiDO.v_chunksTotal r = Some (WikiDO.v_chunkIdx r))))).
Proof.
  split; [|split].
  - intros bb n. unfold n.
    rewrite chunkify_length by reflexivity.
    split; [reflexivity|]. split.
    + apply ceil_div_tight. reflexivity.
    + apply chunkify_bounded. discriminate.
  - intros s assets now tid wid name wikiType r Hr.
    apply (@create_rows_small (versions s) assets now tid wid name wikiType s);
      [intros x Hx; now left|exact Hr].
  - intros s now wid stream hint Hreads r Hr.
    destruct (@upsert_rows_small (versions s) now wid stream hint Hreads s
                ltac:(intros x Hx; now left) r Hr) as [Hold|[Hsmall Hrow]].
    + now left.
    + right. split; [exact Hsmall|].
      intros Hbuf. destruct (Hrow Hbuf) as [_ Hshape]. exact Hshape.
Qed.

Lemma C7_chunk_rows_bounded_witness :
  Forall (fun r => In r (versions notes)
                   \/ (byteLength (WikiDO.v_src r) <= 1500000
                       /\ (WikiDO.v_chunksTotal r = None
                           \/ (WikiDO.v_src r = []
                               /\ WikiDO.v_chunksTotal r = Some (WikiDO.v_chunkIdx r)))))
    (versions (snd (WikiDO.upsert 2000 "W1" [[x61; x62]] None notes))).
Proof.
  apply Forall_forall. intros r Hr.
  destruct (proj2 (proj2 C7_chunk_rows_bounded) notes 2000 "W1"%string [[x61; x62]] None
              (fun _ => eq_refl) r Hr) as [Hold|[Hsmall Hshape]].
  - now left.
  - right. split; [exact Hsmall|]. apply Hshape. reflexivity.
Defined.

(** ** The tenant actor *)

Import TenantView TenantFacts MigrationView MigrationFacts.

Lemma initTables_wiki_rows tid (s : TenantDO.State) :
  wiki_rows (snd (TenantDO.initTables tid s)) = wiki_rows s.
Proof.
  destruct (TenantFacts.migrate_keeps s) as (_ & _ & Hwk & _).
  unfold TenantDO.initTables, bind.
  destruct (TenantDO.migrate s) as [[r|e] s1]; simpl in *; [|exact Hwk].
  unfold get.
  destruct (negb (TenantDO.tenantId s1 =? "")%string).
  - destruct (negb (TenantDO.tenantId s1 =? tid)%string); exact Hwk.
  - unfold TenantDO.insert_tenant_info, TenantDO.sql_write.
    destruct (TenantDO.tenant_info (db (TenantDO.storage s1))) as [t|]; [|exact Hwk].
    destruct (existsb _ t); simpl; exact Hwk.
Qed.

(** C8. The first [_initTables] that returns on an actor that is not bound
    and has no [tenant_info] row binds it to the (non-empty) id presented:
    the field and the one [tenant_info] row hold that id. On an actor bound
    to [tid], [_initTables], [createWiki] and [deleteWiki] presenting another
    id throw, and leave the bound id, the [tenant_info] rows and the [wikis]
    rows as they were. Once claimed, the actor stays claimed by [tid] and
    its [tenant_info] rows stay the same through every sequence of calls,
    the object being made anew over its storage included. *)
Theorem C8_tenant_binding :
  forall (encodeURIComponent : string -> string) (s : TenantDO.State) (tid : string),
    tid <> ""%string ->
    (TenantDO.tenantId s = ""%string -> tenant_rows s = [] ->
     forall r s',
       TenantDO.initTables tid s = (Ok r, s') ->
       r = tid /\ claimed tid s'
       /\ tenant_rows s'
          = [ {| TenantDO.ti_tenantId := tid; TenantDO.ti_dataJson := "{}" |} ])
    /\ (TenantDO.tenantId s = tid ->
        forall other, other <> tid ->
          (exists e s',
             TenantDO.initTables other s = (Throw e, s')
             /\ TenantDO.tenantId s' = tid /\ tenant_rows s' = tenant_rows s)
          /\ (forall wiki doId assets now name wikiType,
                exists e s',
                  TenantDO.createWiki doId assets now other name wikiType (s, wiki)
                    = (Throw e, (s', wiki))
                  /\ TenantDO.tenantId s' = tid /\ tenant_rows s' = tenant_rows s
                  /\ wiki_rows s' = wiki_rows s)
          /\ (forall wiki wikiId_,
                exists e s',
                  TenantDO.deleteWiki encodeURIComponent other wikiId_ (s, wiki)
                    = (Throw e, (s', wiki))
                  /\ TenantDO.tenantId s' = tid /\ tenant_rows s' = tenant_rows s
                  /\ wiki_rows s' = wiki_rows s))
    /\ (claimed tid s ->
        forall calls,
          claimed tid (run_calls encodeURIComponent calls s)
          /\ tenant_rows (run_calls encodeURIComponent calls s) = tenant_rows s).
Proof.
  intros enc s tid Hne. split; [|split].
  - intros Hunbound Hnone r s' Hrun.
    destruct (TenantFacts.migrate_keeps s) as (Hid & Hti & _ & _).
    unfold TenantDO.initTables, bind in Hrun.
    destruct (TenantDO.migrate s) as [[rd|e] s1]; simpl in *; [|discriminate].
    unfold get in Hrun. rewrite Hid, Hunbound in Hrun. simpl in Hrun.
    unfold TenantDO.insert_tenant_info, TenantDO.sql_write in Hrun.
    unfold tenant_rows in Hti, Hnone. rewrite Hnone in Hti.
    destruct (TenantDO.tenant_info (db (TenantDO.storage s1))) as [t|];
      [|discriminate].
    subst t. simpl in Hrun. inversion Hrun; subst. clear Hrun.
    split; [reflexivity|]. split; [|reflexivity].
    split; [reflexivity|]. simpl. eauto.
  - intros Hb other Hother.
    destruct (@initTables_other tid other s Hne Hb Hother)
      as (e & s' & Hrun & H1 & H2 & H3 & _).
    split; [|split].
    + exists e, s'. auto.
    + intros wiki doId assets now name wikiType. exists e, s'.
      split; [|auto].
      unfold TenantDO.createWiki.
      erewrite bind_throw; [reflexivity|].
      unfold TenantDO.on_tenant. simpl. now rewrite Hrun.
    + intros wiki wid. exists e, s'. split; [|auto].
      unfold TenantDO.deleteWiki.
      erewrite bind_throw; [reflexivity|].
      unfold TenantDO.on_tenant. simpl. now rewrite Hrun.
  - intros Hclaimed calls. revert s Hclaimed.
    induction calls as [|c calls IH]; intros s Hclaimed; [split; auto|].
    cbn [run_calls fold_left].
    destruct (@claimed_run_call enc tid c s Hne Hclaimed) as [Hc Hrows].
    destruct (IH _ Hc) as [Hc' Hrows'].
    split; [exact Hc'|]. unfold run_calls in Hrows'. congruence.
Qed.

Lemma C8_tenant_binding_witness :
  let s1 := snd (TenantDO.initTables "T1" new_tenant) in
  claimed "T1" s1
  /\ (exists e s',
        TenantDO.initTables "T2" s1 = (Throw e, s')
        /\ TenantDO.tenantId s' = "T1"%string /\ tenant_rows s' = tenant_rows s1)
  /\ claimed "T1" (run_calls (fun x => x) [Wake; List] s1).
Proof.
  intros s1.
  assert (Hne : "T1"%string <> ""%string) by discriminate.
  assert (Hclaimed : claimed "T1" s1).
  { apply (proj1 (@C8_tenant_binding (fun x => x) new_tenant "T1" Hne)
             eq_refl eq_refl "T1"%string s1 eq_refl). }
  split; [exact Hclaimed|]. split.
  - apply (proj1 (proj2 (@C8_tenant_binding (fun x => x) s1 "T1" Hne)) eq_refl "T2"%string).
    discriminate.
  - apply (proj2 (proj2 (@C8_tenant_binding (fun x => x) s1 "T1" Hne)) Hclaimed).
Defined.

Lemma insert_wiki_rows row (s : TenantDO.State) :
  wiki_rows (snd (TenantDO.insert_wiki row s)) = wiki_rows s
  \/ wiki_rows (snd (TenantDO.insert_wiki row s))
     = filter (fun x => negb (TenantDO.w_wikiId x =? TenantDO.w_wikiId row)%string)
         (wiki_rows s) ++ [row].
Proof.
  unfold TenantDO.insert_wiki, TenantDO.sql_write, wiki_rows.
  destruct (TenantDO.wikis (db (TenantDO.storage s))) as [rows|] eqn:Hw; simpl.
  - destruct (TenantDO.wikis_createdAtMs (db (TenantDO.storage s))); simpl.
    + now right.
    + left. now rewrite Hw.
  - left. now rewrite Hw.
Qed.

(** C9. The index row is written only after the wiki actor's [create] has
    returned. [create] throws on a type other than "tw5" and when fetching
    the template fails. When [create] throws, [createWiki] throws, the
    [wikis] rows are the ones there were, and a later [list] does not
    contain the new id (an id that was not in the index). Whenever the
    [wikis] rows differ after [createWiki], [create] has returned a result,
    and the rows are the former ones, without a row of that id, followed by
    the row [{wikiId, tenantId, name, wikiType, createdAtMs}]. *)
Theorem C9_index_row_after_create :
  forall (encodeURIComponent : string -> string) (s : TenantDO.State)
         (wiki : WikiDO.State) doId assets now tid name wikiType,
    ((wikiType <> "tw5"%string \/ assets = None) ->
     exists e wiki',
       WikiDO.create assets now tid doId name wikiType wiki = (Throw e, wiki'))
    /\ (forall e wiki',
          WikiDO.create assets now tid doId name wikiType wiki = (Throw e, wiki') ->
          exists e' w',
            TenantDO.createWiki doId assets now tid name wikiType (s, wiki)
              = (Throw e', w')
            /\ wiki_rows (fst w') = wiki_rows s
            /\ (~ In doId (map TenantDO.w_wikiId (wiki_rows s)) ->
                forall l s'',
                  TenantDO.list_ encodeURIComponent (fst w') = (Ok l, s'') ->
                  ~ In doId (map TenantDO.a_wikiId l)))
    /\ (forall o w',
          TenantDO.createWiki doId assets now tid name wikiType (s, wiki) = (o, w') ->
          wiki_rows (fst w') <> wiki_rows s ->
          exists r wiki',
            WikiDO.create assets now tid doId name wikiType wiki = (Ok r, wiki')
            /\ snd w' = wiki'
            /\ wiki_rows (fst w')
               = filter (fun x => negb (TenantDO.w_wikiId x =? doId)%string) (wiki_rows s)
                   ++ [ {| TenantDO.w_wikiId := doId; TenantDO.w_tenantId := tid;
                           TenantDO.w_name := name; TenantDO.w_wikiType := wikiType;
                           TenantDO.w_createdAtMs := Some (WikiDO.c_createdAtMs r) |} ]).
Proof.
  intros enc s wiki doId assets now tid name wikiType.
  split; [|split].
  - intros Hbad. unfold WikiDO.create.
    destruct (wikiType =? "tw5")%string eqn:Htype.
    + destruct Hbad as [Hbad|Hnone].
      * apply String.eqb_eq in Htype. contradiction.
      * subst assets. do 2 eexists. erewrite bind_throw; reflexivity.
    + do 2 eexists. erewrite bind_throw; reflexivity.
  - intros e wiki' Hcreate.
    pose proof (initTables_wiki_rows tid s) as Hrows.
    unfold TenantDO.createWiki, bind, TenantDO.on_tenant, TenantDO.on_wiki.
    simpl fst. simpl snd.
    assert (Hlist : forall s1, wiki_rows s1 = wiki_rows s ->
              ~ In doId (map TenantDO.w_wikiId (wiki_rows s)) ->
              forall l s'',
                TenantDO.list_ enc s1 = (Ok l, s'') ->
                ~ In doId (map TenantDO.a_wikiId l)).
    { intros s1 Hs1 Hfresh l s'' Hl. unfold TenantDO.list_ in Hl.
      destruct (TenantDO.tenantId s1 =? "")%string.
      - inversion Hl; subst. intros [].
      - destruct (TenantDO.wikis (db (TenantDO.storage s1))) as [rows|] eqn:Hw;
          [|discriminate].
        assert (Hr : wiki_rows s1 = rows) by (unfold wiki_rows; now rewrite Hw).
        injection Hl as Hl _. rewrite <- Hl, map_map. cbn [TenantDO.a_wikiId].
        change (map (fun x => TenantDO.w_wikiId x) rows)
          with (map TenantDO.w_wikiId rows).
        now rewrite <- Hr, Hs1. }
    destruct (TenantDO.initTables tid s) as [[r|e0] s1]; simpl in *.
    + rewrite Hcreate. simpl. do 2 eexists. split; [reflexivity|].
      simpl. split; [exact Hrows|]. now apply Hlist.
    + do 2 eexists. split; [reflexivity|].
      simpl. split; [exact Hrows|]. now apply Hlist.
  - intros o w' Hrun Hchanged.
    pose proof (initTables_wiki_rows tid s) as Hrows.
    unfold TenantDO.createWiki, bind, TenantDO.on_tenant, TenantDO.on_wiki in Hrun.
    simpl fst in Hrun. simpl snd in Hrun.
    destruct (TenantDO.initTables tid s) as [[r0|e0] s1]; simpl in *.
    + destruct (WikiDO.create assets now tid doId name wikiType wiki)
        as [[r|e] wiki'] eqn:Hcreate; simpl in Hrun.
      * pose proof (insert_wiki_rows
                      {| TenantDO.w_wikiId := doId; TenantDO.w_tenantId := tid;
                         TenantDO.w_name := name; TenantDO.w_wikiType := wikiType;
                         TenantDO.w_createdAtMs := Some (WikiDO.c_createdAtMs r) |} s1)
          as Hins.
        destruct (TenantDO.insert_wiki _ s1) as [[[]|e] s2];
          inversion Hrun; subst; simpl in *;
          (destruct Hins as [Hins|Hins]; [exfalso; apply Hchanged; congruence|]);
          exists r, wiki'; rewrite <- Hrows; auto.
      * inversion Hrun; subst; simpl in *. contradiction.
    + inversion Hrun; subst; simpl in *. contradiction.
Qed.

Lemma C9_index_row_after_create_witness :
  exists e' w',
    TenantDO.createWiki "D1" (Some [x61]) 1000 "T1" "Notes" "md"
      (new_tenant, new_actor) = (Throw e', w')
    /\ wiki_rows (fst w') = wiki_rows new_tenant.
Proof.
  destruct (@C9_index_row_after_create (fun x => x) new_tenant new_actor "D1"
              (Some [x61]) 1000 "T1" "Notes" "md") as (Hthrows & Hnone & _).
  destruct Hthrows as (e & wiki' & Hcreate); [left; discriminate|].
  destruct (Hnone e wiki' Hcreate) as (e' & w' & Hrun & Hrows & _).
  exists e', w'. split; assumption.
Defined.

(** ** The migration runner *)

(** C10. [runAll] of the runner modelled from the specification, on a list
    of migrations with distinct ids: the migrations it sets out to apply are
    exactly those of the list whose id is above the stored high-water mark,
    in strictly ascending order of id. When it returns, all of them have
    been applied in that order, the mark is the id of the last one, and a
    second [runAll] right after it reports no row read or written and
    leaves the store as it is. When it throws, the migrations before the
    failing one have been applied, the mark is the id of the last of them,
    and the store is the one a run of just those migrations leaves: the
    failing migration has left no trace and is the first one of a retry. *)
Theorem C10_runAll_applies_pending :
  forall (DB : Type) (exec : Ddl -> DB -> option (DB * RowsData))
         (ms : list SchemaMigration) (st : Store DB),
    NoDup (map idMonotonicInc ms) ->
    let todo := pending ms (lastMigrationId st) in
    (forall m, In m todo <->
       In m ms /\ forall h, lastMigrationId st = Some h -> h < idMonotonicInc m)
    /\ ascending todo
    /\ match runAll exec ms st with
       | (Ok _, st') =>
           applied st' = applied st ++ map idMonotonicInc todo
           /\ lastMigrationId st' = mark_after todo (lastMigrationId st)
           /\ runAll exec ms st' = (Ok no_rows, st')
       | (Throw _, st') =>
           exists done m rest acc r,
             todo = done ++ m :: rest
             /\ run_pending exec done no_rows st = (Ok r, st')
             /\ applied st' = applied st ++ map idMonotonicInc done
             /\ lastMigrationId st' = mark_after done (lastMigrationId st)
             /\ exec_all exec (sql m) (db st') acc = None
       end.
Proof.
  intros DB exec ms st Hnd todo.
  split; [|split].
  - intros m. unfold todo. rewrite pending_in, is_pending_true. reflexivity.
  - now apply pending_ascending.
  - unfold runAll. fold todo.
    pose proof (run_pending_spec exec todo no_rows st) as Hspec.
    destruct (run_pending exec todo no_rows st) as [[r|e] st'].
    + destruct Hspec as [Hlog Hmark]. repeat split; auto.
      rewrite Hmark. unfold todo. now rewrite nothing_pending_after.
    + exact Hspec.
Qed.

Lemma C10_runAll_applies_pending_witness :
  let st' := snd (runAll TenantDO.exec TenantDO.TenantMigrations TenantDO.fresh_store) in
  applied st' = [1; 2]
  /\ lastMigrationId st' = Some 2
  /\ runAll TenantDO.exec TenantDO.TenantMigrations st' = (Ok no_rows, st').
Proof.
  assert (Hnd : NoDup (map idMonotonicInc TenantDO.TenantMigrations)).
  { simpl. repeat constructor; simpl; intuition discriminate. }
  pose proof (@C10_runAll_applies_pending _ TenantDO.exec TenantDO.TenantMigrations
                TenantDO.fresh_store Hnd) as H.
  destruct H as (_ & _ & H).
  exact H.
Defined.

(** * Further properties *)

(** ** Chunks of a buffer *)

Module ChunkFacts.

Lemma subarray_exact (bb : bytes) (a b : Z) :
  0 <= a <= b -> b <= byteLength bb -> byteLength (subarray bb a b) = b - a.
Proof.
  intros Hab Hb. unfold subarray, byteLength in *.
  rewrite length_firstn, length_skipn. lia.
Qed.

(** Chunk [i] of the loop is the slice from [r + i * chunkSz], as far as
    the buffer goes. *)
Lemma chunkify_loop_nth (bb : bytes) (chunkSz : Z) (n : nat) :
  0 < chunkSz ->
  forall (i : nat) (r : Z),
    (i < n)%nat -> 0 <= r <= byteLength bb ->
    nth i (chunkify_loop bb chunkSz n r) []
    = subarray bb (Z.min (r + Z.of_nat i * chunkSz) (byteLength bb))
        (Z.min (r + (Z.of_nat i + 1) * chunkSz) (byteLength bb)).
Proof.
  intros Hsz. induction n as [|n IH]; intros i r Hi Hr; [lia|].
  destruct i as [|i]; cbn [chunkify_loop nth].
  - f_equal; lia.
  - rewrite IH by lia.
    destruct (Z_le_gt_dec (r + chunkSz) (byteLength bb)) as [Hle|Hgt].
    + rewrite (Z.min_l (r + chunkSz)) by lia. f_equal; f_equal; lia.
    + rewrite (Z.min_r (r + chunkSz)) by lia.
      rewrite !Z.min_r by nia. reflexivity.
Qed.

End ChunkFacts.

Import ChunkFacts.

(** X1. Cutting a buffer into chunks of any positive size and merging the
    chunks gives the buffer back, byte for byte. *)
Theorem X1_chunkify_merge_roundtrip :
  forall (bb : bytes) (chunkSz : Z),
    0 < chunkSz -> mergeArrayBuffers (chunkify bb chunkSz) = bb.
Proof.
  intros bb chunkSz Hsz.
  rewrite mergeArrayBuffers_concat. now apply chunkify_concat.
Qed.

Lemma X1_chunkify_merge_roundtrip_witness :
  0 < 2 /\ mergeArrayBuffers (chunkify [x61; x62; x63; x64; x65] 2)
           = [x61; x62; x63; x64; x65].
Proof.
  split; [lia | apply (@X1_chunkify_merge_roundtrip [x61; x62; x63; x64; x65] 2); lia].
Defined.

(** X2. The shape of the chunks: an empty buffer has none; every chunk
    but the last has exactly [chunkSz] bytes, the last one has the bytes
    that are left; no chunk is empty and none is longer than [chunkSz]. *)
Theorem X2_chunkify_chunk_sizes :
  forall (bb : bytes) (chunkSz : Z),
    0 < chunkSz ->
    let chunks := chunkify bb chunkSz in
    (bb = [] -> chunks = [])
    /\ (forall i, (i < length chunks)%nat ->
          byteLength (nth i chunks [])
          = if (S i <? length chunks)%nat then chunkSz
            else byteLength bb - Z.of_nat i * chunkSz)
    /\ Forall (fun c => 0 < byteLength c <= chunkSz) chunks.
Proof.
  intros bb chunkSz Hsz chunks.
  pose proof (byteLength_nonneg bb) as Hn.
  pose proof (chunkify_length bb Hsz) as Hlen. fold chunks in Hlen.
  pose proof (ceil_div_tight (byteLength bb) Hsz) as Htight.
  rewrite <- Hlen in Htight.
  assert (Hnth : forall i, (i < length chunks)%nat ->
            byteLength (nth i chunks [])
            = if (S i <? length chunks)%nat then chunkSz
              else byteLength bb - Z.of_nat i * chunkSz).
  { intros i Hi. unfold chunks, chunkify.
    unfold chunks, chunkify in Hi. rewrite chunkify_loop_length in Hi.
    rewrite chunkify_loop_nth by lia.
    unfold chunks, chunkify in Htight. rewrite chunkify_loop_length in *.
    set (n := Z.to_nat (ceil_div (byteLength bb) chunkSz)) in *.
    destruct (S i <? n)%nat eqn:Hlast.
    - apply Nat.ltb_lt in Hlast.
      assert (H1 : (Z.of_nat i + 1) * chunkSz <= (Z.of_nat n - 1) * chunkSz) by nia.
      assert (H2 : 0 <= Z.of_nat i * chunkSz) by nia.
      rewrite !Z.min_l by lia.
      rewrite subarray_exact by lia. lia.
    - apply Nat.ltb_ge in Hlast.
      assert (i = (n - 1)%nat) by lia. subst i.
      assert (H1 : Z.of_nat (n - 1) = Z.of_nat n - 1) by lia.
      rewrite H1 in *.
      replace ((Z.of_nat n - 1 + 1) * chunkSz) with (Z.of_nat n * chunkSz) by lia.
      assert (H2 : 0 <= (Z.of_nat n - 1) * chunkSz) by nia.
      rewrite Z.min_l by lia. rewrite Z.min_r by lia.
      rewrite subarray_exact by lia. lia. }
  split; [|split].
  - intros ->. change (byteLength []) with 0 in Htight.
    destruct chunks as [|c rest]; [reflexivity|].
    cbn [length] in Htight. nia.
  - exact Hnth.
  - apply Forall_forall. intros c Hc.
    destruct (In_nth _ _ [] Hc) as (i & Hi & <-).
    cbv beta. pose proof (Hnth i Hi) as Hsize. unfold bytes in *. rewrite Hsize.
    destruct (S i <? length chunks)%nat eqn:Hlast; [lia|].
    apply Nat.ltb_ge in Hlast. nia.
Qed.

Lemma X2_chunkify_chunk_sizes_witness :
  0 < 2
  /\ Forall (fun c => 0 < byteLength c <= 2)
        (chunkify [x61; x62; x63; x64; x65] 2).
Proof.
  split; [lia|].
  apply (@X2_chunkify_chunk_sizes [x61; x62; x63; x64; x65] 2). lia.
Defined.

(** X3. [mergeArrayBuffers] returns the chunks one after the other, empty
    chunks included: its length is the sum of their lengths, nothing is
    left of the zero bytes the buffer is allocated with, and merging two
    lists of chunks one after the other merges each and appends. *)
Theorem X3_mergeArrayBuffers_concat :
  forall chunks more : list bytes,
    mergeArrayBuffers chunks = concat chunks
    /\ byteLength (mergeArrayBuffers chunks)
       = fold_right (fun c n => byteLength c + n) 0 chunks
    /\ mergeArrayBuffers (chunks ++ more)
       = mergeArrayBuffers chunks ++ mergeArrayBuffers more.
Proof.
  intros chunks more. rewrite !mergeArrayBuffers_concat. split; [reflexivity|split].
  - induction chunks as [|c rest IH]; [reflexivity|].
    cbn [concat fold_right]. rewrite byteLength_app, IH. reflexivity.
  - apply concat_app.
Qed.

(** ** The API key *)

Module AuthFacts.
Import Auth AuthView.
Local Open Scope string_scope.

Lemma truthy_true (s : string) : truthy s = true <-> s <> "".
Proof. destruct s; simpl; split; congruence. Qed.

Lemma indexOf_from_range (x : string) (arr : list string) (i : Z) :
  0 <= i -> indexOf_from x arr i = -1 \/ i <= indexOf_from x arr i.
Proof.
  revert i; induction arr as [|y rest IH]; intros i Hi; simpl; [now left|].
  destruct (y =? x); [right; lia|].
  destruct (IH (i + 1)%Z ltac:(lia)); [now left | right; lia].
Qed.

Lemma indexOf_from_in (x : string) (arr : list string) (i : Z) :
  0 <= i -> (indexOf_from x arr i <? 0)%Z = negb (existsb (String.eqb x) arr).
Proof.
  revert i; induction arr as [|y rest IH]; intros i Hi; simpl; [reflexivity|].
  rewrite (String.eqb_sym x y).
  destruct (y =? x); simpl.
  - apply Z.ltb_ge; lia.
  - apply IH; lia.
Qed.

(** [arr.indexOf(x) < 0] says that [x] is not in [arr]. *)
Lemma indexOf_neg (arr : list string) (x : string) :
  (indexOf arr x <? 0)%Z = false <-> In x arr.
Proof.
  unfold indexOf. rewrite indexOf_from_in by lia.
  rewrite negb_false_iff, existsb_exists. split.
  - intros (y & Hy & E). apply String.eqb_eq in E. now subst.
  - intros H. exists x. split; [assumption | apply String.eqb_refl].
Qed.

Lemma csvKeys_configured (env : CfEnv) (keys : list string) (key : string) :
  csvKeys env = Some keys -> (In key keys <-> configured env key).
Proof.
  unfold csvKeys, configured. destruct (VAR_API_AUTH_ADMIN_KEYS_CSV env) as [csv|];
    simpl; [|discriminate].
  intros [= <-]. rewrite filter_In, truthy_true. split.
  - intros [Hin Hne]. now exists csv.
  - intros (csv' & [= <-] & Hin & Hne). now split.
Qed.

Lemma length_append (a b : string) :
  String.length (a ++ b) = (String.length a + String.length b)%nat.
Proof. induction a; simpl; congruence. Qed.

Lemma drop_append (a b : string) : drop (String.length a) (a ++ b) = b.
Proof. induction a; simpl; [now destruct b | assumption]. Qed.

Lemma take_append (a b : string) : take (String.length a) (a ++ b) = a.
Proof. induction a; simpl; [reflexivity | congruence]. Qed.

Lemma lastIndexOf_absent (c : ascii) (s : string) (i found : Z) :
  occurs c s = false -> lastIndexOf_from c s i found = found.
Proof.
  revert i found; induction s as [|x r IH]; intros i found H; simpl in *;
    [reflexivity|].
  apply orb_false_iff in H as [Hx Hr]. rewrite Hx. now apply IH.
Qed.

(** The last [c] of [a ++ c :: b] is the one shown when [b] has none. *)
Lemma lastIndexOf_from_last (c : ascii) (a b : string) (i found : Z) :
  occurs c b = false ->
  lastIndexOf_from c (a ++ String c b) i found = (i + Z.of_nat (String.length a))%Z.
Proof.
  intros Hb. revert i found; induction a as [|x a IH]; intros i found.
  - simpl. rewrite Ascii.eqb_refl, lastIndexOf_absent by assumption. lia.
  - cbn [append lastIndexOf_from String.length]. rewrite IH. lia.
Qed.

(** The part of a key between its first seven characters and its last
    underscore. *)
Lemma slice_tenant (pre tenant token : string) :
  String.length pre = 7%nat ->
  occurs "_" token = false ->
  let key := pre ++ tenant ++ String "_" token in
  lastIndexOf key "_" = (7 + Z.of_nat (String.length tenant))%Z
  /\ slice key prefix_length (lastIndexOf key "_") = tenant.
Proof.
  intros Hpre Htok key.
  assert (Hidx : lastIndexOf key "_" = (7 + Z.of_nat (String.length tenant))%Z).
  { unfold lastIndexOf, key.
    replace (pre ++ tenant ++ String "_" token)
      with ((pre ++ tenant) ++ String "_" token).
    - rewrite lastIndexOf_from_last by assumption.
      rewrite length_append. lia.
    - clear. induction pre; simpl; congruence. }
  split; [exact Hidx|].
  rewrite Hidx. unfold slice, prefix_length.
  assert (Hlen : Z.of_nat (String.length key)
                 = (7 + Z.of_nat (String.length tenant) + 1
                    + Z.of_nat (String.length token))%Z).
  { unfold key. rewrite !length_append. cbn [String.length]. lia. }
  rewrite Hlen. change (Z.of_nat (String.length "tf_key_")) with 7%Z.
  cbv zeta.
  replace (7 <? 0)%Z with false by reflexivity.
  replace (7 + Z.of_nat (String.length tenant) <? 0)%Z with false
    by (symmetry; apply Z.ltb_ge; lia).
  rewrite !Z.min_l by lia.
  replace (Z.to_nat (7 + Z.of_nat (String.length tenant) - 7))
    with (String.length tenant) by lia.
  replace (Z.to_nat 7) with (String.length pre) by lia.
  unfold key. rewrite drop_append. apply take_append.
Qed.

(** The tenant that a configured key of the shape
    [pre ++ tenant ++ "_" ++ token] authenticates as. *)
Lemma apiKeyAuth_parse (env : CfEnv) (header pre tenant token : string) :
  VAR_API_AUTH_ENABLED env = true ->
  configured env (trim header) ->
  trim header = pre ++ tenant ++ String "_" token ->
  String.length pre = 7%nat ->
  occurs "_" token = false ->
  apiKeyAuth env (Some header)
  = if truthy (trim tenant) then Returns (trim tenant)
    else Raises (HTTPException 403 "Tiddlyflare-Api-Key is malformed").
Proof.
  intros Hon Hcfg Hkey Hpre Htok.
  unfold apiKeyAuth. rewrite Hon. cbn [negb option_map].
  destruct (trim header) as [|k0 krest] eqn:Hk.
  { destruct Hcfg as (_ & _ & _ & Hne). congruence. }
  rewrite <- Hk in *.
  destruct (csvKeys env) as [keys|] eqn:Hkeys.
  2:{ destruct Hcfg as (csv & Hcsv & _). unfold csvKeys in Hkeys.
      rewrite Hcsv in Hkeys. discriminate. }
  apply (csvKeys_configured env (trim header)) in Hkeys as Hin.
  apply Hin, indexOf_neg in Hcfg. rewrite Hcfg.
  destruct (slice_tenant pre tenant token Hpre Htok) as [Hidx Hslice].
  rewrite Hkey, Hslice, Hidx.
  replace (7 + Z.of_nat (String.length tenant) <? 0)%Z with false
    by (symmetry; apply Z.ltb_ge; lia).
  destruct (truthy (trim tenant)); reflexivity.
Qed.

End AuthFacts.

Import Auth AuthView AuthFacts.

(** X4. What [apiKeyAuth] returns is never the empty string. With the
    authentication off it is ['tiddlyflare-public']; with it on, the
    trimmed header is one of the configured keys and the tenant is the
    trimmed part of that key between its seventh character and its last
    underscore. *)
Theorem X4_apiKeyAuth_sound :
  forall (env : Auth.CfEnv) (header : option string) (t : string),
    apiKeyAuth env header = Returns t ->
    t <> ""%string
    /\ ((VAR_API_AUTH_ENABLED env = false /\ t = "tiddlyflare-public"%string)
        \/ (VAR_API_AUTH_ENABLED env = true
            /\ exists h,
                 header = Some h
                 /\ configured env (trim h)
                 /\ 0 <= lastIndexOf (trim h) "_"
                 /\ t = trim (slice (trim h) 7 (lastIndexOf (trim h) "_")))).
Proof.
  intros env header t. unfold apiKeyAuth.
  destruct (VAR_API_AUTH_ENABLED env) eqn:Hon; cbn [negb].
  2:{ intros [= <-]. split; [discriminate | left; now split]. }
  destruct header as [h|]; cbn [option_map]; [|discriminate].
  destruct (trim h) as [|k0 krest] eqn:Hk; [discriminate|]. rewrite <- Hk.
  destruct (csvKeys env) as [keys|] eqn:Hkeys; [|discriminate].
  destruct (indexOf keys (trim h) <? 0) eqn:Hidx; [discriminate|].
  destruct (lastIndexOf (trim h) "_" <? 0) eqn:Hsep; [discriminate|].
  destruct (truthy (trim (slice (trim h) prefix_length (lastIndexOf (trim h) "_"))))
    eqn:Htenant; cbn [negb]; [|discriminate].
  intros [= <-]. split; [now apply truthy_true|].
  right. split; [reflexivity|]. exists h. repeat split.
  - apply (csvKeys_configured env (trim h) Hkeys). now apply indexOf_neg.
  - now apply Z.ltb_ge.
Qed.

Lemma X4_apiKeyAuth_sound_witness :
  apiKeyAuth (keys_env "tf_key_alice_s3cret, tf_key_bob_t0ken")
    (Some " tf_key_bob_t0ken"%string) = Returns "bob"%string
  /\ "bob"%string <> ""%string.
Proof.
  split; [reflexivity|].
  apply (@X4_apiKeyAuth_sound (keys_env "tf_key_alice_s3cret, tf_key_bob_t0ken")
           (Some " tf_key_bob_t0ken"%string) "bob"%string).
  reflexivity.
Defined.



(** X6. A configured key that is seven characters, a tenant id, an
    underscore and a token without underscore authenticates as that
    tenant id, trimmed; white space around the key in the header does
    not matter. *)
Theorem X6_apiKeyAuth_parses_key :
  forall (env : Auth.CfEnv) (header pre tenant token : string),
    VAR_API_AUTH_ENABLED env = true ->
    configured env (trim header) ->
    trim header = (pre ++ tenant ++ String "_" token)%string ->
    String.length pre = 7%nat ->
    occurs "_" token = false ->
    trim tenant <> ""%string ->
    apiKeyAuth env (Some header) = Returns (trim tenant).
Proof.
  intros env header pre tenant token Hon Hcfg Hkey Hpre Htok Hten.
  rewrite (@apiKeyAuth_parse env header pre tenant token Hon Hcfg Hkey Hpre Htok).
  apply truthy_true in Hten. now rewrite Hten.
Qed.

Lemma X6_apiKeyAuth_parses_key_witness :
  apiKeyAuth (keys_env ",tf_key_team_one_s3cret, tf_key_bob_t0ken ,")
    (Some "  tf_key_team_one_s3cret "%string)
  = Returns "team_one"%string.
Proof.
  apply (@X6_apiKeyAuth_parses_key
           (keys_env ",tf_key_team_one_s3cret, tf_key_bob_t0ken ,")
           "  tf_key_team_one_s3cret " "tf_key_" "team_one" "s3cret").
  - reflexivity.
  - exists ",tf_key_team_one_s3cret, tf_key_bob_t0ken ,"%string.
    split; [reflexivity|]. split; [|discriminate].
    right. left. reflexivity.
  - reflexivity.
  - reflexivity.
  - reflexivity.
  - discriminate.
Defined.

(** X7. A key in the format of the README, [t_key_<TENANT>_<TOKEN>],
    has a prefix of six characters where the code skips seven: it
    authenticates as the tenant id without its first character, so two
    such keys whose tenant ids differ in the first character only
    authenticate as the same tenant. *)
Theorem X7_readme_key_drops_first_character :
  forall (env : Auth.CfEnv) (h1 h2 : string) (c1 c2 : ascii)
         (tenant token1 token2 : string),
    VAR_API_AUTH_ENABLED env = true ->
    configured env (trim h1) -> configured env (trim h2) ->
    trim h1 = ("t_key_" ++ String c1 tenant ++ String "_" token1)%string ->
    trim h2 = ("t_key_" ++ String c2 tenant ++ String "_" token2)%string ->
    occurs "_" token1 = false -> occurs "_" token2 = false ->
    trim tenant <> ""%string ->
    apiKeyAuth env (Some h1) = Returns (trim tenant)
    /\ apiKeyAuth env (Some h2) = Returns (trim tenant).
Proof.
  intros env h1 h2 c1 c2 tenant token1 token2 Hon Hc1 Hc2 Hk1 Hk2 Ht1 Ht2 Hten.
  apply truthy_true in Hten.
  split.
  - rewrite (@apiKeyAuth_parse env h1 ("t_key_" ++ String c1 "") tenant token1
               Hon Hc1 Hk1 eq_refl Ht1).
    now rewrite Hten.
  - rewrite (@apiKeyAuth_parse env h2 ("t_key_" ++ String c2 "") tenant token2
               Hon Hc2 Hk2 eq_refl Ht2).
    now rewrite Hten.
Qed.

Lemma X7_readme_key_drops_first_character_witness :
  apiKeyAuth (keys_env ",t_key_TENANT1111_sometoken,t_key_XENANT1111_other")
    (Some "t_key_TENANT1111_sometoken"%string) = Returns "ENANT1111"%string
  /\ apiKeyAuth (keys_env ",t_key_TENANT1111_sometoken,t_key_XENANT1111_other")
       (Some "t_key_XENANT1111_other"%string) = Returns "ENANT1111"%string.
Proof.
  apply (@X7_readme_key_drops_first_character
           (keys_env ",t_key_TENANT1111_sometoken,t_key_XENANT1111_other")
           "t_key_TENANT1111_sometoken" "t_key_XENANT1111_other"
           "T" "X" "ENANT1111" "sometoken" "other").
  - reflexivity.
  - exists ",t_key_TENANT1111_sometoken,t_key_XENANT1111_other"%string.
    split; [reflexivity|]. split; [|discriminate].
    right. left. reflexivity.
  - exists ",t_key_TENANT1111_sometoken,t_key_XENANT1111_other"%string.
    split; [reflexivity|]. split; [|discriminate].
    right. right. left. reflexivity.
  - reflexivity.
  - reflexivity.
  - reflexivity.
  - reflexivity.
  - discriminate.
Defined.

(** ** The wiki actor from its creation on *)

Module ActorFacts.
Import WikiDO WikiActor WikiActorView.

(** [create] on an actor whose storage is empty. *)
Lemma create_fresh (k : State) (b : bytes) (now : Z) (tid wid name : string) :
  storage k = fresh_store -> sqlFaultIn k = None ->
  create (Some b) now tid wid name "tw5" k
  = (Ok {| c_ok := true;
           c_redirectUrl := ("/w/" ++ wid ++ "/" ++ name)%string;
           c_createdAtMs := now |},
     {| storage := store_of [ {| i_wikiId := wid; i_tenantId := tid;
                                 i_name := name; i_wikiType := "tw5" |} ]
                            (batched wid now b);
        sqlFaultIn := None; fileSrc := Some b;
        wikiId := wid; tenantId := tid |}).
Proof.
  destruct k as [st faults cache w t]. cbn [storage sqlFaultIn].
  intros -> ->.
  unfold create. cbn [String.eqb Ascii.eqb Bool.eqb].
  erewrite bind_ok by reflexivity.
  erewrite bind_ok by reflexivity.
  set (info := {| i_wikiId := wid; i_tenantId := tid; i_name := name;
                  i_wikiType := "tw5" |}).
  set (s1 := {| storage := store_of [info] []; sqlFaultIn := None;
                fileSrc := Some b; wikiId := w; tenantId := t |}).
  assert (Hbody :
    (insert_info info ;;;
     write_chunks wid now (Z.of_nat (length (chunkify b CHUNK_SIZE_MAX)))
       (chunkify b CHUNK_SIZE_MAX) 0)%exec
      {| storage := store_of [] []; sqlFaultIn := None;
         fileSrc := Some b; wikiId := w; tenantId := t |}
    = (Ok tt, with_versions s1 (batched wid now b))).
  { erewrite bind_ok by reflexivity.
    change (set_sqlFaultIn _ _) with (with_versions s1 []).
    rewrite write_chunks_healthy.
    rewrite insert_all_numbered by (intros x []).
    reflexivity. }
  change (set_storage _ _)
    with {| storage := store_of [] []; sqlFaultIn := None;
            fileSrc := Some b; wikiId := w; tenantId := t |}.
  erewrite bind_ok.
  2:{ unfold transactionSync. rewrite Hbody. reflexivity. }
  reflexivity.
Qed.

(** The read path on a table that holds one buffered version. *)
Lemma read_path_batched (wid : string) (now : Z) (b : bytes) :
  b <> [] ->
  exists resp cache,
    read_path wid (batched wid now b) = Ok (resp, cache)
    /\ status resp = 200
    /\ body_bytes resp = Some b.
Proof.
  intros Hb.
  assert (Hnew : forall r, In r (batched wid now b) ->
                   v_wikiId r = wid /\ v_tsMs r = now).
  { intros r Hr. apply numbered_in in Hr. tauto. }
  destruct (@numbered_last wid now
              (Some (Z.of_nat (length (chunkify b CHUNK_SIZE_MAX))))
              (chunkify b CHUNK_SIZE_MAX) 0) as (t & Ht & Hidx).
  { apply chunkify_nonempty; [reflexivity | assumption]. }
  assert (Hc : is_complete wid t = true).
  { apply is_complete_true. apply numbered_in in Ht as (Hw & _ & Htot & _).
    split; [assumption|]. rewrite Htot, Hidx. reflexivity. }
  destruct (@select_chunksInfo_fresh wid now [] (batched wid now b) t)
    as (t' & Hsel & Hin' & Hc'); auto.
  { intros r []. }
  cbn [app] in Hsel.
  destruct (read_path wid (batched wid now b)) as [[resp cache]|e] eqn:Hread.
  - exists resp, cache. split; [reflexivity|].
    apply read_path_bytes in Hread as (t2 & Hsel2 & Hst & Hbody & _).
    rewrite Hsel in Hsel2. inversion Hsel2; subst t2.
    destruct (Hnew t' Hin') as [_ Hts]. rewrite Hts in Hbody.
    split; [assumption|]. rewrite Hbody. f_equal.
    assert (Hsc : select_chunks wid now ([] ++ batched wid now b)
                  = map v_src (batched wid now b)).
    { apply select_chunks_fresh;
        [intros r [] | assumption | apply numbered_sorted]. }
    cbn [app] in Hsc. rewrite Hsc.
    unfold batched. rewrite numbered_src.
    apply chunkify_concat. reflexivity.
  - unfold read_path in Hread. rewrite Hsel in Hread.
    destruct (chunksTotal_of t' * CHUNK_SIZE_MAX <? BYTE_SIZE_ATONCE_THRESHOLD);
      discriminate.
Qed.

End ActorFacts.

Import WikiActor WikiActorView ActorFacts.

(** X8. A wiki made by [create] on an actor with an empty storage (a new
    one, or one that [deleteAll] has reset) is served at once from the
    cache; when the object is made anew over its storage, the constructor
    finds the identity again, [findTenantId] gives the tenant, and
    [getFileSrc] serves the bytes of the template from the stored
    chunks. *)
Theorem X8_create_wake_read_roundtrip :
  forall (k : WikiDO.State) (b : bytes) (now : Z) (tid wid name : string),
    WikiDO.storage k = WikiDO.fresh_store -> WikiDO.sqlFaultIn k = None ->
    wid <> ""%string -> b <> [] ->
    exists k1 k2 resp k3,
      WikiDO.create (Some b) now tid wid name "tw5" k
      = (Ok {| WikiDO.c_ok := true;
               WikiDO.c_redirectUrl := ("/w/" ++ wid ++ "/" ++ name)%string;
               WikiDO.c_createdAtMs := now |}, k1)
      /\ WikiDO.getFileSrc wid k1 = (Ok (WikiDO.makeStreamResponse (inl b)), k1)
      /\ wake k1 = Ok k2
      /\ WikiDO.wikiId k2 = wid /\ WikiDO.tenantId k2 = tid
      /\ WikiDO.fileSrc k2 = None
      /\ findTenantId k2 = (Ok tid, k2)
      /\ WikiDO.getFileSrc wid k2 = (Ok resp, k3)
      /\ status resp = 200
      /\ body_bytes resp = Some b.
Proof.
  intros k b now tid wid name Hst Hfault Hwid Hb.
  rewrite (@create_fresh k b now tid wid name Hst Hfault).
  set (info := {| WikiDO.i_wikiId := wid; WikiDO.i_tenantId := tid;
                  WikiDO.i_name := name; WikiDO.i_wikiType := "tw5" |}).
  set (k1 := {| WikiDO.storage := store_of [info] (batched wid now b);
                WikiDO.sqlFaultIn := None; WikiDO.fileSrc := Some b;
                WikiDO.wikiId := wid; WikiDO.tenantId := tid |}).
  set (k2 := WikiDO.set_fileSrc None k1).
  destruct (@read_path_batched wid now b Hb) as (resp & cache & Hread & Hstatus & Hbody).
  destruct (@getFileSrc_read wid k2 (batched wid now b) Hwid eq_refl eq_refl eq_refl)
    as (k3 & Hget & _).
  rewrite Hread in Hget.
  exists k1, k2, resp, k3.
  split; [reflexivity|].
  split; [now apply getFileSrc_cached|].
  repeat split; assumption.
Qed.

Lemma X8_create_wake_read_roundtrip_witness :
  exists k1 k2 resp k3,
    WikiDO.create (Some [x3c; x68; x31; x3e]) 1000 "T1" "W1" "Notes" "tw5" new_actor
    = (Ok {| WikiDO.c_ok := true;
             WikiDO.c_redirectUrl := ("/w/" ++ "W1" ++ "/" ++ "Notes")%string;
             WikiDO.c_createdAtMs := 1000 |}, k1)
    /\ WikiDO.getFileSrc "W1" k1
       = (Ok (WikiDO.makeStreamResponse (inl [x3c; x68; x31; x3e])), k1)
    /\ wake k1 = Ok k2
    /\ WikiDO.wikiId k2 = "W1"%string /\ WikiDO.tenantId k2 = "T1"%string
    /\ WikiDO.fileSrc k2 = None
    /\ findTenantId k2 = (Ok "T1"%string, k2)
    /\ WikiDO.getFileSrc "W1" k2 = (Ok resp, k3)
    /\ status resp = 200
    /\ body_bytes resp = Some [x3c; x68; x31; x3e].
Proof.
  apply (@X8_create_wake_read_roundtrip new_actor [x3c; x68; x31; x3e] 1000
           "T1" "W1" "Notes").
  - reflexivity.
  - reflexivity.
  - discriminate.
  - discriminate.
Defined.

(** ** Saving to an actor that holds no wiki *)

Module UnboundFacts.
Import WikiDO WikiActor WikiActorView.

(** The first step of [upsert] on an empty storage makes the two tables. *)
Lemma upsert_fresh (k : State) now wid stream hint :
  storage k = fresh_store ->
  upsert now wid stream hint k
  = upsert now wid stream hint (set_storage k (store_of [] [])).
Proof.
  destruct k as [st faults cache w t]. cbn [storage]. intros ->.
  unfold upsert.
  erewrite bind_ok by reflexivity.
  symmetry. erewrite bind_ok by reflexivity.
  reflexivity.
Qed.

(** On an empty table the retention keeps every row of the ingest. *)
Lemma retained_first (now : Z) (wid : string) (stream : ReadableStream)
    (hint : option Z) :
  retained wid (insert_all (ingested now wid stream hint) [])
  = ingested now wid stream hint.
Proof.
  destruct (@upsert_table now wid stream hint []) as (kept & E & Hincl).
  { intros r []. }
  rewrite E. destruct kept as [|r kept]; [reflexivity|].
  destruct (Hincl r (or_introl eq_refl)).
Qed.

Section Identity.
Variables (info : list InfoRow) (wid tid : string).

Local Abbreviation bound := (bound_to info wid tid).

Lemma bound_sql_write (f : DB -> outcome DB) :
  (forall d d', f d = Ok d' -> wiki_info d' = wiki_info d) ->
  keeps bound (sql_write f).
Proof.
  intros Hf s (Hi & Hw & Ht). unfold sql_write.
  destruct (sqlFaultIn s) as [[|n]|]; [now split| |];
    (destruct (f (db (storage s))) as [d'|e] eqn:E; [|now split];
     split; [simpl; rewrite (Hf _ _ E); exact Hi | now split]).
Qed.

Lemma bound_insert_version (r : VersionRow) : keeps bound (insert_version r).
Proof.
  apply bound_sql_write. intros d d'.
  destruct (wiki_versions d); [intros [= <-]; reflexivity | discriminate].
Qed.

Lemma bound_write_chunks w ts total chunks :
  forall i, keeps bound (write_chunks w ts total chunks i).
Proof.
  induction chunks as [|c rest IH]; intros i; cbn [write_chunks].
  - apply keeps_ret.
  - apply keeps_bind; [apply bound_insert_version | intros _; apply IH].
Qed.

Lemma bound_stream_loop w ts reads :
  forall bufs total idx, keeps bound (stream_loop w ts reads bufs total idx).
Proof.
  induction reads as [|v rest IH]; intros bufs total idx; cbn [stream_loop].
  - apply keeps_bind; [apply bound_insert_version | intros _; apply keeps_ret].
  - destruct (total + byteLength v <? CHUNK_SIZE_MAX); [apply IH|].
    apply keeps_bind; [apply bound_insert_version | intros _; apply IH].
Qed.

Lemma bound_transaction {A} (body : M State A) :
  keeps bound body -> keeps bound (transactionSync body).
Proof.
  intros Hbody s Hs. unfold transactionSync.
  specialize (Hbody s Hs).
  destruct (body s) as [[a|e] s1]; simpl in *; [assumption|].
  destruct Hs as (Hi & _), Hbody as (_ & Hw & Ht). now split.
Qed.

Lemma bound_migrate : keeps bound migrate.
Proof.
  intros s (Hi & Hw & Ht).
  destruct (migrate_ok s) as (r & s1 & Hm & _ & _ & Hinfo & _ & _ & Hw1 & Ht1).
  rewrite Hm; simpl. rewrite Hi in Hinfo. split; [assumption|split; congruence].
Qed.

Lemma bound_retain w : keeps bound (retain w).
Proof.
  unfold retain. apply keeps_bind.
  - intros s Hs. unfold select_versions.
    destruct (wiki_versions (db (storage s))); exact Hs.
  - intros rows.
    destruct (_ <? _); [apply keeps_ret|].
    apply bound_sql_write. intros d d'.
    destruct (wiki_versions d); [intros [= <-]; reflexivity | discriminate].
Qed.

(** [upsert] leaves the identity of the actor alone, however it ends. *)
Lemma bound_upsert now w stream hint : keeps bound (upsert now w stream hint).
Proof.
  unfold upsert.
  apply keeps_bind; [apply bound_migrate | intros _].
  apply keeps_bind; [apply keeps_modify; intros s Hs; exact Hs | intros _].
  apply keeps_bind.
  - destruct (buffered hint).
    + apply keeps_bind; [apply bound_transaction, bound_write_chunks | intros _].
      apply keeps_modify. intros s Hs; exact Hs.
    + apply keeps_bind; [apply bound_stream_loop | intros idx].
      apply bound_insert_version.
  - intros _. apply keeps_bind; [apply bound_transaction, bound_retain | intros _].
    apply keeps_ret.
Qed.

End Identity.

End UnboundFacts.

Import UnboundFacts.

(** X9. [upsert] does not look at the actor's identity. On an actor that
    holds no wiki (a new one, or one that [deleteAll] has reset) it
    succeeds and stores the rows of the body, and it leaves a [wiki_info]
    table without a row: [getFileSrc] still answers 400 for the id, and
    once the object is made anew over its storage the constructor
    throws. *)
Theorem X9_upsert_on_unbound_actor :
  forall (k : WikiDO.State) (now : Z) (wid : string)
         (bytesStream : ReadableStream) (contentLength : option Z),
    WikiDO.storage k = WikiDO.fresh_store -> WikiDO.sqlFaultIn k = None ->
    WikiDO.wikiId k = ""%string ->
    exists k1,
      WikiDO.upsert now wid bytesStream contentLength k
      = (Ok {| WikiDO.u_ok := true |}, k1)
      /\ WikiDO.wikiId k1 = ""%string
      /\ WikiDO.wiki_info (db (WikiDO.storage k1)) = Some []
      /\ versions k1 = ingested now wid bytesStream contentLength
      /\ WikiDO.getFileSrc wid k1 = (Ok WikiDO.bad_request, k1)
      /\ wake k1
         = Throw "Expected exactly one result from SQL query, but got no results.".
Proof.
  intros k now wid stream hint Hst Hfault Hunbound.
  rewrite (@upsert_fresh k now wid stream hint Hst).
  destruct (@upsert_healthy now wid stream hint
              (WikiDO.set_storage k (store_of [] [])) [] eq_refl Hfault)
    as (k1 & Hup & Hrows & _ & _ & Hwid & _).
  rewrite retained_first in Hrows.
  exists k1. split; [exact Hup|].
  assert (Hb : bound_to [] "" (WikiDO.tenantId k) k1).
  { pose proof (@bound_upsert [] "" (WikiDO.tenantId k) now wid stream hint
                  (WikiDO.set_storage k (store_of [] []))) as H.
    rewrite Hup in H. apply H. now split. }
  destruct Hb as (Hinfo & Hw1 & _).
  split; [assumption|]. split; [assumption|].
  split; [unfold versions; now rewrite Hrows|].
  split; [apply getFileSrc_unbound; now left|].
  unfold wake, WikiDO.constructor. now rewrite Hinfo.
Qed.

Lemma X9_upsert_on_unbound_actor_witness :
  exists k1,
    WikiDO.upsert 2000 "W9" [[x61]; [x62]] None new_actor
    = (Ok {| WikiDO.u_ok := true |}, k1)
    /\ WikiDO.wikiId k1 = ""%string
    /\ WikiDO.wiki_info (db (WikiDO.storage k1)) = Some []
    /\ versions k1 = ingested 2000 "W9" [[x61]; [x62]] None
    /\ WikiDO.getFileSrc "W9" k1 = (Ok WikiDO.bad_request, k1)
    /\ wake k1
       = Throw "Expected exactly one result from SQL query, but got no results.".
Proof.
  apply (@X9_upsert_on_unbound_actor new_actor 2000 "W9" [[x61]; [x62]] None);
    reflexivity.
Defined.

(** ** Reading *)

Module ReadOnlyFacts.
Import WikiDO WikiActor WikiActorView UnboundFacts.

(** What [migrate] does to a store: nothing when the mark is 1 or more,
    and otherwise it makes the tables that are missing and sets the mark. *)
Lemma migrate_store (s : State) :
  exists r st',
    migrate s = (Ok r, set_storage s st')
    /\ (exists h, lastMigrationId st' = Some h /\ 1 <= h)
    /\ ((exists h, lastMigrationId (storage s) = Some h /\ 1 <= h) ->
        st' = storage s)
    /\ match wiki_info (db (storage s)) with
       | Some t => wiki_info (db st') = Some t
       | None => wiki_info (db st') = None \/ wiki_info (db st') = Some []
       end
    /\ match wiki_versions (db (storage s)) with
       | Some t => wiki_versions (db st') = Some t
       | None => wiki_versions (db st') = None \/ wiki_versions (db st') = Some []
       end.
Proof.
  destruct s as [[[wi wv] mark appl] faults cache w t].
  unfold migrate, runAll, pending, WikiMigrations.
  cbn [storage lastMigrationId filter is_pending idMonotonicInc].
  destruct mark as [h|].
  - cbn. destruct (h <? 1) eqn:Hlt;
      [apply Z.ltb_lt in Hlt | apply Z.ltb_ge in Hlt].
    + destruct wi, wv; cbn; do 2 eexists;
        (split; [reflexivity|]); (split; [exists 1; split; [reflexivity|lia]|]);
        (split; [intros (h' & [= <-] & Hh); lia|]); split; auto.
    + cbn. do 2 eexists. split; [reflexivity|].
      split; [exists h; split; [reflexivity|lia]|].
      split; [reflexivity|]. destruct wi, wv; split; auto.
  - destruct wi, wv; cbn; do 2 eexists;
      (split; [reflexivity|]); (split; [exists 1; split; [reflexivity|lia]|]);
      (split; [intros (h' & [=] & Hh)|]); split; auto.
Qed.

(** On a store whose mark is 1 or more, [migrate] changes nothing. *)
Lemma migrate_stable (s : State) :
  (exists h, lastMigrationId (storage s) = Some h /\ 1 <= h) ->
  exists r, migrate s = (Ok r, s).
Proof.
  intros Hmark.
  destruct (migrate_store s) as (r & st' & Hm & _ & Hsame & _).
  rewrite (Hsame Hmark) in Hm. exists r. rewrite Hm.
  destruct s; reflexivity.
Qed.

(** [getFileSrc] past its guard and its cache, on a store whose mark is 1
    or more. *)
Lemma getFileSrc_stable (w : string) (s : State) :
  (exists h, lastMigrationId (storage s) = Some h /\ 1 <= h) ->
  ((wikiId s =? "")%string || negb (wikiId s =? w)%string) = false ->
  fileSrc s = None ->
  getFileSrc w s
  = match wiki_versions (db (storage s)) with
    | None => (Throw "no such table: wiki_versions", s)
    | Some rows =>
        match read_path w rows with
        | Throw e => (Throw e, s)
        | Ok (resp, cache) => (Ok resp, set_fileSrc cache s)
        end
    end.
Proof.
  intros Hmark Hguard Hcache.
  destruct (migrate_stable s Hmark) as (r & Hm).
  unfold getFileSrc. rewrite Hguard, Hcache.
  erewrite bind_ok by exact Hm.
  unfold bind at 1. unfold select_versions.
  destruct (wiki_versions (db (storage s))) as [rows|]; [|reflexivity].
  unfold read_path.
  destruct (select_chunksInfo w rows) as [|t rest]; [reflexivity|].
  destruct (chunksTotal_of t * CHUNK_SIZE_MAX <? BYTE_SIZE_ATONCE_THRESHOLD).
  - reflexivity.
  - unfold ret. f_equal. destruct s; simpl in *; now subst.
Qed.

End ReadOnlyFacts.

Import ReadOnlyFacts.

(** X10. [getFileSrc] only reads. Whatever the state of the actor and
    the id asked for, the rows of [wiki_versions] and of [wiki_info] and
    the identity of the actor are afterwards what they were, and asking
    again gives the same result: the cache that a read fills serves the
    response of the read that filled it. *)
Theorem X10_getFileSrc_reads_only :
  forall (s : WikiDO.State) (w : string),
    versions (snd (WikiDO.getFileSrc w s)) = versions s
    /\ info_rows (snd (WikiDO.getFileSrc w s)) = info_rows s
    /\ WikiDO.wikiId (snd (WikiDO.getFileSrc w s)) = WikiDO.wikiId s
    /\ WikiDO.tenantId (snd (WikiDO.getFileSrc w s)) = WikiDO.tenantId s
    /\ fst (WikiDO.getFileSrc w (snd (WikiDO.getFileSrc w s)))
       = fst (WikiDO.getFileSrc w s).
Proof.
  intros s w.
  destruct ((WikiDO.wikiId s =? "")%string || negb (WikiDO.wikiId s =? w)%string)
    eqn:Hguard.
  { assert (E : WikiDO.getFileSrc w s = (Ok WikiDO.bad_request, s))
      by (unfold WikiDO.getFileSrc; now rewrite Hguard).
    rewrite E; cbn [fst snd]. rewrite E. auto. }
  destruct (WikiDO.fileSrc s) as [cached|] eqn:Hcache.
  { assert (E : WikiDO.getFileSrc w s
                = (Ok (WikiDO.makeStreamResponse (inl cached)), s))
      by (unfold WikiDO.getFileSrc; now rewrite Hguard, Hcache).
    rewrite E; cbn [fst snd]. rewrite E. auto. }
  destruct (migrate_store s) as (r & st' & Hm & Hmark & _ & Hinfo & Hrows).
  set (s1 := WikiDO.set_storage s st') in *.
  assert (Hmark1 : exists h, lastMigrationId (WikiDO.storage s1) = Some h /\ 1 <= h)
    by exact Hmark.
  assert (E : WikiDO.getFileSrc w s = WikiDO.getFileSrc w s1).
  { destruct (migrate_stable s1 Hmark1) as (r1 & Hm1).
    unfold WikiDO.getFileSrc.
    change (WikiDO.wikiId s1) with (WikiDO.wikiId s).
    change (WikiDO.fileSrc s1) with (WikiDO.fileSrc s).
    rewrite Hguard, Hcache.
    erewrite bind_ok by exact Hm. symmetry. erewrite bind_ok by exact Hm1.
    reflexivity. }
  assert (Hv : versions s1 = versions s).
  { unfold versions. change (WikiDO.storage s1) with st'.
    destruct (WikiDO.wiki_versions (db (WikiDO.storage s)));
      [now rewrite Hrows | destruct Hrows as [-> | ->]; reflexivity]. }
  assert (Hi : info_rows s1 = info_rows s).
  { unfold info_rows. change (WikiDO.storage s1) with st'.
    destruct (WikiDO.wiki_info (db (WikiDO.storage s)));
      [now rewrite Hinfo | destruct Hinfo as [-> | ->]; reflexivity]. }
  rewrite E.
  rewrite (@getFileSrc_stable w s1 Hmark1 Hguard Hcache).
  destruct (WikiDO.wiki_versions (db (WikiDO.storage s1))) as [rows|] eqn:Htable.
  2:{ cbn [fst snd]. rewrite (@getFileSrc_stable w s1 Hmark1 Hguard Hcache), Htable.
      auto. }
  destruct (read_path w rows) as [[resp cache]|e] eqn:Hread.
  2:{ cbn [fst snd].
      rewrite (@getFileSrc_stable w s1 Hmark1 Hguard Hcache), Htable, Hread.
      auto. }
  cbn [fst snd].
  split; [exact Hv|]. split; [exact Hi|]. split; [reflexivity|].
  split; [reflexivity|].
  destruct cache as [merged|].
  - assert (Hresp : resp = WikiDO.makeStreamResponse (inl merged)).
    { unfold read_path in Hread.
      destruct (WikiDO.select_chunksInfo w rows); [discriminate|].
      destruct (_ <? _); congruence. }
    subst resp. unfold WikiDO.getFileSrc.
    change (WikiDO.wikiId (WikiDO.set_fileSrc (Some merged) s1))
      with (WikiDO.wikiId s).
    rewrite Hguard. reflexivity.
  - rewrite (@getFileSrc_stable w (WikiDO.set_fileSrc None s1) Hmark1 Hguard eq_refl).
    change (WikiDO.storage (WikiDO.set_fileSrc None s1)) with (WikiDO.storage s1).
    rewrite Htable, Hread. reflexivity.
Qed.

(** X11. [upsert] never changes who the actor is: with the [wiki_info]
    table in place, its rows and the [wikiId] and [tenantId] of the
    object are the same after the call, for any id and body it is called
    with, whether the storage fails or not and whether the call returns
    or throws. *)
Theorem X11_upsert_keeps_identity :
  forall (s : WikiDO.State) (info : list WikiDO.InfoRow) (wid tid : string)
         (now : Z) (w : string) (bytesStream : ReadableStream)
         (contentLength : option Z),
    bound_to info wid tid s ->
    bound_to info wid tid (snd (WikiDO.upsert now w bytesStream contentLength s)).
Proof.
  intros s info wid tid now w stream hint Hs.
  now apply bound_upsert.
Qed.

Lemma X11_upsert_keeps_identity_witness :
  bound_to [ {| WikiDO.i_wikiId := "W1"; WikiDO.i_tenantId := "T1";
                WikiDO.i_name := "Notes"; WikiDO.i_wikiType := "tw5" |} ]
    "W1" "T1"
    (snd (WikiDO.upsert 2000 "W2" [[x61]; [x62]] (Some 2)
            (WikiDO.set_sqlFaultIn notes (Some 1%nat)))).
Proof.
  apply (@X11_upsert_keeps_identity (WikiDO.set_sqlFaultIn notes (Some 1%nat))).
  repeat split.
Defined.

(** ** The rows of a streamed body *)

Module StreamFacts.
Import WikiDO WikiActorView.

(** Under the contract of [readAtLeast], the streaming loop flushes one
    payload for every full chunk of the body, and one more at its end. *)
Lemma flushed_count (reads : ReadableStream) :
  readAtLeast_reads CHUNK_SIZE_MAX reads = true ->
  Z.of_nat (length (flushed reads [] 0))
  = byteLength (concat reads) / CHUNK_SIZE_MAX + 1.
Proof.
  induction reads as [|v rest IH]; intros Hreads.
  - reflexivity.
  - cbn [flushed concat]. rewrite byteLength_app.
    pose proof (byteLength_nonneg v) as Hv.
    destruct rest as [|v' rest'].
    + cbn [readAtLeast_reads] in Hreads.
      apply andb_true_iff in Hreads as [Hpos Hle].
      apply Z.ltb_lt in Hpos. apply Z.leb_le in Hle.
      cbn [concat]. change (byteLength []) with 0. rewrite Z.add_0_r.
      destruct (0 + byteLength v <? CHUNK_SIZE_MAX) eqn:Hfull.
      * apply Z.ltb_lt in Hfull. cbn [flushed length].
        rewrite Z.div_small by lia. reflexivity.
      * apply Z.ltb_ge in Hfull. cbn [flushed length].
        replace (byteLength v) with CHUNK_SIZE_MAX by lia. reflexivity.
    + assert (Hsz : byteLength v = CHUNK_SIZE_MAX
                    /\ readAtLeast_reads CHUNK_SIZE_MAX (v' :: rest') = true).
      { cbn [readAtLeast_reads] in Hreads.
        apply andb_true_iff in Hreads as [Hsz Hrest].
        apply Z.eqb_eq in Hsz. now split. }
      destruct Hsz as [Hsz Hrest].
      replace (0 + byteLength v <? CHUNK_SIZE_MAX) with false
        by (symmetry; apply Z.ltb_ge; lia).
      cbn [length]. rewrite Nat2Z.inj_succ, (IH Hrest), Hsz.
      replace (CHUNK_SIZE_MAX + byteLength (concat (v' :: rest')))
        with (byteLength (concat (v' :: rest')) + 1 * CHUNK_SIZE_MAX) by lia.
      rewrite Z.div_add by discriminate. lia.
Qed.

End StreamFacts.

Module StreamFacts2.
Import WikiDO WikiActorView StreamFacts.

(** The complete row of a streamed version is its terminal row. *)
Lemma streamed_complete wid now reads t :
  In t (streamed wid now reads) -> is_complete wid t = true ->
  chunksTotal_of t = Z.of_nat (length (flushed reads [] 0)) + 1.
Proof.
  unfold streamed. intros Hin Hc.
  apply in_app_or in Hin as [Hin|[<-|[]]]; [|reflexivity].
  apply numbered_in in Hin as (_ & _ & Hnone & _).
  apply is_complete_true in Hc as [_ Hc]. congruence.
Qed.

(** The rows of the version [now] in a table that ends with them. *)
Lemma version_rows_fresh wid now kept new :
  later_than_all wid now kept ->
  (forall r, In r new -> v_wikiId r = wid /\ v_tsMs r = now) ->
  version_rows wid now (kept ++ new) = new.
Proof.
  intros Hlater Hnew. unfold version_rows. rewrite filter_app.
  rewrite filter_none, filter_id; [reflexivity| |].
  - intros r Hr. destruct (Hnew r Hr) as [-> ->].
    now rewrite String.eqb_refl, Z.eqb_refl.
  - intros r Hr. destruct (v_wikiId r =? wid)%string eqn:Hw; [|reflexivity].
    apply String.eqb_eq in Hw. specialize (Hlater r Hr Hw).
    cbn [andb]. apply Z.eqb_neq. lia.
Qed.

End StreamFacts2.

Import StreamFacts StreamFacts2.

(** X12. A body saved through the streaming branch, read as
    [readAtLeast] delivers it, is stored in as many rows as it has full
    chunks of 1,500,000 bytes plus two: a row is flushed at the end of the
    stream even when nothing is buffered, and the terminal row follows.
    The read after it serves the bytes of the body, and it leaves them in
    the cache only when the body is shorter than 3,000,000 bytes. *)
Theorem X12_streamed_rows_and_cache :
  forall (s : WikiDO.State) (wid : string) (now : Z)
         (bytesStream : ReadableStream) (contentLength : option Z)
         (rows : list WikiDO.VersionRow),
    wid <> ""%string -> WikiDO.wikiId s = wid ->
    has_versions s rows -> WikiDO.sqlFaultIn s = None ->
    later_than_all wid now rows ->
    WikiDO.buffered contentLength = false ->
    readAtLeast_reads WikiDO.CHUNK_SIZE_MAX bytesStream = true ->
    exists s' resp s'',
      WikiDO.upsert now wid bytesStream contentLength s
      = (Ok {| WikiDO.u_ok := true |}, s')
      /\ Z.of_nat (length (version_rows wid now (versions s')))
         = byteLength (concat bytesStream) / 1500000 + 2
      /\ WikiDO.getFileSrc wid s' = (Ok resp, s'')
      /\ body_bytes resp = Some (concat bytesStream)
      /\ WikiDO.fileSrc s''
         = if byteLength (concat bytesStream) <? 3000000
           then Some (concat bytesStream) else None.
Proof.
  intros s wid now stream hint rows Hwid Hbound Hrows Hfault Hlater Hbranch Hreads.
  destruct (@upsert_healthy now wid stream hint s rows Hrows Hfault)
    as (s' & Hup & Hrows' & Hcache & _ & Hwid' & _).
  rewrite Hbranch in Hcache.
  pose proof (@stored_roundtrip now wid stream hint rows Hlater) as Hstored.
  destruct (@upsert_table now wid stream hint rows Hlater) as (kept & E & Hincl).
  rewrite E in *.
  assert (Hkept : later_than_all wid now kept)
    by (eapply later_than_all_incl; eauto).
  assert (Hnew : forall r, In r (ingested now wid stream hint) ->
                   WikiDO.v_wikiId r = wid /\ WikiDO.v_tsMs r = now)
    by (intros r; apply ingested_in).
  destruct (@ingested_complete now wid stream hint) as (t & Hin & Hc).
  { rewrite Hbranch. discriminate. }
  destruct (@select_chunksInfo_fresh wid now kept (ingested now wid stream hint) t)
    as (t' & Hsel & Hin' & Hc'); auto.
  assert (Htotal : WikiDO.chunksTotal_of t'
                   = byteLength (concat stream) / 1500000 + 2).
  { unfold ingested in Hin'. rewrite Hbranch in Hin'.
    rewrite (@streamed_complete wid now stream t' Hin' Hc').
    rewrite (flushed_count stream Hreads).
    unfold WikiDO.CHUNK_SIZE_MAX. lia. }
  destruct (@getFileSrc_read wid s' (kept ++ ingested now wid stream hint))
    as (s'' & Hget & Hcache'' & _); auto; [congruence|].
  pose proof (byteLength_nonneg (concat stream)) as Hn.
  assert (Hq : 0 <= byteLength (concat stream) / 1500000)
    by (apply Z.div_pos; lia).
  assert (Htest : (WikiDO.chunksTotal_of t' * WikiDO.CHUNK_SIZE_MAX
                     <? WikiDO.BYTE_SIZE_ATONCE_THRESHOLD)
                  = (byteLength (concat stream) <? 3000000)).
  { rewrite Htotal. unfold WikiDO.CHUNK_SIZE_MAX, WikiDO.BYTE_SIZE_ATONCE_THRESHOLD.
    pose proof (Z.div_mod (byteLength (concat stream)) 1500000 ltac:(lia)).
    pose proof (Z.mod_pos_bound (byteLength (concat stream)) 1500000 ltac:(lia)).
    destruct (byteLength (concat stream) <? 3000000) eqn:Hsmall.
    - apply Z.ltb_lt in Hsmall. apply Z.ltb_lt. lia.
    - apply Z.ltb_ge in Hsmall. apply Z.ltb_ge. lia. }
  destruct (Hnew t' Hin') as [_ Hts].
  unfold read_path in Hget, Hcache''. rewrite Hsel in Hget, Hcache''.
  rewrite Htest, Hts in Hget, Hcache''.
  rewrite mergeArrayBuffers_concat, Hstored in Hget, Hcache''.
  exists s'.
  destruct (byteLength (concat stream) <? 3000000).
  - eexists _, s''. split; [exact Hup|]. split.
    { unfold versions. rewrite Hrows'.
      rewrite (@version_rows_fresh wid now kept _ Hkept Hnew).
      unfold ingested. rewrite Hbranch. unfold streamed.
      rewrite length_app, numbered_length. cbn [length].
      rewrite Nat2Z.inj_add, (flushed_count stream Hreads).
      unfold WikiDO.CHUNK_SIZE_MAX. cbn [length]. lia. }
    split; [exact Hget|]. split; [|exact Hcache''].
    unfold body_bytes. cbn. now rewrite app_nil_r.
  - eexists _, s''. split; [exact Hup|]. split.
    { unfold versions. rewrite Hrows'.
      rewrite (@version_rows_fresh wid now kept _ Hkept Hnew).
      unfold ingested. rewrite Hbranch. unfold streamed.
      rewrite length_app, numbered_length. cbn [length].
      rewrite Nat2Z.inj_add, (flushed_count stream Hreads).
      unfold WikiDO.CHUNK_SIZE_MAX. cbn [length]. lia. }
    split; [exact Hget|]. split; [|exact Hcache''].
    unfold body_bytes. cbn. rewrite start_loop_all. f_equal. exact Hstored.
Qed.

Lemma X12_streamed_rows_and_cache_witness :
  exists s' resp s'',
    WikiDO.upsert 2000 "W1" [[x61; x62]] None notes
    = (Ok {| WikiDO.u_ok := true |}, s')
    /\ Z.of_nat (length (version_rows "W1" 2000 (versions s')))
       = byteLength (concat [[x61; x62]]) / 1500000 + 2
    /\ WikiDO.getFileSrc "W1" s' = (Ok resp, s'')
    /\ body_bytes resp = Some (concat [[x61; x62]])
    /\ WikiDO.fileSrc s''
       = if byteLength (concat [[x61; x62]]) <? 3000000
         then Some (concat [[x61; x62]]) else None.
Proof.
  apply (@X12_streamed_rows_and_cache notes "W1" 2000 [[x61; x62]] None
           (versions notes)).
  - discriminate.
  - reflexivity.
  - reflexivity.
  - reflexivity.
  - apply later_than_allb_ok. reflexivity.
  - reflexivity.
  - reflexivity.
Defined.

(** ** The tenant actor when its migrations are done *)

Module ReadyFacts.
Import TenantDO RouteView.

Lemma migrate_ready (tid : string) (s : State) :
  ready tid s -> migrate s = (Ok no_rows, s).
Proof.
  intros (_ & Hmark & _).
  destruct s as [[d mark appl] t]. cbn [storage lastMigrationId] in Hmark.
  subst mark. reflexivity.
Qed.

Lemma initTables_ready (tid : string) (s : State) :
  tid <> ""%string -> ready tid s -> initTables tid s = (Ok tid, s).
Proof.
  intros Hne Hr. unfold initTables.
  erewrite bind_ok by (apply (migrate_ready Hr)).
  destruct Hr as (Ht & _).
  unfold bind, get. rewrite Ht.
  apply String.eqb_neq in Hne. rewrite Hne, String.eqb_refl. reflexivity.
Qed.

Lemma initTables_new (tid : string) (s : State) :
  storage s = fresh_store -> tenantId s = ""%string ->
  exists s',
    initTables tid s = (Ok tid, s') /\ ready tid s' /\ wiki_rows s' = [].
Proof.
  destruct s as [st t]. cbn [storage tenantId]. intros -> ->.
  eexists. split; [reflexivity|].
  split; [|reflexivity].
  unfold ready. cbn. repeat split; eauto.
Qed.

(** Under its own name, [_initTables] succeeds on a usable actor. *)
Lemma initTables_usable (tid : string) (s : State) :
  tid <> ""%string -> usable tid s ->
  exists s',
    initTables tid s = (Ok tid, s') /\ ready tid s' /\ wiki_rows s' = wiki_rows s.
Proof.
  intros Hne [[Hst Ht]|Hr].
  - destruct (initTables_new tid s Hst Ht) as (s' & Hi & Hr & Hrows).
    exists s'. split; [assumption|]. split; [assumption|].
    rewrite Hrows. unfold wiki_rows. now rewrite Hst.
  - exists s. split; [now apply initTables_ready|]. now split.
Qed.

Lemma on_tenant_run {A} (m : M State A) s k r s' :
  m s = (r, s') -> on_tenant m (s, k) = (r, (s', k)).
Proof. intros H. unfold on_tenant. cbn [fst snd]. now rewrite H. Qed.

Lemma on_wiki_run {A} (m : M WikiDO.State A) s k r k' :
  m k = (r, k') -> on_wiki m (s, k) = (r, (s, k')).
Proof. intros H. unfold on_wiki. cbn [fst snd]. now rewrite H. Qed.

Lemma insert_wiki_ready (tid : string) (row : WikiRow) (s : State) :
  ready tid s ->
  exists s',
    insert_wiki row s = (Ok tt, s')
    /\ ready tid s'
    /\ wiki_rows s'
       = filter (fun x => negb (w_wikiId x =? w_wikiId row)%string) (wiki_rows s)
           ++ [row].
Proof.
  intros (Ht & Hmark & Hcol & Hinfo & rows & Hrows).
  unfold insert_wiki, sql_write, wiki_rows. rewrite Hrows, Hcol.
  eexists. split; [reflexivity|]. split; [|reflexivity].
  unfold ready. cbn. repeat split; eauto.
Qed.

Lemma delete_wiki_row_ready (tid wid t : string) (s : State) :
  ready tid s ->
  exists s',
    delete_wiki_row wid t s = (Ok tt, s')
    /\ ready tid s'
    /\ wiki_rows s' = without wid t (wiki_rows s).
Proof.
  intros (Ht & Hmark & Hcol & Hinfo & rows & Hrows).
  unfold delete_wiki_row, sql_write, wiki_rows. rewrite Hrows.
  eexists. split; [reflexivity|]. split; [|reflexivity].
  unfold ready. cbn. repeat split; eauto.
Qed.

Lemma list_ready (enc : string -> string) (tid : string) (s : State) :
  tid <> ""%string -> ready tid s ->
  list_ enc s = (Ok (map (listed enc) (wiki_rows s)), s).
Proof.
  intros Hne (Ht & _ & _ & _ & rows & Hrows).
  unfold list_, wiki_rows. rewrite Ht, Hrows.
  apply String.eqb_neq in Hne. now rewrite Hne.
Qed.

(** [deleteWiki] under the actor's own name. *)
Lemma deleteWiki_usable (enc : string -> string) (tid wid : string)
    (s : State) (k : WikiDO.State) :
  tid <> ""%string -> usable tid s ->
  exists s',
    deleteWiki enc tid wid (s, k)
    = (Ok (map (listed enc) (wiki_rows s')), (s', snd (WikiDO.deleteAll k)))
    /\ ready tid s'
    /\ wiki_rows s' = without wid tid (wiki_rows s).
Proof.
  intros Hne Hu.
  destruct (initTables_usable Hne Hu) as (s1 & Hinit & Hr1 & Hrows1).
  destruct (delete_wiki_row_ready wid tid Hr1) as (s2 & Hdel & Hr2 & Hrows2).
  exists s2. split; [|split; [assumption | congruence]].
  unfold deleteWiki.
  erewrite bind_ok by (apply on_tenant_run, Hinit).
  erewrite bind_ok by (apply on_wiki_run; reflexivity).
  erewrite bind_ok by (apply on_tenant_run, Hdel).
  apply on_tenant_run. now apply (@list_ready enc tid).
Qed.

(** [createWiki] under the actor's own name: it fails only when the wiki
    actor's [create] does. *)
Lemma createWiki_usable (doId : string) (assets : option bytes) (now : Z)
    (tid name wikiType : string) (s : State) (k : WikiDO.State) :
  tid <> ""%string -> usable tid s ->
  exists s',
    ready tid s'
    /\ match WikiDO.create assets now tid doId name wikiType k with
       | (Ok r, k') =>
           createWiki doId assets now tid name wikiType (s, k)
           = (Ok {| cw_ok := true; cw_redirectUrl := WikiDO.c_redirectUrl r |},
              (s', k'))
           /\ wiki_rows s'
              = filter (fun x => negb (w_wikiId x =? doId)%string) (wiki_rows s)
                  ++ [filed doId tid name wikiType (WikiDO.c_createdAtMs r)]
       | (Throw e, k') =>
           createWiki doId assets now tid name wikiType (s, k)
           = (Throw e, (s', k'))
           /\ wiki_rows s' = wiki_rows s
       end.
Proof.
  intros Hne Hu.
  destruct (initTables_usable Hne Hu) as (s1 & Hinit & Hr1 & Hrows1).
  destruct (WikiDO.create assets now tid doId name wikiType k) as [[r|e] k']
    eqn:Hcreate.
  - destruct (insert_wiki_ready
                (filed doId tid name wikiType (WikiDO.c_createdAtMs r)) Hr1)
      as (s2 & Hins & Hr2 & Hrows2).
    exists s2. split; [assumption|]. split.
    + unfold createWiki.
      erewrite bind_ok by (apply on_tenant_run, Hinit).
      erewrite bind_ok by (apply on_wiki_run, Hcreate).
      erewrite bind_ok by (apply on_tenant_run, Hins).
      reflexivity.
    + rewrite Hrows2, Hrows1. reflexivity.
  - exists s1. split; [assumption|]. split; [|assumption].
    unfold createWiki.
    erewrite bind_ok by (apply on_tenant_run, Hinit).
    erewrite bind_throw by (apply on_wiki_run, Hcreate).
    reflexivity.
Qed.

End ReadyFacts.

(** ** The route functions *)

Module RouteFacts.
Import Routes RouteView ReadyFacts WikiActorView ActorFacts.

Lemma update_same {A} (f : string -> A) k v : update f k v k = v.
Proof. unfold update. now rewrite String.eqb_refl. Qed.


Lemma on_stubs_run {A} (m : M TenantDO.World A) name wid env r t k :
  m (TENANT env name, WIKI env wid) = (r, (t, k)) ->
  on_stubs name wid m env
  = (r, {| TENANT := update (TENANT env) name t;
           WIKI := update (WIKI env) wid k |}).
Proof. intros H. unfold on_stubs. now rewrite H. Qed.

Lemma on_tenant_stub_run {A} (m : M TenantDO.State A) name env r t :
  m (TENANT env name) = (r, t) ->
  on_tenant_stub name m env
  = (r, {| TENANT := update (TENANT env) name t; WIKI := WIKI env |}).
Proof. intros H. unfold on_tenant_stub. now rewrite H. Qed.

Lemma on_wiki_stub_run {A} (m : M WikiDO.State A) wid env r k :
  m (WIKI env wid) = (r, k) ->
  on_wiki_stub wid m env
  = (r, {| TENANT := TENANT env; WIKI := update (WIKI env) wid k |}).
Proof. intros H. unfold on_wiki_stub. now rewrite H. Qed.

(** [routeDeleteWiki] under a usable tenant actor. *)
Lemma routeDeleteWiki_usable (enc : string -> string) (tid wid : string)
    (env : CfEnv) :
  tid <> ""%string -> usable tid (TENANT env tid) ->
  exists t',
    routeDeleteWiki enc tid wid env
    = (Ok (map (listed enc) (wiki_rows t')),
       {| TENANT := update (TENANT env) tid t';
          WIKI := update (WIKI env) wid (snd (WikiDO.deleteAll (WIKI env wid))) |})
    /\ ready tid t'
    /\ wiki_rows t' = without wid tid (wiki_rows (TENANT env tid)).
Proof.
  intros Hne Hu.
  destruct (@deleteWiki_usable enc tid wid (TENANT env tid) (WIKI env wid) Hne Hu)
    as (t' & Hdel & Hr & Hrows).
  exists t'. split; [|now split].
  unfold routeDeleteWiki. now apply on_stubs_run.
Qed.

(** [routeCreateWiki] for a usable tenant actor and a wiki actor whose
    storage is empty. *)
Lemma routeCreateWiki_fresh (env : CfEnv) (doId : string) (b : bytes) (now : Z)
    (tid name : string) :
  tid <> ""%string -> usable tid (TENANT env tid) ->
  WikiDO.storage (WIKI env doId) = WikiDO.fresh_store ->
  WikiDO.sqlFaultIn (WIKI env doId) = None ->
  exists t',
    routeCreateWiki doId (Some b) now tid name "tw5" env
    = (Ok ("/w/" ++ doId ++ "/" ++ name)%string,
       {| TENANT := update (TENANT env) tid t';
          WIKI := update (WIKI env) doId (created b now tid doId name) |})
    /\ ready tid t'
    /\ wiki_rows t'
       = filter (fun x => negb (TenantDO.w_wikiId x =? doId)%string)
           (wiki_rows (TENANT env tid))
           ++ [filed doId tid name "tw5" now].
Proof.
  intros Hne Hu Hst Hfault.
  destruct (@createWiki_usable doId (Some b) now tid name "tw5"
              (TENANT env tid) (WIKI env doId) Hne Hu) as (t' & Hr & Hcreate).
  rewrite (@create_fresh (WIKI env doId) b now tid doId name Hst Hfault) in Hcreate.
  destruct Hcreate as [Hcreate Hrows].
  cbn [WikiDO.c_redirectUrl WikiDO.c_createdAtMs] in *.
  exists t'. split; [|now split].
  unfold routeCreateWiki.
  erewrite bind_ok by (apply on_stubs_run, Hcreate). reflexivity.
Qed.

End RouteFacts.

Import Routes RouteView ReadyFacts RouteFacts.



(** X14. Creating a wiki through [routeCreateWiki], for a tenant actor
    that is new or holds the tenant and a wiki actor whose storage is
    empty, returns the address [/w/<id>/<name>]; the tenant's list then
    has the earlier entries and last an entry for the wiki, with the time
    of creation and the address with both parts URI-encoded, and the
    address serves the template. *)
Theorem X14_route_create_lists_and_serves :
  forall (enc : string -> string) (env : Routes.CfEnv) (doId : string)
         (b : bytes) (now : Z) (tid name : string),
    tid <> ""%string -> doId <> ""%string ->
    usable tid (TENANT env tid) ->
    WikiDO.storage (WIKI env doId) = WikiDO.fresh_store ->
    WikiDO.sqlFaultIn (WIKI env doId) = None ->
    exists env1 env2 env3,
      routeCreateWiki doId (Some b) now tid name "tw5" env
      = (Ok ("/w/" ++ doId ++ "/" ++ name)%string, env1)
      /\ routeListWikis enc tid env1
         = (Ok (map (listed enc)
                  (filter (fun x => negb (TenantDO.w_wikiId x =? doId)%string)
                     (wiki_rows (TENANT env tid)))
                ++ [ {| TenantDO.a_tenantId := tid;
                        TenantDO.a_wikiId := doId;
                        TenantDO.a_name := name;
                        TenantDO.a_wikiUrl :=
                          ("/w/" ++ enc doId ++ "/" ++ enc name)%string;
                        TenantDO.a_wikiType := "tw5";
                        TenantDO.a_createdAtMs := now |} ]), env2)
      /\ routeWikiRequest doId name env1
         = (Ok (WikiDO.makeStreamResponse (inl b)), env3).
Proof.
  intros enc env doId b now tid name Hne Hid Hu Hst Hfault.
  destruct (@routeCreateWiki_fresh env doId b now tid name Hne Hu Hst Hfault)
    as (t' & Hcreate & Hr & Hrows).
  eexists _, _, _. split; [exact Hcreate|]. split.
  - unfold routeListWikis. erewrite on_tenant_stub_run.
    2:{ cbn [TENANT]. rewrite update_same. now apply (@list_ready enc tid). }
    rewrite Hrows, map_app. reflexivity.
  - unfold routeWikiRequest. erewrite on_wiki_stub_run.
    2:{ cbn [WIKI]. rewrite update_same. now apply getFileSrc_cached. }
    reflexivity.
Qed.

Lemma X14_route_create_lists_and_serves_witness :
  exists env1 env2 env3,
    routeCreateWiki "W1" (Some [x3c; x68; x31; x3e]) 1000 "T1" "My Notes" "tw5" new_env
    = (Ok ("/w/" ++ "W1" ++ "/" ++ "My Notes")%string, env1)
    /\ routeListWikis (fun x => x) "T1" env1
       = (Ok (map (listed (fun x => x))
                (filter (fun x => negb (TenantDO.w_wikiId x =? "W1")%string)
                   (wiki_rows (TENANT new_env "T1")))
              ++ [ {| TenantDO.a_tenantId := "T1";
                      TenantDO.a_wikiId := "W1";
                      TenantDO.a_name := "My Notes";
                      TenantDO.a_wikiUrl := ("/w/" ++ "W1" ++ "/" ++ "My Notes")%string;
                      TenantDO.a_wikiType := "tw5";
                      TenantDO.a_createdAtMs := 1000 |} ]), env2)
    /\ routeWikiRequest "W1" "My Notes" env1
       = (Ok (WikiDO.makeStreamResponse (inl [x3c; x68; x31; x3e])), env3).
Proof.
  apply (@X14_route_create_lists_and_serves (fun x => x) new_env "W1"
           [x3c; x68; x31; x3e] 1000 "T1" "My Notes").
  - discriminate.
  - discriminate.
  - left. split; reflexivity.
  - reflexivity.
  - reflexivity.
Defined.

Module SaveFacts.
Import WikiDO.



End SaveFacts.

Import SaveFacts.



Module NameFacts.
Import TenantDO.




End NameFacts.

Import NameFacts.



(** ** The handler of [wikis.Create] *)

Module ApiFacts.
Import Auth AuthView AuthFacts.

(** What [apiKeyAuth] throws. *)
Lemma apiKeyAuth_raises (env : Auth.CfEnv) (header : option string) (e : Thrown) :
  apiKeyAuth env header = Raises e ->
  (exists msg, e = HTTPException 403 msg) \/ (exists msg, e = TypeError msg).
Proof.
  unfold apiKeyAuth.
  destruct (negb (VAR_API_AUTH_ENABLED env)); [discriminate|].
  destruct (option_map trim header) as [[|k0 krest]|];
    try (intros [= <-]; left; eauto).
  destruct (csvKeys env) as [keys|]; [|intros [= <-]; right; eauto].
  destruct (indexOf keys _ <? 0); [intros [= <-]; left; eauto|].
  destruct (lastIndexOf _ _ <? 0); [intros [= <-]; left; eauto|].
  destruct (negb _); [intros [= <-]; left; eauto | discriminate].
Qed.

End ApiFacts.

Import Api ApiFacts.

(** X17. The answers of [POST /-_-/v1/wikis.Create]. The status is 201,
    400, 403 or 500. A request answered 400 or 403 has changed no actor.
    The answer is 201 only when the key was accepted, the type is [tw5]
    and the name is not blank; the wiki is then created for the tenant of
    the key under the name as sent, not trimmed, and the answer carries
    its address. *)
Theorem X17_wikisCreate_answers :
  forall (auth : Auth.CfEnv) (header : option string) (params : Api.Params)
         (doId : string) (assets : option bytes) (now : Z) (env : Routes.CfEnv),
    let reply := fst (wikisCreate auth header params doId assets now env) in
    let env' := snd (wikisCreate auth header params doId assets now env) in
    (code reply = 201 \/ code reply = 400 \/ code reply = 403 \/ code reply = 500)
    /\ (code reply = 400 \/ code reply = 403 -> env' = env)
    /\ (code reply = 201 ->
        exists tid n url,
          Auth.apiKeyAuth auth header = Auth.Returns tid
          /\ wikiType params = Some "tw5"%string
          /\ name params = Some n
          /\ Auth.trim n <> ""%string
          /\ routeCreateWiki doId assets now tid n "tw5" env = (Ok url, env')
          /\ payload reply = RedirectUrl url).
Proof.
  intros auth header params doId assets now env. cbv zeta.
  unfold wikisCreate.
  destruct (Auth.apiKeyAuth auth header) as [tid|e] eqn:Hauth.
  2:{ destruct (apiKeyAuth_raises _ _ Hauth) as [(msg & ->)|(msg & ->)];
        cbn; (split; [auto|]); (split; [reflexivity|]); discriminate. }
  destruct (wikiType params) as [wt|] eqn:Hwt.
  2:{ cbn. split; [auto|]. split; [reflexivity|]. discriminate. }
  destruct (String.eqb_spec wt "tw5") as [->|Hneq]; cbn [negb].
  2:{ cbn. split; [auto|]. split; [reflexivity|]. discriminate. }
  destruct (name params) as [n|] eqn:Hname.
  2:{ cbn. split; [auto|]. split; [reflexivity|]. discriminate. }
  destruct (Auth.truthy (Auth.trim n)) eqn:Hblank; cbn [negb].
  2:{ cbn. split; [auto|]. split; [reflexivity|]. discriminate. }
  destruct (routeCreateWiki doId assets now tid n "tw5" env) as [[url|msg] env1]
    eqn:Hroute.
  - cbn. split; [auto|]. split; [intros [H|H]; discriminate|].
    intros _. exists tid, n, url.
    split; [reflexivity|]. split; [reflexivity|]. split; [reflexivity|].
    split; [now apply AuthFacts.truthy_true|].
    split; [exact Hroute | reflexivity].
  - cbn. split; [auto|]. split; [intros [H|H]; discriminate|]. discriminate.
Qed.

Lemma X17_wikisCreate_answers_witness :
  snd (wikisCreate (keys_env "tf_key_alice_s3cret") (Some "tf_key_bob_t0ken"%string)
         {| name := Some "Notes"%string; wikiType := Some "tw5"%string |}
         "W1" (Some [x3c; x68; x31; x3e]) 1000 new_env)
  = new_env.
Proof.
  apply (@X17_wikisCreate_answers (keys_env "tf_key_alice_s3cret")
           (Some "tf_key_bob_t0ken"%string)
           {| name := Some "Notes"%string; wikiType := Some "tw5"%string |}
           "W1" (Some [x3c; x68; x31; x3e]) 1000 new_env).
  right. reflexivity.
Defined.

(** X18. A request to [wikis.Create] with a configured key of the shape
    seven characters, tenant id, underscore, token, the type [tw5] and a
    name that is not blank, for a tenant actor that is new or holds the
    tenant and a wiki actor whose storage is empty, is answered 201 with
    the address [/w/<id>/<name>]. The wiki is then in the list of that
    tenant, under the name as it was sent, and its address serves the
    template. *)
Theorem X18_wikisCreate_end_to_end :
  forall (enc : string -> string) (auth : Auth.CfEnv)
         (header pre tenant token : string) (params : Api.Params) (n : string)
         (doId : string) (b : bytes) (now : Z) (env : Routes.CfEnv),
    Auth.VAR_API_AUTH_ENABLED auth = true ->
    configured auth (Auth.trim header) ->
    Auth.trim header = (pre ++ tenant ++ String "_" token)%string ->
    String.length pre = 7%nat ->
    occurs "_" token = false ->
    Auth.trim tenant <> ""%string ->
    wikiType params = Some "tw5"%string ->
    name params = Some n ->
    Auth.trim n <> ""%string ->
    doId <> ""%string ->
    usable (Auth.trim tenant) (TENANT env (Auth.trim tenant)) ->
    WikiDO.storage (WIKI env doId) = WikiDO.fresh_store ->
    WikiDO.sqlFaultIn (WIKI env doId) = None ->
    exists env1 l env2 env3,
      wikisCreate auth (Some header) params doId (Some b) now env
      = ({| code := 201;
            payload := RedirectUrl ("/w/" ++ doId ++ "/" ++ n)%string |}, env1)
      /\ routeListWikis enc (Auth.trim tenant) env1 = (Ok l, env2)
      /\ In {| TenantDO.a_tenantId := Auth.trim tenant;
               TenantDO.a_wikiId := doId;
               TenantDO.a_name := n;
               TenantDO.a_wikiUrl := ("/w/" ++ enc doId ++ "/" ++ enc n)%string;
               TenantDO.a_wikiType := "tw5";
               TenantDO.a_createdAtMs := now |} l
      /\ routeWikiRequest doId n env1
         = (Ok (WikiDO.makeStreamResponse (inl b)), env3).
Proof.
  intros enc auth header pre tenant token params n doId b now env
         Hon Hcfg Hkey Hpre Htok Hten Hwt Hname Hn Hid Hu Hst Hfault.
  destruct (@routeCreateWiki_fresh env doId b now (Auth.trim tenant) n Hten Hu Hst Hfault)
    as (t' & Hcreate & Hr & Hrows).
  eexists _, _, _, _. split; [|split; [|split]].
  - unfold wikisCreate.
    rewrite (@apiKeyAuth_parse auth header pre tenant token Hon Hcfg Hkey Hpre Htok).
    apply AuthFacts.truthy_true in Hten, Hn. rewrite Hten, Hwt, Hname, Hn.
    cbn [negb String.eqb Ascii.eqb Bool.eqb]. rewrite Hcreate. reflexivity.
  - unfold routeListWikis. apply on_tenant_stub_run.
    cbn [TENANT]. rewrite update_same. now apply (@list_ready enc (Auth.trim tenant)).
  - rewrite Hrows, map_app. apply in_or_app. right. left. reflexivity.
  - unfold routeWikiRequest. apply on_wiki_stub_run.
    cbn [WIKI]. rewrite update_same. now apply getFileSrc_cached.
Qed.

Lemma X18_wikisCreate_end_to_end_witness :
  exists env1 l env2 env3,
    wikisCreate (keys_env "tf_key_alice_s3cret") (Some "tf_key_alice_s3cret"%string)
      {| name := Some " My Notes"%string; wikiType := Some "tw5"%string |}
      "W1" (Some [x3c; x68; x31; x3e]) 1000 new_env
    = ({| code := 201;
          payload := RedirectUrl ("/w/" ++ "W1" ++ "/" ++ " My Notes")%string |}, env1)
    /\ routeListWikis (fun x => x) (Auth.trim "alice") env1 = (Ok l, env2)
    /\ In {| TenantDO.a_tenantId := Auth.trim "alice";
             TenantDO.a_wikiId := "W1";
             TenantDO.a_name := " My Notes";
             TenantDO.a_wikiUrl := ("/w/" ++ "W1" ++ "/" ++ " My Notes")%string;
             TenantDO.a_wikiType := "tw5";
             TenantDO.a_createdAtMs := 1000 |} l
    /\ routeWikiRequest "W1" " My Notes" env1
       = (Ok (WikiDO.makeStreamResponse (inl [x3c; x68; x31; x3e])), env3).
Proof.
  apply (@X18_wikisCreate_end_to_end (fun x => x) (keys_env "tf_key_alice_s3cret")
           "tf_key_alice_s3cret" "tf_key_" "alice" "s3cret"
           {| name := Some " My Notes"%string; wikiType := Some "tw5"%string |}
           " My Notes" "W1" [x3c; x68; x31; x3e] 1000 new_env).
  - reflexivity.
  - exists "tf_key_alice_s3cret"%string.
    split; [reflexivity|]. split; [left; reflexivity | discriminate].
  - reflexivity.
  - reflexivity.
  - reflexivity.
  - discriminate.
  - reflexivity.
  - reflexivity.
  - discriminate.
  - discriminate.
  - left. split; reflexivity.
  - reflexivity.
  - reflexivity.
Defined.

(** X19. A wiki created through [routeCreateWiki] and deleted through
    [routeDeleteWiki] by the same tenant leaves the tenant's list as it
    was before, when the id was not in it; the wiki actor's storage is
    empty again and the address answers 400. *)
Theorem X19_route_create_delete_roundtrip :
  forall (enc : string -> string) (env : Routes.CfEnv) (doId : string)
         (b : bytes) (now : Z) (tid name : string),
    tid <> ""%string ->
    usable tid (TENANT env tid) ->
    WikiDO.storage (WIKI env doId) = WikiDO.fresh_store ->
    WikiDO.sqlFaultIn (WIKI env doId) = None ->
    ~ In doId (map TenantDO.w_wikiId (wiki_rows (TENANT env tid))) ->
    exists env1 env2,
      routeCreateWiki doId (Some b) now tid name "tw5" env
      = (Ok ("/w/" ++ doId ++ "/" ++ name)%string, env1)
      /\ routeDeleteWiki enc tid doId env1
         = (Ok (map (listed enc) (wiki_rows (TENANT env tid))), env2)
      /\ wiki_rows (TENANT env2 tid) = wiki_rows (TENANT env tid)
      /\ WikiDO.storage (WIKI env2 doId) = WikiDO.fresh_store
      /\ fst (routeWikiRequest doId name env2) = Ok WikiDO.bad_request.
Proof.
  intros enc env doId b now tid name Hne Hu Hst Hfault Hnew.
  destruct (@routeCreateWiki_fresh env doId b now tid name Hne Hu Hst Hfault)
    as (t1 & Hcreate & Hr1 & Hrows1).
  set (env1 := {| TENANT := update (TENANT env) tid t1;
                  WIKI := update (WIKI env) doId (created b now tid doId name) |})
    in *.
  assert (Hu1 : usable tid (TENANT env1 tid))
    by (cbn [env1 TENANT]; rewrite update_same; now right).
  destruct (@routeDeleteWiki_usable enc tid doId env1 Hne Hu1)
    as (t2 & Hdel & Hr2 & Hrows2).
  assert (Hback : wiki_rows t2 = wiki_rows (TENANT env tid)).
  { rewrite Hrows2. cbn [env1 TENANT]. rewrite update_same, Hrows1.
    unfold without. rewrite filter_app. cbn [filter filed TenantDO.w_wikiId
      TenantDO.w_tenantId]. rewrite !String.eqb_refl. cbn [andb negb].
    rewrite app_nil_r.
    assert (Hall : forall rows,
              ~ In doId (map TenantDO.w_wikiId rows) ->
              filter (fun x => negb (TenantDO.w_wikiId x =? doId)%string) rows = rows
              /\ filter (fun x => negb ((TenantDO.w_wikiId x =? doId)%string
                                          && (TenantDO.w_tenantId x =? tid)%string))
                   rows = rows).
    { induction rows as [|r rows IH]; intros Hnot; [now split|].
      cbn [map In filter] in *.
      assert (Hr : (TenantDO.w_wikiId r =? doId)%string = false)
        by (apply String.eqb_neq; intros E; apply Hnot; now left).
      rewrite Hr. cbn [andb negb].
      destruct IH as [IH1 IH2]; [tauto|]. now rewrite IH1, IH2. }
    destruct (Hall _ Hnew) as [H1 H2]. now rewrite H1, H2. }
  exists env1. eexists. split; [exact Hcreate|].
  split; [rewrite Hdel, Hback; reflexivity|].
  cbn [TENANT WIKI]. rewrite !update_same.
  split; [exact Hback|]. split; [reflexivity|].
  unfold routeWikiRequest, on_wiki_stub. cbn [WIKI]. rewrite update_same.
  reflexivity.
Qed.

Lemma X19_route_create_delete_roundtrip_witness :
  exists env1 env2,
    routeCreateWiki "W2" (Some [x3c; x68; x31; x3e]) 2000 "T1" "Second" "tw5" one_wiki
    = (Ok ("/w/" ++ "W2" ++ "/" ++ "Second")%string, env1)
    /\ routeDeleteWiki (fun x => x) "T1" "W2" env1
       = (Ok (map (listed (fun x => x)) (wiki_rows (TENANT one_wiki "T1"))), env2)
    /\ wiki_rows (TENANT env2 "T1") = wiki_rows (TENANT one_wiki "T1")
    /\ WikiDO.storage (WIKI env2 "W2") = WikiDO.fresh_store
    /\ fst (routeWikiRequest "W2" "Second" env2) = Ok WikiDO.bad_request.
Proof.
  apply (@X19_route_create_delete_roundtrip (fun x => x) one_wiki "W2"
           [x3c; x68; x31; x3e] 2000 "T1" "Second").
  - discriminate.
  - right. split; [reflexivity|]. split; [reflexivity|]. split; [reflexivity|].
    split; [exists "{}"%string, []; reflexivity | eexists; reflexivity].
  - reflexivity.
  - reflexivity.
  - cbn. intros [H|[]]. discriminate.
Defined.

Module CreateFacts.
Import WikiDO WikiActorView ReadOnlyFacts.

Section Fields.
Variables (w t : string).

Local Abbreviation fields := (fun s : State => wikiId s = w /\ tenantId s = t).

Lemma fields_sql_write (f : DB -> outcome DB) : keeps fields (sql_write f).
Proof.
  intros s Hs. unfold sql_write.
  destruct (sqlFaultIn s) as [[|n]|]; [exact Hs| |];
    (destruct (f (db (storage s))); exact Hs).
Qed.

Lemma fields_write_chunks wid ts total chunks :
  forall i, keeps fields (write_chunks wid ts total chunks i).
Proof.
  induction chunks as [|c rest IH]; intros i; cbn [write_chunks].
  - apply keeps_ret.
  - apply keeps_bind; [apply fields_sql_write | intros _; apply IH].
Qed.

End Fields.

(** The tables and the identity after [migrate]. *)
Lemma migrate_views (s : State) :
  exists r s1,
    migrate s = (Ok r, s1)
    /\ versions s1 = versions s /\ info_rows s1 = info_rows s
    /\ wikiId s1 = wikiId s /\ tenantId s1 = tenantId s.
Proof.
  destruct (migrate_store s) as (r & st' & Hm & _ & _ & Hinfo & Hrows).
  exists r, (set_storage s st'). split; [exact Hm|].
  unfold versions, info_rows. cbn [storage set_storage wikiId tenantId].
  split; [|split; [|split; reflexivity]].
  - destruct (wiki_versions (db (storage s)));
      [now rewrite Hrows | destruct Hrows as [-> | ->]; reflexivity].
  - destruct (wiki_info (db (storage s)));
      [now rewrite Hinfo | destruct Hinfo as [-> | ->]; reflexivity].
Qed.

End CreateFacts.

Import CreateFacts.

(** X20. [create] is all or nothing. When it throws, for whatever
    reason and however far the storage let it get, the rows of
    [wiki_info] and of [wiki_versions] and the identity of the actor are
    what they were before the call. *)
Theorem X20_create_all_or_nothing :
  forall (s : WikiDO.State) (assets : option bytes) (now : Z)
         (tid wid name wikiType : string) (e : string) (s' : WikiDO.State),
    WikiDO.create assets now tid wid name wikiType s = (Throw e, s') ->
    versions s' = versions s
    /\ info_rows s' = info_rows s
    /\ WikiDO.wikiId s' = WikiDO.wikiId s
    /\ WikiDO.tenantId s' = WikiDO.tenantId s.
Proof.
  intros s assets now tid wid name wikiType e s'. unfold WikiDO.create.
  destruct (wikiType =? "tw5")%string.
  2:{ rewrite (bind_throw _ _ _ (e := ("invalid wikiType specified: " ++ wikiType)%string)
                 (s' := s)) by reflexivity.
      intros [= _ <-]. auto. }
  destruct assets as [b|].
  2:{ rewrite (bind_throw _ _ _ (e := "fetch failed"%string) (s' := s)) by reflexivity.
      intros [= _ <-]. auto. }
  erewrite bind_ok by reflexivity.
  destruct (migrate_views (WikiDO.set_fileSrc (Some b) s))
    as (r & s1 & Hm & Hv & Hi & Hw & Ht).
  erewrite bind_ok by exact Hm.
  unfold bind at 1.
  set (body := bind (WikiDO.insert_info _) _).
  assert (Hfields : WikiDO.wikiId (snd (body s1)) = WikiDO.wikiId s1
                    /\ WikiDO.tenantId (snd (body s1)) = WikiDO.tenantId s1).
  { apply (@keeps_bind (fun k => WikiDO.wikiId k = WikiDO.wikiId s1
                                 /\ WikiDO.tenantId k = WikiDO.tenantId s1));
      [apply fields_sql_write | intros _; apply fields_write_chunks | now split]. }
  unfold WikiDO.transactionSync.
  destruct (body s1) as [[u|e1] s2]; cbn [snd] in Hfields.
  - unfold bind, modify, ret. discriminate.
  - intros [= _ <-]. destruct Hfields as [Hw2 Ht2].
    unfold versions, info_rows in *.
    cbn [WikiDO.storage WikiDO.set_storage WikiDO.set_fileSrc WikiDO.wikiId
         WikiDO.tenantId] in *.
    repeat split; congruence.
Qed.

Lemma X20_create_all_or_nothing_witness :
  versions (snd (WikiDO.create (Some [x3c; x68; x31; x3e]) 3000 "T2" "W1" "Other" "tw5"
                   (WikiDO.set_sqlFaultIn notes (Some 1%nat))))
  = versions (WikiDO.set_sqlFaultIn notes (Some 1%nat))
  /\ info_rows (snd (WikiDO.create (Some [x3c; x68; x31; x3e]) 3000 "T2" "W1" "Other" "tw5"
                       (WikiDO.set_sqlFaultIn notes (Some 1%nat))))
     = info_rows (WikiDO.set_sqlFaultIn notes (Some 1%nat))
  /\ WikiDO.wikiId (snd (WikiDO.create (Some [x3c; x68; x31; x3e]) 3000 "T2" "W1" "Other" "tw5"
                           (WikiDO.set_sqlFaultIn notes (Some 1%nat))))
     = WikiDO.wikiId (WikiDO.set_sqlFaultIn notes (Some 1%nat))
  /\ WikiDO.tenantId (snd (WikiDO.create (Some [x3c; x68; x31; x3e]) 3000 "T2" "W1" "Other" "tw5"
                             (WikiDO.set_sqlFaultIn notes (Some 1%nat))))
     = WikiDO.tenantId (WikiDO.set_sqlFaultIn notes (Some 1%nat)).
Proof.
  apply (@X20_create_all_or_nothing (WikiDO.set_sqlFaultIn notes (Some 1%nat))
           (Some [x3c; x68; x31; x3e]) 3000 "T2" "W1" "Other" "tw5" "storage fault").
  reflexivity.
Defined.

(** ** Two saves at the same millisecond *)

Module CollisionFacts.
Import WikiDO.

Section IsortSwap.
Variable A : Type.
Variable before : A -> A -> bool.


End IsortSwap.




End CollisionFacts.

Import CollisionFacts.


